(** * Puissance 4: the game engine of [main.go], embedded and verified

    The development follows the last and complete variant of the server
    ([main.go], from the constants [BOARD_ROWS], [BOARD_COLS] on): the board
    engine ([placePiece], [checkForWin], [checkDirection], [isBoardFull]),
    the turn controller ([checkGameEnd], [handleMove], [handleMoveAPI],
    [aiMoveAPI]) and the automated player ([aiMakeMove], [getBestMove],
    [findWinningMove], [getValidMoves], [findRandomValidMove], [isValidMove],
    [wouldWin]).

    The program keeps one global [*GameState]; here every function receives
    the state (or the board) it reads and returns the one it leaves behind. *)

From Stdlib Require Import ZArith List Bool String Lia.
Import ListNotations.
Local Open Scope Z_scope.

(** ** Machine integers

    Go's [int] is 64 bits wide on the platforms the server runs on; sums and
    differences wrap around. *)

Definition wrap64 (z : Z) : Z := (z + 2 ^ 63) mod 2 ^ 64 - 2 ^ 63.
Definition add64 (x y : Z) : Z := wrap64 (x + y).
Definition sub64 (x y : Z) : Z := wrap64 (x - y).

(** ** Outcomes of a call

    A call either returns, or panics on an index out of range, or (for the
    two counting loops of [checkDirection], which have no loop counter) does
    not finish within the fuel of the model. *)

Inductive outcome (A : Type) : Type :=
| Returns (a : A)
| IndexPanic
| OutOfFuel.

Arguments Returns {A} a.
Arguments IndexPanic {A}.
Arguments OutOfFuel {A}.

Definition bind {A B : Type} (m : outcome A) (k : A -> outcome B) : outcome B :=
  match m with
  | Returns a => k a
  | IndexPanic => IndexPanic
  | OutOfFuel => OutOfFuel
  end.

Notation "x <- m ;; k" := (bind m (fun x => k))
  (at level 61, m at next level, right associativity).
Notation "' pat <- m ;; k" := (bind m (fun x => match x with pat => k end))
  (at level 61, pat pattern, m at next level, right associativity).

(** ** Constants *)

Definition BOARD_ROWS : Z := 6.
Definition BOARD_COLS : Z := 7.
Definition WINNING_COUNT : Z := 4.
Definition PLAYER_1 : Z := 1.
Definition PLAYER_2 : Z := 2.
Definition PLAYER_DRAW : Z := 3.
Definition CELL_EMPTY : Z := 0.

Definition GAME_MODE_TWO_PLAYER : string := "twoPlayer".
Definition GAME_MODE_AI : string := "ai".

(** ** The board: [[BOARD_ROWS][BOARD_COLS]int]

    A Go array has its length in its type, so a board always has six rows of
    seven cells: a record of records. *)

Record Row : Type := mkRow { c0 : Z; c1 : Z; c2 : Z; c3 : Z; c4 : Z; c5 : Z; c6 : Z }.

Record BoardT : Type := mkBoard { r0 : Row; r1 : Row; r2 : Row; r3 : Row; r4 : Row; r5 : Row }.

Definition emptyRow : Row := mkRow 0 0 0 0 0 0 0.
Definition emptyBoard : BoardT := mkBoard emptyRow emptyRow emptyRow emptyRow emptyRow emptyRow.

Definition rowGet (r : Row) (j : Z) : Z :=
  if j =? 0 then c0 r else if j =? 1 then c1 r else if j =? 2 then c2 r
  else if j =? 3 then c3 r else if j =? 4 then c4 r else if j =? 5 then c5 r
  else if j =? 6 then c6 r else 0.

Definition rowSet (r : Row) (j v : Z) : Row :=
  if j =? 0 then mkRow v (c1 r) (c2 r) (c3 r) (c4 r) (c5 r) (c6 r)
  else if j =? 1 then mkRow (c0 r) v (c2 r) (c3 r) (c4 r) (c5 r) (c6 r)
  else if j =? 2 then mkRow (c0 r) (c1 r) v (c3 r) (c4 r) (c5 r) (c6 r)
  else if j =? 3 then mkRow (c0 r) (c1 r) (c2 r) v (c4 r) (c5 r) (c6 r)
  else if j =? 4 then mkRow (c0 r) (c1 r) (c2 r) (c3 r) v (c5 r) (c6 r)
  else if j =? 5 then mkRow (c0 r) (c1 r) (c2 r) (c3 r) (c4 r) v (c6 r)
  else if j =? 6 then mkRow (c0 r) (c1 r) (c2 r) (c3 r) (c4 r) (c5 r) v
  else r.

Definition boardRow (b : BoardT) (i : Z) : Row :=
  if i =? 0 then r0 b else if i =? 1 then r1 b else if i =? 2 then r2 b
  else if i =? 3 then r3 b else if i =? 4 then r4 b else if i =? 5 then r5 b
  else emptyRow.

Definition boardSetRow (b : BoardT) (i : Z) (r : Row) : BoardT :=
  if i =? 0 then mkBoard r (r1 b) (r2 b) (r3 b) (r4 b) (r5 b)
  else if i =? 1 then mkBoard (r0 b) r (r2 b) (r3 b) (r4 b) (r5 b)
  else if i =? 2 then mkBoard (r0 b) (r1 b) r (r3 b) (r4 b) (r5 b)
  else if i =? 3 then mkBoard (r0 b) (r1 b) (r2 b) r (r4 b) (r5 b)
  else if i =? 4 then mkBoard (r0 b) (r1 b) (r2 b) (r3 b) r (r5 b)
  else if i =? 5 then mkBoard (r0 b) (r1 b) (r2 b) (r3 b) (r4 b) r
  else b.

(** The cell [Board[i][j]] of an index inside the array, and the board after
    the assignment [Board[i][j] = v]. *)

Definition cellAt (b : BoardT) (i j : Z) : Z := rowGet (boardRow b i) j.

Definition setCell (b : BoardT) (i j v : Z) : BoardT :=
  boardSetRow b i (rowSet (boardRow b i) j v).

(** The bounds of the array type, as the compiled index expression checks
    them and as the loop conditions of [checkDirection] spell them out. *)

Definition inRange (i j : Z) : bool :=
  (i >=? 0) && (i <? BOARD_ROWS) && (j >=? 0) && (j <? BOARD_COLS).

(** An index expression whose index comes from the caller: out of range it
    panics. *)

Definition load (b : BoardT) (i j : Z) : outcome Z :=
  if inRange i j then Returns (cellAt b i j) else IndexPanic.

Definition store (b : BoardT) (i j v : Z) : outcome BoardT :=
  if inRange i j then Returns (setCell b i j v) else IndexPanic.

(** ** The game state *)

Record GameState : Type := mkGameState {
  Board : BoardT;
  CurrentPlayer : Z;
  Mode : string;
  GameOver : bool;
  Winner : Z;
  StatusMessage : string
}.

Definition withBoard (gs : GameState) (b : BoardT) : GameState :=
  mkGameState b (CurrentPlayer gs) (Mode gs) (GameOver gs) (Winner gs) (StatusMessage gs).

Definition withCurrentPlayer (gs : GameState) (p : Z) : GameState :=
  mkGameState (Board gs) p (Mode gs) (GameOver gs) (Winner gs) (StatusMessage gs).

Definition withGameOver (gs : GameState) (o : bool) : GameState :=
  mkGameState (Board gs) (CurrentPlayer gs) (Mode gs) o (Winner gs) (StatusMessage gs).

Definition withWinner (gs : GameState) (w : Z) : GameState :=
  mkGameState (Board gs) (CurrentPlayer gs) (Mode gs) (GameOver gs) w (StatusMessage gs).

Definition withStatusMessage (gs : GameState) (m : string) : GameState :=
  mkGameState (Board gs) (CurrentPlayer gs) (Mode gs) (GameOver gs) (Winner gs) m.

(** [startNewGame(mode)] *)

Definition startNewGame (mode : string) : GameState :=
  mkGameState emptyBoard PLAYER_1 mode false 0 "".

(** [initializeGame()] *)

Definition initializeGame : GameState :=
  mkGameState emptyBoard PLAYER_1 GAME_MODE_TWO_PLAYER false 0 "".

(** ** Board engine *)

(** [placePiece(col, player)]: [row] runs from [BOARD_ROWS - 1] down to 0;
    with [n] rows left to visit the loop is at [row = n - 1]. *)

Fixpoint placePiece_from (n : nat) (b : BoardT) (col player : Z) : outcome (Z * BoardT) :=
  match n with
  | O => Returns (-1, b)
  | S k =>
      let row := Z.of_nat k in
      v <- load b row col ;;
      if v =? CELL_EMPTY
      then b' <- store b row col player ;; Returns (row, b')
      else placePiece_from k b col player
  end.

Definition placePiece (b : BoardT) (col player : Z) : outcome (Z * BoardT) :=
  placePiece_from (Z.to_nat BOARD_ROWS) b col player.

(** The two loops of [checkDirection] share their shape: starting at
    [(i, j)], advance by [step _ dRow] and [step _ dCol] while the position is
    on the board and holds [player], counting the cells passed.  The read of
    the cell is guarded by the bounds tests before it in the condition. *)

Fixpoint countWhile (fuel : nat) (b : BoardT) (step : Z -> Z -> Z)
    (i j dRow dCol player count : Z) : outcome Z :=
  match fuel with
  | O => OutOfFuel
  | S f =>
      if inRange i j && (cellAt b i j =? player)
      then countWhile f b step (step i dRow) (step j dCol) dRow dCol player (add64 count 1)
      else Returns count
  end.

(** A loop that moves leaves the board after at most [BOARD_COLS] cells; the
    fuel covers that and the last, failing test.  With [dRow = dCol = 0] on a
    matching cell the source loops for ever, and the model runs out of
    fuel. *)

Definition loopFuel : nat := Z.to_nat (BOARD_ROWS + BOARD_COLS).

(** [checkDirection(row, col, dRow, dCol, player)] *)

Definition checkDirection (b : BoardT) (row col dRow dCol player : Z) : outcome Z :=
  count <- countWhile loopFuel b add64 (add64 row dRow) (add64 col dCol) dRow dCol player 1 ;;
  countWhile loopFuel b sub64 (sub64 row dRow) (sub64 col dCol) dRow dCol player count.

(** [checkForWin(row, col)] *)

Definition checkForWin (b : BoardT) (row col : Z) : outcome Z :=
  player <- load b row col ;;
  count <- checkDirection b row col 0 1 player ;;
  if count >=? WINNING_COUNT then Returns player else
  count <- checkDirection b row col 1 0 player ;;
  if count >=? WINNING_COUNT then Returns player else
  count <- checkDirection b row col 1 1 player ;;
  if count >=? WINNING_COUNT then Returns player else
  count <- checkDirection b row col (-1) 1 player ;;
  if count >=? WINNING_COUNT then Returns player else
  Returns 0.

(** The values of the variable of a loop [for x := 0; x < n; x++], in order. *)

Definition upto (n : Z) : list Z := map Z.of_nat (seq 0 (Z.to_nat n)).

(** [isBoardFull()]: the column index is bound by the loop. *)

Fixpoint isBoardFull_from (cols : list Z) (b : BoardT) : bool :=
  match cols with
  | [] => true
  | col :: rest => if cellAt b 0 col =? CELL_EMPTY then false else isBoardFull_from rest b
  end.

Definition isBoardFull (b : BoardT) : bool := isBoardFull_from (upto BOARD_COLS) b.

(** ** Turn controller *)

(** [getWinnerMessage(winner)] *)

Definition getWinnerMessage (winner : Z) : string :=
  if winner =? PLAYER_1 then "🎉 Le Joueur Rouge (Joueur 1) gagne ! 🎉"
  else if winner =? PLAYER_2 then "🎉 Le Joueur Jaune (Joueur 2) gagne ! 🎉"
  else if winner =? PLAYER_DRAW then "🤝 Match nul ! Égalité parfaite ! 🤝"
  else "".

(** The guard of the change of player in [checkGameEnd]. *)

Definition turnPasses (gs : GameState) : bool :=
  (Mode gs =? GAME_MODE_TWO_PLAYER)%string
  || ((Mode gs =? GAME_MODE_AI)%string && (CurrentPlayer gs =? PLAYER_1)).

(** [checkGameEnd(row, col)] *)

Definition checkGameEnd (gs : GameState) (row col : Z) : outcome GameState :=
  winner <- checkForWin (Board gs) row col ;;
  if winner >? 0 then
    Returns (withStatusMessage (withWinner (withGameOver gs true) winner)
               (getWinnerMessage winner))
  else if isBoardFull (Board gs) then
    Returns (withStatusMessage (withWinner (withGameOver gs true) PLAYER_DRAW)
               "🤝 Match nul !")
  else
    let gs1 :=
      if turnPasses gs
      then withCurrentPlayer gs (sub64 (PLAYER_2 + PLAYER_1) (CurrentPlayer gs))
      else gs in
    Returns (withStatusMessage gs1 "").

(** ** Automated player *)

(** [isValidMove(col)] *)

Definition isValidMove (b : BoardT) (col : Z) : bool :=
  (col >=? 0) && (col <? BOARD_COLS) && (cellAt b 0 col =? CELL_EMPTY).

(** [getValidMoves()] *)

Fixpoint getValidMoves_from (cols : list Z) (b : BoardT) : list Z :=
  match cols with
  | [] => []
  | col :: rest =>
      if isValidMove b col then col :: getValidMoves_from rest b
      else getValidMoves_from rest b
  end.

Definition getValidMoves (b : BoardT) : list Z := getValidMoves_from (upto BOARD_COLS) b.

(** The search of [wouldWin] for the landing row: [row] stays -1 when the
    loop ends without a [break]. *)

Fixpoint landingRow_from (n : nat) (b : BoardT) (col : Z) : outcome Z :=
  match n with
  | O => Returns (-1)
  | S k =>
      let r := Z.of_nat k in
      v <- load b r col ;;
      if v =? CELL_EMPTY then Returns r else landingRow_from k b col
  end.

(** [wouldWin(col, player)]: the piece is put on the board, the win test is
    run on the changed board, and the cell is emptied again. *)

Definition wouldWin (b : BoardT) (col player : Z) : outcome (bool * BoardT) :=
  row <- landingRow_from (Z.to_nat BOARD_ROWS) b col ;;
  if row =? -1 then Returns (false, b) else
  b1 <- store b row col player ;;
  winner <- checkForWin b1 row col ;;
  b2 <- store b1 row col CELL_EMPTY ;;
  Returns (winner =? player, b2).

(** [findWinningMove(player)]: the list of valid moves is computed once,
    before the loop. *)

Fixpoint findWinningMove_in (moves : list Z) (b : BoardT) (player : Z) : outcome (Z * BoardT) :=
  match moves with
  | [] => Returns (-1, b)
  | col :: rest =>
      '(w, b') <- wouldWin b col player ;;
      if w then Returns (col, b') else findWinningMove_in rest b' player
  end.

Definition findWinningMove (b : BoardT) (player : Z) : outcome (Z * BoardT) :=
  findWinningMove_in (getValidMoves b) b player.

(** [moves[k]] on a slice. *)

Definition sliceAt (moves : list Z) (k : Z) : outcome Z :=
  if (k >=? 0) && (k <? Z.of_nat (List.length moves))
  then Returns (nth (Z.to_nat k) moves 0)
  else IndexPanic.

(** The API reply of [handleMoveAPI] and [aiMoveAPI]: either [http.Error] with
    a status code, or an encoded [GameResponse] ([withState] tells whether the
    [GameState] pointer is set). *)

Record GameResponse : Type := mkGameResponse {
  Success : bool;
  Message : string;
  withState : bool;
  RespWinner : Z
}.

Inductive apiReply : Type :=
| HttpError (status : Z)
| Json (resp : GameResponse).

Definition StatusMethodNotAllowed : Z := 405.
Definition StatusInternalServerError : Z := 500.
Definition MethodPost : string := "POST".

(** [handleMoveAPI]: the decoded [req.Col] goes to [placePiece] as it is; an
    error of the decoder is ignored by the source. *)

Definition handleMoveAPI (gs : GameState) (method : string) (reqCol : Z)
  : outcome (GameState * apiReply) :=
  if negb (method =? MethodPost)%string then Returns (gs, HttpError StatusMethodNotAllowed) else
  '(row, b) <- placePiece (Board gs) reqCol (CurrentPlayer gs) ;;
  let gs := withBoard gs b in
  if row =? -1 then Returns (gs, Json (mkGameResponse false "Colonne pleine" false 0)) else
  gs <- checkGameEnd gs row reqCol ;;
  if GameOver gs
  then Returns (gs, Json (mkGameResponse true (StatusMessage gs) true (Winner gs)))
  else Returns (gs, Json (mkGameResponse true "" true 0)).

Section WithRandomSource.

(** [rand.Intn]: for a positive [n] it returns a number in [[0, n)]. *)
Variable rand_Intn : Z -> Z.

(** [findRandomValidMove()] *)

Definition findRandomValidMove (b : BoardT) : outcome Z :=
  let moves := getValidMoves b in
  if Z.of_nat (List.length moves) =? 0 then Returns 0
  else sliceAt moves (rand_Intn (Z.of_nat (List.length moves))).

(** [getBestMove()] *)

Definition getBestMove (b : BoardT) : outcome (Z * BoardT) :=
  '(col, b) <- findWinningMove b PLAYER_2 ;;
  if negb (col =? -1) then Returns (col, b) else
  '(col, b) <- findWinningMove b PLAYER_1 ;;
  if negb (col =? -1) then Returns (col, b) else
  let centerCol := 3 in
  if isValidMove b centerCol then Returns (centerCol, b) else
  col <- findRandomValidMove b ;;
  Returns (col, b).

(** [aiMakeMove()] *)

Definition aiMakeMove (gs : GameState) : outcome GameState :=
  '(col, b) <- getBestMove (Board gs) ;;
  '(row, b) <- placePiece b col PLAYER_2 ;;
  let gs := withBoard gs b in
  if row =? -1 then Returns gs else
  gs <- checkGameEnd gs row col ;;
  if negb (GameOver gs)
  then Returns (withStatusMessage (withCurrentPlayer gs PLAYER_1) "")
  else Returns gs.

(** [handleMove]: [colForm] is the result of [strconv.Atoi] on the form
    value, [None] when it fails.  Every path of a POST ends by rendering the
    state it leaves. *)

Definition handleMove (gs : GameState) (method : string) (colForm : option Z)
  : outcome GameState :=
  if negb (method =? MethodPost)%string then Returns gs else
  match colForm with
  | None => Returns (withStatusMessage gs "❌ Colonne invalide")
  | Some col =>
      if (col <? 0) || (col >=? BOARD_COLS)
      then Returns (withStatusMessage gs "❌ Colonne invalide")
      else
        '(row, b) <- placePiece (Board gs) col (CurrentPlayer gs) ;;
        let gs := withBoard gs b in
        if row =? -1 then Returns (withStatusMessage gs "❌ Colonne pleine !") else
        gs <- checkGameEnd gs row col ;;
        if negb (GameOver gs) && (Mode gs =? GAME_MODE_AI)%string
           && (CurrentPlayer gs =? PLAYER_2)
        then aiMakeMove gs
        else Returns gs
  end.

(** [aiMoveAPI] *)

Definition aiMoveAPI (gs : GameState) (method : string) : outcome (GameState * apiReply) :=
  if negb (method =? MethodPost)%string then Returns (gs, HttpError StatusMethodNotAllowed) else
  '(col, b) <- getBestMove (Board gs) ;;
  '(row, b) <- placePiece b col PLAYER_2 ;;
  let gs := withBoard gs b in
  if row =? -1 then Returns (gs, HttpError StatusInternalServerError) else
  gs <- checkGameEnd gs row col ;;
  Returns (gs, Json (mkGameResponse true (StatusMessage gs) true (Winner gs))).

End WithRandomSource.

(** ** Running the model *)

Definition B (a b c d e f : Row) : BoardT := mkBoard a b c d e f.
Definition R (a b c d e f g : Z) : Row := mkRow a b c d e f g.

Definition firstIndex (_ : Z) : Z := 0.


(** ** The words of the specification

    These definitions say what the specification says, without following the
    code; the theorems compare them with the functions above. *)

(** The cell [(i, j)] is on the board and holds [p]. *)

Definition holds (b : BoardT) (p i j : Z) : bool :=
  inRange i j && (cellAt b i j =? p).

(** The four line orientations: horizontal, vertical and the two diagonals. *)

Definition directions : list (Z * Z) := [(0, 1); (1, 0); (1, 1); (-1, 1)].

(** Four cells in a row, all holding [p], from [(i, j)] on in the direction
    [(dRow, dCol)]. *)

Definition fourFrom (b : BoardT) (p i j dRow dCol : Z) : bool :=
  forallb (fun t => holds b p (i + t * dRow) (j + t * dCol)) [0; 1; 2; 3].

(** [(row, col)] is one of four cells in a row that all hold [p], in the
    direction [(dRow, dCol)]: the four start [k] cells before it. *)

Definition onLineAlong (b : BoardT) (p row col dRow dCol : Z) : bool :=
  existsb (fun k => fourFrom b p (row - k * dRow) (col - k * dCol) dRow dCol) [0; 1; 2; 3].

Definition onLineOfFour (b : BoardT) (p row col : Z) : bool :=
  existsb (fun d => onLineAlong b p row col (fst d) (snd d)) directions.

(** What the downward scan over rows [n - 1 .. 0] of column [col] finds:
    the greatest row below [n] holding [CELL_EMPTY], or nothing. *)

Inductive scanResult (b : BoardT) (col : Z) (n : Z) : Z -> Prop :=
| ScanFound (row : Z) :
    0 <= row < n ->
    cellAt b row col = CELL_EMPTY ->
    (forall r, row < r < n -> cellAt b r col <> CELL_EMPTY) ->
    scanResult b col n row
| ScanNone :
    (forall r, 0 <= r < n -> cellAt b r col <> CELL_EMPTY) ->
    scanResult b col n (-1).

(** The number of cells between a position on the board and the edge the
    direction [(dRow, dCol)] leads to. *)

Definition edgeDistance (i j dRow dCol : Z) : Z :=
  if dCol =? 1 then BOARD_COLS - j
  else if dCol =? -1 then j + 1
  else if dRow =? 1 then BOARD_ROWS - i
  else i + 1.


(** "The hypothetical placement of [p] in column [col] makes [p] win": once
    the piece has dropped, its cell is one of four in a row. *)

Definition wouldComplete (b : BoardT) (col p : Z) : bool :=
  match placePiece b col p with
  | Returns (row, b') => negb (row =? -1) && onLineOfFour b' p row col
  | _ => false
  end.

(** A column with room in which [p] wins at once; the leftmost such column;
    no such column. *)

Definition winningColumn (b : BoardT) (p col : Z) : Prop :=
  isValidMove b col = true /\ wouldComplete b col p = true.

Definition leftmostWinning (b : BoardT) (p col : Z) : Prop :=
  winningColumn b p col /\ forall c, c < col -> ~ winningColumn b p c.

Definition noWinning (b : BoardT) (p : Z) : Prop :=
  forall c, ~ winningColumn b p c.

(** The gravity invariant: in every column, the cell under an occupied cell
    is occupied, so the occupied cells are a run from the bottom row up. *)

Definition gravity (b : BoardT) : Prop :=
  forall r col, 0 <= r < BOARD_ROWS - 1 -> 0 <= col < BOARD_COLS ->
    cellAt b r col <> CELL_EMPTY -> cellAt b (r + 1) col <> CELL_EMPTY.

Definition gravityb (b : BoardT) : bool :=
  forallb (fun col =>
    forallb (fun r => (cellAt b r col =? CELL_EMPTY) || negb (cellAt b (r + 1) col =? CELL_EMPTY))
            (upto (BOARD_ROWS - 1)))
    (upto BOARD_COLS).

(** The boards of legal play: from the empty board, one piece of a side
    dropped at a time into a column that takes it. *)

Inductive reachable : BoardT -> Prop :=
| reachable_empty : reachable emptyBoard
| reachable_move (b : BoardT) (col side row : Z) (b' : BoardT) :
    reachable b ->
    0 <= col < BOARD_COLS ->
    side = PLAYER_1 \/ side = PLAYER_2 ->
    placePiece b col side = Returns (row, b') ->
    row <> -1 ->
    reachable b'.

(** Every cell of the board is occupied. *)

Definition allOccupied (b : BoardT) : Prop :=
  forall r col, inRange r col = true -> cellAt b r col <> CELL_EMPTY.

(** ** Boards and states used as examples *)

(** A vertical four of side 1 in column 3 that ends at the top row. *)

Definition boardVerticalTop : BoardT :=
  B (R 0 0 0 1 0 0 0)
    (R 0 0 0 1 0 0 0)
    (R 0 0 0 1 0 0 0)
    (R 0 0 0 1 0 0 0)
    (R 0 0 0 2 2 0 0)
    (R 0 0 0 2 2 1 0).

(** A diagonal four of side 1 from the bottom left corner upwards. *)

Definition boardCornerDiagonal : BoardT :=
  B (R 0 0 0 0 0 0 0)
    (R 0 0 0 0 0 0 0)
    (R 0 0 0 1 0 0 0)
    (R 0 0 1 2 0 0 0)
    (R 0 1 2 2 0 0 0)
    (R 1 2 1 2 1 0 0).

(** The other diagonal, from the top right corner of the board downwards to
    the left; the columns under it are filled. *)

Definition boardTopRightDiagonal : BoardT :=
  B (R 0 0 0 0 0 0 2)
    (R 0 0 0 0 0 2 1)
    (R 0 0 0 0 2 1 2)
    (R 0 0 0 2 1 1 1)
    (R 0 0 0 1 2 2 1)
    (R 0 0 0 1 1 2 2).

(** Side 2 to move.  It completes a horizontal four in column 2 (and in no
    other column); side 1 would complete a vertical four in column 5. *)

Definition boardWinAt2BlockAt5 : BoardT :=
  B (R 0 0 0 0 0 0 0)
    (R 0 0 0 0 0 0 0)
    (R 0 0 0 0 0 1 0)
    (R 0 0 0 0 0 1 0)
    (R 0 0 0 0 0 1 0)
    (R 0 0 0 2 2 2 1).

(** A full board without four in a row, and the columns of a game of two
    players that fills it, side 1 first. *)

Definition boardDraw : BoardT :=
  B (R 2 2 1 1 2 1 2)
    (R 2 1 1 1 2 1 1)
    (R 2 2 2 1 2 2 1)
    (R 1 1 1 2 1 2 1)
    (R 1 1 1 2 1 2 2)
    (R 2 2 2 1 2 1 2).

Definition drawGame : list Z :=
  [3; 0; 0; 1; 0; 0; 1; 0; 1; 0; 5; 1; 1; 2; 2; 1; 2; 2; 2; 3; 2;
   3; 3; 4; 3; 5; 3; 5; 4; 5; 4; 4; 5; 6; 5; 6; 6; 4; 6; 4; 6; 6].

(** The other side of a side. *)

Definition otherSide (p : Z) : Z := PLAYER_1 + PLAYER_2 - p.

(** A run of form posts to [handleMove], one per column of the list. *)

Fixpoint playForm (rand_Intn : Z -> Z) (gs : GameState) (cols : list Z) : outcome GameState :=
  match cols with
  | [] => Returns gs
  | col :: rest =>
      gs' <- handleMove rand_Intn gs MethodPost (Some col) ;;
      playForm rand_Intn gs' rest
  end.

(** Two players: side 1 has played column 3 four times, side 2 column 4
    three times; side 1 has won with a vertical four. *)

Definition gsWonByFirst : GameState :=
  mkGameState
    (B (R 0 0 0 0 0 0 0)
       (R 0 0 0 0 0 0 0)
       (R 0 0 0 1 0 0 0)
       (R 0 0 0 1 2 0 0)
       (R 0 0 0 1 2 0 0)
       (R 0 0 0 1 2 0 0))
    PLAYER_1 GAME_MODE_TWO_PLAYER true PLAYER_1 (getWinnerMessage PLAYER_1).

(** Against the automated player: side 1 has played column 0, and
    [aiMakeMove] has just dropped the piece of side 2 into column 3, row 5;
    this is the state in which it calls [checkGameEnd(5, 3)]. *)

Definition gsAutomatedReply : GameState :=
  mkGameState
    (B (R 0 0 0 0 0 0 0)
       (R 0 0 0 0 0 0 0)
       (R 0 0 0 0 0 0 0)
       (R 0 0 0 0 0 0 0)
       (R 0 0 0 0 0 0 0)
       (R 1 0 0 2 0 0 0))
    PLAYER_2 GAME_MODE_AI false 0 "".

(** The states of the server: the state at start, a new game (by
    [handleModeChange], [handleNewGame] or [newGameAPI], with any mode
    string), and the state a move handler leaves when it returns.  A handler
    that panics does so at the first read of [placePiece], before any
    write.

    One call of a handler draws from [rand.Intn] at most once (in
    [findRandomValidMove], reached at most once from [getBestMove]), so
    within a call the random source is a function from the bound to the
    draw.  Different calls draw independently: every step of a history has a
    random source of its own, of which only the contract of [rand.Intn] is
    known. *)

Inductive reachableState : GameState -> Prop :=
| reachableState_start : reachableState initializeGame
| reachableState_new (mode : string) : reachableState (startNewGame mode)
| reachableState_handleMove (rand_Intn : Z -> Z) (gs : GameState) (method : string)
    (colForm : option Z) (gs' : GameState) :
    (forall n, 0 < n -> 0 <= rand_Intn n < n) ->
    reachableState gs ->
    handleMove rand_Intn gs method colForm = Returns gs' ->
    reachableState gs'
| reachableState_handleMoveAPI (gs : GameState) (method : string) (reqCol : Z)
    (gs' : GameState) (reply : apiReply) :
    reachableState gs ->
    handleMoveAPI gs method reqCol = Returns (gs', reply) ->
    reachableState gs'
| reachableState_aiMoveAPI (rand_Intn : Z -> Z) (gs : GameState) (method : string)
    (gs' : GameState) (reply : apiReply) :
    (forall n, 0 < n -> 0 <= rand_Intn n < n) ->
    reachableState gs ->
    aiMoveAPI rand_Intn gs method = Returns (gs', reply) ->
    reachableState gs'.

(** The side to move is one of the two sides. *)

Definition sideToMove (gs : GameState) : Prop :=
  CurrentPlayer gs = PLAYER_1 \/ CurrentPlayer gs = PLAYER_2.

(** ** The remaining handlers *)

(** [handleModeChange]: the form value [mode] goes to [startNewGame] as it
    is. *)

Definition handleModeChange (gs : GameState) (method : string) (modeForm : string)
  : GameState :=
  if negb (method =? MethodPost)%string then gs else startNewGame modeForm.

(** [handleNewGame]: an empty form value stands for the mode of the current
    game. *)

Definition handleNewGame (gs : GameState) (method : string) (modeForm : string)
  : GameState :=
  if negb (method =? MethodPost)%string then gs else
  let mode := if (modeForm =? "")%string then Mode gs else modeForm in
  startNewGame mode.

(** [newGameAPI]: [reqMode] is the decoded [req.Mode]; an error of the
    decoder is ignored by the source. *)

Definition newGameAPI (gs : GameState) (method : string) (reqMode : string)
  : GameState * apiReply :=
  if negb (method =? MethodPost)%string then (gs, HttpError StatusMethodNotAllowed) else
  (startNewGame reqMode, Json (mkGameResponse true "" true 0)).

(** ** More words for the theorems *)

(** The 42 positions of the board, row by row. *)

Definition allCells : list (Z * Z) :=
  flat_map (fun i => map (fun j => (i, j)) (upto BOARD_COLS)) (upto BOARD_ROWS).

(** Somewhere on the board there are four cells in a row that all hold [p]. *)

Definition hasFour (b : BoardT) (p : Z) : bool :=
  existsb (fun c => existsb (fun d => fourFrom b p (fst c) (snd c) (fst d) (snd d)) directions)
          allCells.

(** The number of occupied cells. *)

Definition pieces (b : BoardT) : Z :=
  Z.of_nat (List.length (filter (fun c => negb (cellAt b (fst c) (snd c) =? CELL_EMPTY)) allCells)).

(** Every cell is empty or holds a piece of side 1 or side 2. *)

Definition cellsOfSides (b : BoardT) : Prop :=
  forall i j, cellAt b i j = CELL_EMPTY \/ cellAt b i j = PLAYER_1 \/ cellAt b i j = PLAYER_2.

(** What the fields [GameOver] and [Winner] say about the board. *)

Definition verdictSound (gs : GameState) : Prop :=
  (GameOver gs = false ->
     Winner gs = 0 /\ hasFour (Board gs) PLAYER_1 = false /\ hasFour (Board gs) PLAYER_2 = false)
  /\ (GameOver gs = true ->
        Winner gs = PLAYER_1 \/ Winner gs = PLAYER_2 \/ Winner gs = PLAYER_DRAW)
  /\ (Winner gs = PLAYER_1 \/ Winner gs = PLAYER_2 -> hasFour (Board gs) (Winner gs) = true).

(** The states reached from [gs0] by posts to [handleMove] and
    [handleMoveAPI] that return. *)

Inductive movesFrom (rand_Intn : Z -> Z) (gs0 : GameState) : GameState -> Prop :=
| movesFrom_start : movesFrom rand_Intn gs0 gs0
| movesFrom_handleMove (gs : GameState) (method : string) (colForm : option Z)
    (gs' : GameState) :
    movesFrom rand_Intn gs0 gs ->
    handleMove rand_Intn gs method colForm = Returns gs' ->
    movesFrom rand_Intn gs0 gs'
| movesFrom_handleMoveAPI (gs : GameState) (method : string) (reqCol : Z)
    (gs' : GameState) (reply : apiReply) :
    movesFrom rand_Intn gs0 gs ->
    handleMoveAPI gs method reqCol = Returns (gs', reply) ->
    movesFrom rand_Intn gs0 gs'.

(** The state of a game as play produces it. *)

Definition soundState (gs : GameState) : Prop :=
  reachable (Board gs) /\ sideToMove gs /\ verdictSound gs.

(** From [gs0] to [gs], no piece was moved or taken off, the mode is the
    same, and a game that was over is still over. *)

Definition playKept (gs0 gs : GameState) : Prop :=
  (forall i j, cellAt (Board gs0) i j <> CELL_EMPTY ->
     cellAt (Board gs) i j = cellAt (Board gs0) i j)
  /\ Mode gs = Mode gs0
  /\ (GameOver gs0 = true -> GameOver gs = true).

(** Every piece on the board is a piece of side 1. *)

Definition onlySideOne (b : BoardT) : Prop :=
  forall i j, cellAt b i j = CELL_EMPTY \/ cellAt b i j = PLAYER_1.

(** A board that is not a board of play: the top row is full, and there is a
    hole under it in column 0. *)

Definition boardWithHole : BoardT :=
  B (R 1 2 1 2 1 2 1)
    (R 0 1 2 1 2 1 2)
    (R 1 2 1 2 1 2 1)
    (R 2 1 2 1 2 1 2)
    (R 1 2 1 2 1 2 1)
    (R 2 1 2 1 2 1 2).

(** Side 2 to move, with no winning column of its own; side 1 would complete
    a vertical four in column 5. *)

Definition boardBlockAt5 : BoardT :=
  B (R 0 0 0 0 0 0 0)
    (R 0 0 0 0 0 0 0)
    (R 0 0 0 0 0 1 0)
    (R 0 0 0 0 0 1 0)
    (R 0 0 0 2 0 1 0)
    (R 0 0 0 2 0 2 1).

(** The test "is the position [(i, j)]". *)

Definition isCell (i j : Z) (c : Z * Z) : bool := (fst c =? i) && (snd c =? j).

(** ** The earlier [checkForWin]

    The first two variants of the server in [main.go] (and the one kept in
    [static/script.js]) test for a win with seven loops of their own, each
    with a one-sided bound, and look at the column only below the cell. *)

(** One such loop: while [guard] holds and the cell holds [player], count
    and step.  The index expression is not guarded against the other bound,
    so it is a [load]. *)

Fixpoint scanWhile (fuel : nat) (b : BoardT) (guard : Z -> Z -> bool)
    (nextI nextJ : Z -> Z) (i j player count : Z) : outcome Z :=
  match fuel with
  | O => OutOfFuel
  | S f =>
      if guard i j then
        v <- load b i j ;;
        if v =? player
        then scanWhile f b guard nextI nextJ (nextI i) (nextJ j) player (add64 count 1)
        else Returns count
      else Returns count
  end.

(** [x++], [x--], and a variable the loop does not touch. *)

Definition inc (x : Z) : Z := add64 x 1.
Definition dec (x : Z) : Z := sub64 x 1.
Definition keep (x : Z) : Z := x.

Definition checkForWinDraft (b : BoardT) (row col : Z) : outcome Z :=
  player <- load b row col ;;
  count <- scanWhile loopFuel b (fun _ j => j >=? 0) keep dec
             row (sub64 col 1) player 1 ;;
  count <- scanWhile loopFuel b (fun _ j => j <? 7) keep inc
             row (add64 col 1) player count ;;
  if count >=? 4 then Returns player else
  count <- scanWhile loopFuel b (fun i _ => i <? 6) inc keep
             (add64 row 1) col player 1 ;;
  if count >=? 4 then Returns player else
  count <- scanWhile loopFuel b (fun i j => (i >=? 0) && (j >=? 0)) dec dec
             (sub64 row 1) (sub64 col 1) player 1 ;;
  count <- scanWhile loopFuel b (fun i j => (i <? 6) && (j <? 7)) inc inc
             (add64 row 1) (add64 col 1) player count ;;
  if count >=? 4 then Returns player else
  count <- scanWhile loopFuel b (fun i j => (i <? 6) && (j >=? 0)) inc dec
             (add64 row 1) (sub64 col 1) player 1 ;;
  count <- scanWhile loopFuel b (fun i j => (i >=? 0) && (j <? 7)) dec inc
             (sub64 row 1) (add64 col 1) player count ;;
  if count >=? 4 then Returns player else
  Returns 0.

(** ** The page script ([static/script.js])

    [initializeBoard] appends one cell for each row and column, in that
    order, with a click handler that sends the column; [renderBoard] visits
    the cells in document order and fills the cell at [index] from
    [board[Math.floor(index / 7)][index % 7]]. *)

(** The column sent by the click handler of each cell, in the order in which
    the cells are appended. *)

Definition clickColumns : list Z :=
  flat_map (fun row => map (fun col => col) (upto 7)) (upto 6).

Definition renderedRow (index : Z) : Z := index / 7.
Definition renderedCol (index : Z) : Z := Z.rem index 7.

(** The verdict says what the board says. *)

Definition verdictExact (gs : GameState) : Prop :=
  (GameOver gs = false -> isBoardFull (Board gs) = false)
  /\ (Winner gs = PLAYER_DRAW -> isBoardFull (Board gs) = true).

(** ** Draws of [rand.Intn] *)

(** A second random source, which always draws the last index. *)

Definition lastIndex (n : Z) : Z := n - 1.

(** A random source that draws index 0 of six and the last index of any
    other number. *)

Definition firstOfSix (n : Z) : Z := if n =? 6 then 0 else n - 1.

(** Two calls on the board [b] get the same draw: [findRandomValidMove]
    draws once, with the number of valid columns as bound. *)

Definition sameDraw (r1 r2 : Z -> Z) (b : BoardT) : Prop :=
  r1 (Z.of_nat (List.length (getValidMoves b)))
  = r2 (Z.of_nat (List.length (getValidMoves b))).

(** No draw decides the column on [b]: some column wins for side 2 or for
    side 1, or the centre column has room, or no column has. *)

Definition noDrawNeeded (b : BoardT) : Prop :=
  (exists c, winningColumn b PLAYER_2 c)
  \/ (exists c, winningColumn b PLAYER_1 c)
  \/ isValidMove b 3 = true
  \/ (forall c, isValidMove b c = false).

(** Against the automated player: side 1 has played column 3 three times
    and the automated player has answered there each time; the centre column
    is full and no column wins for either side. *)

Definition gsCentreFull : GameState :=
  mkGameState
    (B (R 0 0 0 2 0 0 0)
       (R 0 0 0 1 0 0 0)
       (R 0 0 0 2 0 0 0)
       (R 0 0 0 1 0 0 0)
       (R 0 0 0 2 0 0 0)
       (R 0 0 0 1 0 0 0))
    PLAYER_1 GAME_MODE_AI false 0 "".

(** From there side 1 has played column 1 twice; the first answer was drawn
    as index 0 of the six columns with room (column 0), the second as index
    5 (column 6). *)

Definition gsTwoDraws : GameState :=
  mkGameState
    (B (R 0 0 0 2 0 0 0)
       (R 0 0 0 1 0 0 0)
       (R 0 0 0 2 0 0 0)
       (R 0 0 0 1 0 0 0)
       (R 0 1 0 2 0 0 0)
       (R 2 1 0 1 0 0 2))
    PLAYER_1 GAME_MODE_AI false 0 "".

(** ** What the earlier [checkForWin] looks at

    Its horizontal and diagonal scans count both ways from the cell, its
    vertical scan only downward (toward greater rows): the cell is one of
    four in a row along a horizontal or a diagonal, or it is the upper end of
    four in its column. *)

Definition onLineOfFourDraft (b : BoardT) (p row col : Z) : bool :=
  onLineAlong b p row col 0 1
  || fourFrom b p row col 1 0
  || onLineAlong b p row col 1 1
  || onLineAlong b p row col (-1) 1.

(** Five of side 1 in column 3, rows 1 to 5. *)

Definition boardVerticalFive : BoardT :=
  B (R 0 0 0 0 0 0 0)
    (R 0 0 0 1 0 0 0)
    (R 0 0 0 1 0 0 0)
    (R 0 0 0 1 0 0 0)
    (R 0 0 0 1 0 0 0)
    (R 0 0 0 1 0 0 0).
(** ** Arithmetic of machine integers *)

Lemma wrap64_small (z : Z) : - 2 ^ 63 <= z < 2 ^ 63 -> wrap64 z = z.
Proof.
  intros H. unfold wrap64.
  rewrite Z.mod_small by lia. lia.
Qed.

Lemma add64_small (x y : Z) : - 2 ^ 63 <= x + y < 2 ^ 63 -> add64 x y = x + y.
Proof. apply wrap64_small. Qed.

Lemma sub64_small (x y : Z) : - 2 ^ 63 <= x - y < 2 ^ 63 -> sub64 x y = x - y.
Proof. apply wrap64_small. Qed.

Lemma sub64_as_add64 (x y : Z) : sub64 x y = add64 x (- y).
Proof. reflexivity. Qed.

(** ** Reading and writing cells *)

Ltac split_eqb :=
  repeat match goal with
         | |- context [Z.eqb ?x ?y] => destruct (Z.eqb_spec x y); subst; try lia
         end.

Lemma inRange_iff (i j : Z) :
  inRange i j = true <-> 0 <= i < BOARD_ROWS /\ 0 <= j < BOARD_COLS.
Proof.
  unfold inRange. rewrite !andb_true_iff, !Z.geb_le, !Z.ltb_lt. lia.
Qed.

Lemma inRange_false_iff (i j : Z) :
  inRange i j = false <-> ~ (0 <= i < BOARD_ROWS /\ 0 <= j < BOARD_COLS).
Proof.
  rewrite <- inRange_iff. destruct (inRange i j); split; intros; congruence.
Qed.

Lemma rowGet_rowSet (r : Row) (j v j' : Z) :
  0 <= j < BOARD_COLS ->
  rowGet (rowSet r j v) j' = if j' =? j then v else rowGet r j'.
Proof.
  unfold BOARD_COLS. intros Hj. destruct r.
  assert (j = 0 \/ j = 1 \/ j = 2 \/ j = 3 \/ j = 4 \/ j = 5 \/ j = 6) as Hc by lia.
  unfold rowGet, rowSet.
  repeat (destruct Hc as [-> | Hc]); [ .. | subst j ]; simpl; split_eqb; try reflexivity.
Qed.

Lemma boardRow_boardSetRow (b : BoardT) (i : Z) (r : Row) (i' : Z) :
  0 <= i < BOARD_ROWS ->
  boardRow (boardSetRow b i r) i' = if i' =? i then r else boardRow b i'.
Proof.
  unfold BOARD_ROWS. intros Hi. destruct b.
  assert (i = 0 \/ i = 1 \/ i = 2 \/ i = 3 \/ i = 4 \/ i = 5) as Hc by lia.
  unfold boardRow, boardSetRow.
  repeat (destruct Hc as [-> | Hc]); [ .. | subst i ]; simpl; split_eqb; try reflexivity.
Qed.

Lemma cellAt_setCell (b : BoardT) (i j v i' j' : Z) :
  inRange i j = true ->
  cellAt (setCell b i j v) i' j'
  = if (i' =? i) && (j' =? j) then v else cellAt b i' j'.
Proof.
  rewrite inRange_iff. intros [Hi Hj]. unfold cellAt, setCell.
  rewrite boardRow_boardSetRow by assumption.
  destruct (Z.eqb_spec i' i) as [-> | Hne]; simpl.
  - apply rowGet_rowSet; assumption.
  - reflexivity.
Qed.

Lemma cellAt_setCell_same (b : BoardT) (i j v : Z) :
  inRange i j = true -> cellAt (setCell b i j v) i j = v.
Proof.
  intros H. rewrite cellAt_setCell by assumption. now rewrite !Z.eqb_refl.
Qed.

Lemma cellAt_setCell_other (b : BoardT) (i j v i' j' : Z) :
  inRange i j = true -> (i', j') <> (i, j) ->
  cellAt (setCell b i j v) i' j' = cellAt b i' j'.
Proof.
  intros H Hne. rewrite cellAt_setCell by assumption.
  destruct (Z.eqb_spec i' i), (Z.eqb_spec j' j); simpl; try reflexivity.
  subst. congruence.
Qed.

(** Two boards with the same 42 cells are the same board. *)

Lemma row_ext (r r' : Row) :
  (forall j, 0 <= j < BOARD_COLS -> rowGet r j = rowGet r' j) -> r = r'.
Proof.
  unfold BOARD_COLS. intros H. destruct r, r'.
  pose proof (H 0 ltac:(lia)) as H0. pose proof (H 1 ltac:(lia)) as H1.
  pose proof (H 2 ltac:(lia)) as H2. pose proof (H 3 ltac:(lia)) as H3.
  pose proof (H 4 ltac:(lia)) as H4. pose proof (H 5 ltac:(lia)) as H5.
  pose proof (H 6 ltac:(lia)) as H6.
  cbn in H0, H1, H2, H3, H4, H5, H6. congruence.
Qed.

Lemma board_ext (b b' : BoardT) :
  (forall i j, inRange i j = true -> cellAt b i j = cellAt b' i j) -> b = b'.
Proof.
  intros H.
  assert (forall i, 0 <= i < BOARD_ROWS -> boardRow b i = boardRow b' i) as Hr.
  { intros i Hi. apply row_ext. intros j Hj. apply H. apply inRange_iff. auto. }
  unfold BOARD_ROWS in Hr. destruct b, b'.
  pose proof (Hr 0 ltac:(lia)) as H0. pose proof (Hr 1 ltac:(lia)) as H1.
  pose proof (Hr 2 ltac:(lia)) as H2. pose proof (Hr 3 ltac:(lia)) as H3.
  pose proof (Hr 4 ltac:(lia)) as H4. pose proof (Hr 5 ltac:(lia)) as H5.
  cbn in H0, H1, H2, H3, H4, H5. congruence.
Qed.

Lemma setCell_same_value (b : BoardT) (i j : Z) :
  inRange i j = true -> setCell b i j (cellAt b i j) = b.
Proof.
  intros H. apply board_ext. intros i' j' _.
  rewrite cellAt_setCell by assumption.
  destruct (Z.eqb_spec i' i), (Z.eqb_spec j' j); simpl; subst; reflexivity.
Qed.

Lemma setCell_setCell (b : BoardT) (i j v w : Z) :
  inRange i j = true -> setCell (setCell b i j v) i j w = setCell b i j w.
Proof.
  intros H. apply board_ext. intros i' j' _.
  rewrite !cellAt_setCell by assumption.
  destruct ((i' =? i) && (j' =? j)); reflexivity.
Qed.

(** ** The outcome monad *)

Lemma bind_Returns {A B : Type} (a : A) (k : A -> outcome B) : bind (Returns a) k = k a.
Proof. reflexivity. Qed.

Lemma load_inRange (b : BoardT) (i j : Z) :
  inRange i j = true -> load b i j = Returns (cellAt b i j).
Proof. intros H. unfold load. now rewrite H. Qed.

Lemma store_inRange (b : BoardT) (i j v : Z) :
  inRange i j = true -> store b i j v = Returns (setCell b i j v).
Proof. intros H. unfold store. now rewrite H. Qed.

Lemma load_outside (b : BoardT) (i j : Z) :
  inRange i j = false -> load b i j = IndexPanic.
Proof. intros H. unfold load. now rewrite H. Qed.

(** ** [placePiece]: the scan of a column *)

Lemma landingRow_from_spec (n : nat) (b : BoardT) (col : Z) :
  Z.of_nat n <= BOARD_ROWS -> 0 <= col < BOARD_COLS ->
  exists row, landingRow_from n b col = Returns row /\ scanResult b col (Z.of_nat n) row.
Proof.
  intros Hn Hcol. induction n as [| k IH].
  - exists (-1). split; [reflexivity |]. apply ScanNone. simpl. lia.
  - cbn [landingRow_from].
    assert (inRange (Z.of_nat k) col = true) as Hin by (apply inRange_iff; lia).
    rewrite load_inRange by assumption. rewrite bind_Returns.
    destruct (Z.eqb_spec (cellAt b (Z.of_nat k) col) CELL_EMPTY) as [He | Hne].
    + exists (Z.of_nat k). split; [reflexivity |].
      apply ScanFound; [lia | assumption | lia].
    + destruct IH as [row [Hrun Hres]]; [lia |].
      exists row. split; [assumption |].
      destruct Hres as [row Hr He Hab | Hall].
      * apply ScanFound; [lia | assumption |].
        intros r Hr'. destruct (Z.eq_dec r (Z.of_nat k)) as [-> | Hd]; [assumption |].
        apply Hab. lia.
      * apply ScanNone. intros r Hr.
        destruct (Z.eq_dec r (Z.of_nat k)) as [-> | Hd]; [assumption |].
        apply Hall. lia.
Qed.

(** [placePiece] is the same scan followed by the assignment. *)

Lemma placePiece_from_landingRow (n : nat) (b : BoardT) (col player : Z) :
  placePiece_from n b col player
  = (row <- landingRow_from n b col ;;
     if row =? -1 then Returns (-1, b)
     else b' <- store b row col player ;; Returns (row, b')).
Proof.
  induction n as [| k IH]; [reflexivity |].
  cbn [placePiece_from landingRow_from].
  destruct (load b (Z.of_nat k) col) as [v | |]; cbn [bind]; try reflexivity.
  destruct (v =? CELL_EMPTY).
  - cbn [bind]. destruct (Z.eqb_spec (Z.of_nat k) (-1)); [lia | reflexivity].
  - apply IH.
Qed.

Lemma scanResult_cases (b : BoardT) (col n row : Z) :
  scanResult b col n row ->
  (row = -1 /\ forall r, 0 <= r < n -> cellAt b r col <> CELL_EMPTY)
  \/ (0 <= row < n /\ cellAt b row col = CELL_EMPTY
      /\ forall r, row < r < n -> cellAt b r col <> CELL_EMPTY).
Proof. intros [row' H1 H2 H3 | H]; [right | left]; auto. Qed.

Lemma placePiece_scan (b : BoardT) (col player : Z) :
  0 <= col < BOARD_COLS ->
  exists row, scanResult b col BOARD_ROWS row
    /\ placePiece b col player
       = Returns (row, if row =? -1 then b else setCell b row col player).
Proof.
  intros Hcol. unfold placePiece. rewrite placePiece_from_landingRow.
  destruct (landingRow_from_spec (Z.to_nat BOARD_ROWS) b col) as [row [Hrun Hres]];
    [unfold BOARD_ROWS; lia | assumption |].
  replace (Z.of_nat (Z.to_nat BOARD_ROWS)) with BOARD_ROWS in Hres by (unfold BOARD_ROWS; lia).
  exists row. split; [assumption |]. rewrite Hrun, bind_Returns.
  destruct (scanResult_cases _ _ _ _ Hres) as [[-> _] | [Hr _]]; [reflexivity |].
  destruct (Z.eqb_spec row (-1)); [lia |].
  rewrite store_inRange by (apply inRange_iff; lia). reflexivity.
Qed.

(** ** [checkDirection]: the two counting loops *)

Lemma holds_iff (b : BoardT) (p i j : Z) :
  holds b p i j = true <-> inRange i j = true /\ cellAt b i j = p.
Proof. unfold holds. rewrite andb_true_iff, Z.eqb_eq. tauto. Qed.

Lemma countWhile_add_run (b : BoardT) (p dRow dCol : Z) :
  -1 <= dRow <= 1 -> -1 <= dCol <= 1 -> dRow <> 0 \/ dCol <> 0 ->
  forall (fuel : nat) (i j count : Z),
    (inRange i j = true -> edgeDistance i j dRow dCol < Z.of_nat fuel) ->
    1 <= Z.of_nat fuel ->
    0 <= count -> count + Z.of_nat fuel < 2 ^ 63 ->
    exists n,
      0 <= n < Z.of_nat fuel
      /\ countWhile fuel b add64 i j dRow dCol p count = Returns (count + n)
      /\ (forall t, 0 <= t < n -> holds b p (i + t * dRow) (j + t * dCol) = true)
      /\ holds b p (i + n * dRow) (j + n * dCol) = false.
Proof.
  intros HdR HdC Hmove. induction fuel as [| f IH]; intros i j count Hedge Hfuel Hc Hbound.
  - simpl in Hfuel. lia.
  - cbn [countWhile]. fold (holds b p i j).
    destruct (holds b p i j) eqn:Hcell.
    + apply holds_iff in Hcell as Hcell'. destruct Hcell' as [Hin _].
      pose proof (Hedge Hin) as Hd. apply inRange_iff in Hin.
      unfold BOARD_ROWS, BOARD_COLS in Hin.
      rewrite (add64_small i dRow), (add64_small j dCol), (add64_small count 1) by lia.
      destruct (IH (i + dRow) (j + dCol) (count + 1)) as [n [Hn [Hrun [Hray Hstop]]]].
      * rewrite inRange_iff. unfold BOARD_ROWS, BOARD_COLS. intros Hin'.
        revert Hd. unfold edgeDistance, BOARD_ROWS, BOARD_COLS.
        split_eqb; lia.
      * revert Hd. unfold edgeDistance, BOARD_ROWS, BOARD_COLS.
        split_eqb; lia.
      * lia.
      * lia.
      * exists (n + 1). split; [lia |]. split; [rewrite Hrun; f_equal; lia |]. split.
        -- intros t Ht. destruct (Z.eq_dec t 0) as [-> | Hnz].
           ++ now rewrite !Z.mul_0_l, !Z.add_0_r.
           ++ specialize (Hray (t - 1) ltac:(lia)).
              replace (i + dRow + (t - 1) * dRow) with (i + t * dRow) in Hray by ring.
              replace (j + dCol + (t - 1) * dCol) with (j + t * dCol) in Hray by ring.
              exact Hray.
        -- replace (i + (n + 1) * dRow) with (i + dRow + n * dRow) by ring.
           replace (j + (n + 1) * dCol) with (j + dCol + n * dCol) by ring.
           exact Hstop.
    + exists 0. split; [lia |]. split; [f_equal; lia |]. split; [intros; lia |].
      now rewrite !Z.mul_0_l, !Z.add_0_r.
Qed.

Lemma countWhile_sub_as_add (b : BoardT) (fuel : nat) (i j dRow dCol p count : Z) :
  countWhile fuel b sub64 i j dRow dCol p count
  = countWhile fuel b add64 i j (- dRow) (- dCol) p count.
Proof.
  revert i j count. induction fuel as [| f IH]; intros i j count; [reflexivity |].
  cbn [countWhile]. rewrite IH, !sub64_as_add64. reflexivity.
Qed.

(** [checkDirection] returns one for the cell itself, plus the run of
    [player] cells ahead of it, plus the run behind it. *)

Lemma loopFuel_value : Z.of_nat loopFuel = 13.
Proof. reflexivity. Qed.

Lemma checkDirection_runs (b : BoardT) (row col dRow dCol p : Z) :
  inRange row col = true ->
  -1 <= dRow <= 1 -> -1 <= dCol <= 1 -> dRow <> 0 \/ dCol <> 0 ->
  exists ahead behind,
    0 <= ahead /\ 0 <= behind
    /\ checkDirection b row col dRow dCol p = Returns (1 + ahead + behind)
    /\ (forall s, 1 <= s <= ahead -> holds b p (row + s * dRow) (col + s * dCol) = true)
    /\ holds b p (row + (ahead + 1) * dRow) (col + (ahead + 1) * dCol) = false
    /\ (forall s, 1 <= s <= behind -> holds b p (row + - s * dRow) (col + - s * dCol) = true)
    /\ holds b p (row + - (behind + 1) * dRow) (col + - (behind + 1) * dCol) = false.
Proof.
  intros Hin HdR HdC Hmove. apply inRange_iff in Hin. unfold BOARD_ROWS, BOARD_COLS in Hin.
  unfold checkDirection.
  rewrite (add64_small row dRow), (add64_small col dCol),
    (sub64_small row dRow), (sub64_small col dCol) by lia.
  destruct (countWhile_add_run b p dRow dCol HdR HdC Hmove loopFuel
              (row + dRow) (col + dCol) 1) as [nf [Hnf [Hrunf [Hrayf Hstopf]]]].
  { rewrite inRange_iff, loopFuel_value. unfold edgeDistance, BOARD_ROWS, BOARD_COLS.
    intros Hin'. split_eqb; lia. }
  { rewrite loopFuel_value. lia. }
  { lia. }
  { rewrite loopFuel_value. lia. }
  rewrite Hrunf, bind_Returns, countWhile_sub_as_add.
  destruct (countWhile_add_run b p (- dRow) (- dCol) ltac:(lia) ltac:(lia) ltac:(lia) loopFuel
              (row - dRow) (col - dCol) (1 + nf)) as [nb [Hnb [Hrunb [Hrayb Hstopb]]]].
  { rewrite inRange_iff, loopFuel_value. unfold edgeDistance, BOARD_ROWS, BOARD_COLS.
    intros Hin'. split_eqb; lia. }
  { rewrite loopFuel_value. lia. }
  { lia. }
  { rewrite loopFuel_value in *. lia. }
  exists nf, nb. split; [lia |]. split; [lia |]. split; [exact Hrunb |].
  split; [| split; [| split]].
  - intros s Hs. specialize (Hrayf (s - 1) ltac:(lia)).
    replace (row + dRow + (s - 1) * dRow) with (row + s * dRow) in Hrayf by ring.
    replace (col + dCol + (s - 1) * dCol) with (col + s * dCol) in Hrayf by ring.
    exact Hrayf.
  - replace (row + (nf + 1) * dRow) with (row + dRow + nf * dRow) by ring.
    replace (col + (nf + 1) * dCol) with (col + dCol + nf * dCol) by ring.
    exact Hstopf.
  - intros s Hs. specialize (Hrayb (s - 1) ltac:(lia)).
    replace (row - dRow + (s - 1) * - dRow) with (row + - s * dRow) in Hrayb by ring.
    replace (col - dCol + (s - 1) * - dCol) with (col + - s * dCol) in Hrayb by ring.
    exact Hrayb.
  - replace (row + - (nb + 1) * dRow) with (row - dRow + nb * - dRow) by ring.
    replace (col + - (nb + 1) * dCol) with (col - dCol + nb * - dCol) by ring.
    exact Hstopb.
Qed.

(** Runs and windows on a line: with [P s] saying that the cell [s] steps
    from the centre qualifies, the two runs around a qualifying centre total
    three or more exactly when some window of four consecutive cells around
    the centre qualifies. *)

Lemma runs_cover_window (P : Z -> Prop) (ahead behind : Z) :
  0 <= ahead -> 0 <= behind -> P 0 ->
  (forall s, 1 <= s <= ahead -> P s) -> ~ P (ahead + 1) ->
  (forall s, 1 <= s <= behind -> P (- s)) -> ~ P (- (behind + 1)) ->
  (3 <= ahead + behind <-> exists k, 0 <= k <= 3 /\ forall t, 0 <= t <= 3 -> P (t - k)).
Proof.
  intros Ha Hb H0 Hfw Hfs Hbw Hbs. split.
  - intros Hsum. exists (Z.min behind 3). split; [lia |].
    intros t Ht.
    destruct (Z.compare_spec t (Z.min behind 3)) as [Heq | Hlt | Hgt].
    + replace (t - Z.min behind 3) with 0 by lia. exact H0.
    + replace (t - Z.min behind 3) with (- (Z.min behind 3 - t)) by lia.
      apply Hbw. lia.
    + apply Hfw. lia.
  - intros [k [Hk Hwin]].
    destruct (Z_lt_le_dec behind k) as [Hlt | Hge].
    + exfalso. apply Hbs.
      replace (- (behind + 1)) with ((k - behind - 1) - k) by lia.
      apply Hwin. lia.
    + destruct (Z_lt_le_dec (ahead + k) 3) as [Hlt' | Hge']; [| lia].
      exfalso. apply Hfs.
      replace (ahead + 1) with ((ahead + 1 + k) - k) by lia.
      apply Hwin. lia.
Qed.

Lemma onLineAlong_iff (b : BoardT) (p row col dRow dCol : Z) :
  onLineAlong b p row col dRow dCol = true
  <-> exists k, 0 <= k <= 3
        /\ forall t, 0 <= t <= 3 ->
             holds b p (row + (t - k) * dRow) (col + (t - k) * dCol) = true.
Proof.
  unfold onLineAlong, fourFrom. rewrite existsb_exists. split.
  - intros [k [Hk Hall]]. exists k. split; [simpl in Hk; lia |].
    rewrite forallb_forall in Hall. intros t Ht.
    specialize (Hall t ltac:(simpl; lia)).
    replace (row + (t - k) * dRow) with (row - k * dRow + t * dRow) by ring.
    replace (col + (t - k) * dCol) with (col - k * dCol + t * dCol) by ring.
    exact Hall.
  - intros [k [Hk Hall]]. exists k. split; [simpl; lia |].
    rewrite forallb_forall. intros t Ht.
    specialize (Hall t ltac:(simpl in Ht; lia)).
    replace (row + (t - k) * dRow) with (row - k * dRow + t * dRow) in Hall by ring.
    replace (col + (t - k) * dCol) with (col - k * dCol + t * dCol) in Hall by ring.
    exact Hall.
Qed.

(** The count of [checkDirection] reaches [WINNING_COUNT] exactly when the
    cell is one of four in a row along that direction. *)

Lemma checkDirection_four (b : BoardT) (row col dRow dCol : Z) :
  inRange row col = true ->
  -1 <= dRow <= 1 -> -1 <= dCol <= 1 -> dRow <> 0 \/ dCol <> 0 ->
  exists count,
    checkDirection b row col dRow dCol (cellAt b row col) = Returns count
    /\ (count >=? WINNING_COUNT) = onLineAlong b (cellAt b row col) row col dRow dCol.
Proof.
  intros Hin HdR HdC Hmove.
  destruct (checkDirection_runs b row col dRow dCol (cellAt b row col) Hin HdR HdC Hmove)
    as [nf [nb [Hnf [Hnb [Hrun [Hfw [Hfs [Hbw Hbs]]]]]]]].
  exists (1 + nf + nb). split; [exact Hrun |].
  pose proof (runs_cover_window
    (fun s => holds b (cellAt b row col) (row + s * dRow) (col + s * dCol) = true)
    nf nb Hnf Hnb) as Hwin. cbv beta in Hwin.
  specialize (Hwin ltac:(rewrite !Z.mul_0_l, !Z.add_0_r; apply holds_iff; auto)
                   Hfw ltac:(rewrite Hfs; discriminate)
                   Hbw ltac:(rewrite Hbs; discriminate)).
  rewrite <- onLineAlong_iff in Hwin.
  unfold WINNING_COUNT.
  destruct (onLineAlong b (cellAt b row col) row col dRow dCol).
  - apply Z.geb_le. destruct Hwin as [_ Hw]. specialize (Hw eq_refl). lia.
  - destruct (Z.geb_spec (1 + nf + nb) 4) as [Hge | Hlt]; [| reflexivity].
    destruct Hwin as [Hw _]. specialize (Hw ltac:(lia)). discriminate.
Qed.

(** [checkForWin] on a cell of the board: it returns, with the occupant of
    the cell when the cell is one of four in a row, and 0 otherwise. *)

Lemma checkForWin_returns (b : BoardT) (row col : Z) :
  inRange row col = true ->
  checkForWin b row col
  = Returns (if onLineOfFour b (cellAt b row col) row col then cellAt b row col else 0).
Proof.
  intros Hin. unfold checkForWin. rewrite load_inRange, bind_Returns by assumption.
  destruct (checkDirection_four b row col 0 1 Hin) as [n1 [-> E1]]; try lia.
  destruct (checkDirection_four b row col 1 0 Hin) as [n2 [-> E2]]; try lia.
  destruct (checkDirection_four b row col 1 1 Hin) as [n3 [-> E3]]; try lia.
  destruct (checkDirection_four b row col (-1) 1 Hin) as [n4 [-> E4]]; try lia.
  rewrite !bind_Returns, E1, E2, E3, E4.
  unfold onLineOfFour, directions. cbn [existsb fst snd].
  destruct (onLineAlong b (cellAt b row col) row col 0 1); [reflexivity |].
  destruct (onLineAlong b (cellAt b row col) row col 1 0); [reflexivity |].
  destruct (onLineAlong b (cellAt b row col) row col 1 1); [reflexivity |].
  destruct (onLineAlong b (cellAt b row col) row col (-1) 1); reflexivity.
Qed.

(** ** [wouldWin]: the probe *)

Lemma scanResult_empty_cell (b : BoardT) (col n row : Z) :
  scanResult b col n row -> row <> -1 ->
  0 <= row < n /\ cellAt b row col = CELL_EMPTY.
Proof.
  intros H Hne. destruct (scanResult_cases _ _ _ _ H) as [[-> _] | [Hr [He _]]]; [lia | auto].
Qed.

Lemma landingRow_returns (b : BoardT) (col : Z) :
  0 <= col < BOARD_COLS ->
  exists row,
    landingRow_from (Z.to_nat BOARD_ROWS) b col = Returns row
    /\ scanResult b col BOARD_ROWS row.
Proof.
  intros Hcol.
  destruct (landingRow_from_spec (Z.to_nat BOARD_ROWS) b col) as [row [Hrun Hres]];
    [unfold BOARD_ROWS; lia | assumption |].
  replace (Z.of_nat (Z.to_nat BOARD_ROWS)) with BOARD_ROWS in Hres by (unfold BOARD_ROWS; lia).
  eauto.
Qed.

(** The probe returns, its answer is the win test on the board with the piece
    dropped, and the board it leaves is the board it found. *)

Lemma wouldWin_returns (b : BoardT) (col player : Z) :
  0 <= col < BOARD_COLS ->
  exists row,
    scanResult b col BOARD_ROWS row
    /\ wouldWin b col player
       = Returns (if row =? -1 then false
                  else (if onLineOfFour (setCell b row col player) player row col
                        then player else 0) =? player,
                  b).
Proof.
  intros Hcol. destruct (landingRow_returns b col Hcol) as [row [Hrun Hres]].
  exists row. split; [assumption |]. unfold wouldWin. rewrite Hrun, bind_Returns.
  destruct (Z.eqb_spec row (-1)) as [-> | Hne]; [reflexivity |].
  destruct (scanResult_empty_cell _ _ _ _ Hres Hne) as [Hr He].
  assert (inRange row col = true) as Hin by (apply inRange_iff; auto).
  rewrite store_inRange, bind_Returns by assumption.
  rewrite checkForWin_returns, bind_Returns by assumption.
  rewrite cellAt_setCell_same by assumption.
  rewrite store_inRange, bind_Returns by assumption.
  rewrite setCell_setCell by assumption.
  unfold CELL_EMPTY in *. rewrite <- He at 2.
  rewrite setCell_same_value by assumption. reflexivity.
Qed.

Lemma wouldWin_wouldComplete (b : BoardT) (col player : Z) :
  0 <= col < BOARD_COLS -> player <> 0 ->
  wouldWin b col player = Returns (wouldComplete b col player, b).
Proof.
  intros Hcol Hp. destruct (wouldWin_returns b col player Hcol) as [row [Hres ->]].
  unfold wouldComplete, placePiece. rewrite placePiece_from_landingRow.
  destruct (landingRow_returns b col Hcol) as [row' [Hrun Hres']]. rewrite Hrun, bind_Returns.
  assert (row' = row) as ->.
  { destruct (scanResult_cases _ _ _ _ Hres) as [[-> Ha] | [Hr [He Ha]]];
    destruct (scanResult_cases _ _ _ _ Hres') as [[-> Ha'] | [Hr' [He' Ha']]]; try reflexivity.
    - exfalso. apply (Ha row'); assumption.
    - exfalso. apply (Ha' row); assumption.
    - destruct (Z.lt_trichotomy row row') as [Hlt | [Heq | Hgt]]; [| lia |].
      + exfalso. apply (Ha row'); [lia | assumption].
      + exfalso. apply (Ha' row); [lia | assumption]. }
  destruct (Z.eqb_spec row (-1)) as [-> | Hne]; [reflexivity |].
  destruct (scanResult_empty_cell _ _ _ _ Hres Hne) as [Hr He].
  rewrite store_inRange, bind_Returns by (apply inRange_iff; auto).
  destruct (Z.eqb_spec row (-1)); [contradiction |]. cbn [negb andb].
  destruct (onLineOfFour (setCell b row col player) player row col).
  - now rewrite Z.eqb_refl.
  - destruct (Z.eqb_spec 0 player); [congruence | reflexivity].
Qed.

(** ** [getValidMoves] and [findWinningMove] *)

Lemma getValidMoves_from_filter (cols : list Z) (b : BoardT) :
  getValidMoves_from cols b = filter (isValidMove b) cols.
Proof.
  induction cols as [| c rest IH]; [reflexivity |].
  cbn [getValidMoves_from filter]. rewrite IH. reflexivity.
Qed.

Lemma In_upto (n x : Z) : In x (upto n) <-> 0 <= x < n.
Proof.
  unfold upto. rewrite in_map_iff. split.
  - intros [k [<- Hk]]. apply in_seq in Hk. lia.
  - intros Hx. exists (Z.to_nat x). split; [lia |]. apply in_seq. lia.
Qed.

Lemma In_getValidMoves (b : BoardT) (c : Z) :
  In c (getValidMoves b) <-> isValidMove b c = true.
Proof.
  unfold getValidMoves. rewrite getValidMoves_from_filter, filter_In, In_upto.
  split; [tauto |]. intros H. split; [| assumption].
  unfold isValidMove in H. rewrite !andb_true_iff, Z.geb_le, Z.ltb_lt in H. lia.
Qed.

Lemma isValidMove_range (b : BoardT) (c : Z) :
  isValidMove b c = true -> 0 <= c < BOARD_COLS /\ cellAt b 0 c = CELL_EMPTY.
Proof.
  unfold isValidMove. rewrite !andb_true_iff, Z.geb_le, Z.ltb_lt, Z.eqb_eq. lia.
Qed.

(** Over columns of the board, [findWinningMove] is the search for the first
    column in which the side would complete four, and the board comes back
    as it was. *)

Lemma findWinningMove_in_find (moves : list Z) (b : BoardT) (p : Z) :
  p <> 0 ->
  (forall c, In c moves -> 0 <= c < BOARD_COLS) ->
  findWinningMove_in moves b p
  = Returns (match find (fun c => wouldComplete b c p) moves with
             | Some c => c
             | None => -1
             end, b).
Proof.
  intros Hp. induction moves as [| c rest IH]; intros Hall; [reflexivity |].
  cbn [findWinningMove_in find].
  rewrite wouldWin_wouldComplete by (auto using in_eq). rewrite bind_Returns.
  destruct (wouldComplete b c p); [reflexivity |].
  apply IH. intros c' Hc'. apply Hall. now right.
Qed.

Lemma findWinningMove_find (b : BoardT) (p : Z) :
  p <> 0 ->
  findWinningMove b p
  = Returns (match find (fun c => wouldComplete b c p) (getValidMoves b) with
             | Some c => c
             | None => -1
             end, b).
Proof.
  intros Hp. apply findWinningMove_in_find; [assumption |].
  intros c Hc. apply In_getValidMoves, isValidMove_range in Hc. tauto.
Qed.

(** A search through the columns that pass [f], left to right, stops at the
    least column that passes both tests. *)

Lemma find_filter_from (f g : Z -> bool) (k s : nat) (c : Z) :
  find g (filter f (map Z.of_nat (seq s k))) = Some c ->
  Z.of_nat s <= c < Z.of_nat (s + k) /\ f c = true /\ g c = true
  /\ forall c', Z.of_nat s <= c' < c -> ~ (f c' = true /\ g c' = true).
Proof.
  revert s. induction k as [| k IH]; intros s H; [discriminate |].
  cbn [seq map filter] in H.
  destruct (f (Z.of_nat s)) eqn:Hf.
  - cbn [find] in H. destruct (g (Z.of_nat s)) eqn:Hg.
    + injection H as <-. repeat split; auto; lia.
    + destruct (IH (S s) H) as [Hr [Hfc [Hgc Hleast]]].
      repeat split; auto; try lia.
      intros c' Hc' [Hf' Hg'].
      destruct (Z.eq_dec c' (Z.of_nat s)) as [-> | Hd]; [congruence |].
      apply (Hleast c'); [lia | auto].
  - destruct (IH (S s) H) as [Hr [Hfc [Hgc Hleast]]].
    repeat split; auto; try lia.
    intros c' Hc' [Hf' Hg'].
    destruct (Z.eq_dec c' (Z.of_nat s)) as [-> | Hd]; [congruence |].
    apply (Hleast c'); [lia | auto].
Qed.

Lemma find_valid_leftmost (b : BoardT) (p c : Z) :
  find (fun c => wouldComplete b c p) (getValidMoves b) = Some c ->
  leftmostWinning b p c.
Proof.
  unfold getValidMoves, upto. rewrite getValidMoves_from_filter. intros H.
  apply find_filter_from in H. destruct H as [Hr [Hf [Hg Hleast]]].
  split; [split; assumption |].
  intros c' Hc' [Hv Hw].
  destruct (isValidMove_range _ _ Hv) as [Hrange _].
  apply (Hleast c'); [simpl; lia | auto].
Qed.

Lemma find_valid_none (b : BoardT) (p : Z) :
  find (fun c => wouldComplete b c p) (getValidMoves b) = None ->
  noWinning b p.
Proof.
  intros H c [Hv Hw].
  pose proof (find_none _ _ H c) as Hn. cbv beta in Hn.
  rewrite Hn in Hw; [discriminate |]. now apply In_getValidMoves.
Qed.

Lemma leftmostWinning_unique (b : BoardT) (p c c' : Z) :
  leftmostWinning b p c -> leftmostWinning b p c' -> c = c'.
Proof.
  intros [Hw Hl] [Hw' Hl'].
  destruct (Z.lt_trichotomy c c') as [Hlt | [Heq | Hgt]]; [| assumption |].
  - exfalso. apply (Hl' c); assumption.
  - exfalso. apply (Hl c'); assumption.
Qed.

Lemma getValidMoves_nil (b : BoardT) :
  getValidMoves b = [] <-> forall c, isValidMove b c = false.
Proof.
  split.
  - intros H c. destruct (isValidMove b c) eqn:Hv; [| reflexivity].
    apply In_getValidMoves in Hv. rewrite H in Hv. contradiction.
  - intros H. destruct (getValidMoves b) as [| c rest] eqn:Hm; [reflexivity |].
    assert (In c (getValidMoves b)) as Hin by (rewrite Hm; apply in_eq).
    apply In_getValidMoves in Hin. rewrite H in Hin. discriminate.
Qed.

Section RandomSourceFacts.

Variable rand_Intn : Z -> Z.
Hypothesis rand_Intn_range : forall n, 0 < n -> 0 <= rand_Intn n < n.

Lemma findRandomValidMove_nil (b : BoardT) :
  getValidMoves b = [] -> findRandomValidMove rand_Intn b = Returns 0.
Proof. intros H. unfold findRandomValidMove. rewrite H. reflexivity. Qed.

Lemma findRandomValidMove_valid (b : BoardT) :
  getValidMoves b <> [] ->
  exists c, findRandomValidMove rand_Intn b = Returns c /\ isValidMove b c = true.
Proof.
  intros Hne. unfold findRandomValidMove.
  destruct (getValidMoves b) as [| m rest] eqn:Hm; [contradiction |].
  set (moves := m :: rest) in *.
  assert (0 < Z.of_nat (List.length moves)) as Hlen by (subst moves; simpl; lia).
  destruct (Z.eqb_spec (Z.of_nat (List.length moves)) 0) as [H0 | _]; [lia |].
  pose proof (rand_Intn_range _ Hlen) as Hk.
  unfold sliceAt.
  destruct (Z.geb_spec (rand_Intn (Z.of_nat (List.length moves))) 0) as [_ | Hneg]; [| lia].
  destruct (Z.ltb_spec (rand_Intn (Z.of_nat (List.length moves)))
              (Z.of_nat (List.length moves))) as [_ | Hbig]; [| lia].
  cbn [andb]. eexists. split; [reflexivity |].
  apply In_getValidMoves. rewrite Hm. fold moves. apply nth_In. lia.
Qed.

(** [getBestMove] returns, leaves the board as it found it, and its column
    follows the four rules in their order. *)

Lemma getBestMove_rules (b : BoardT) :
  exists c,
    getBestMove rand_Intn b = Returns (c, b)
    /\ (leftmostWinning b PLAYER_2 c
        \/ (noWinning b PLAYER_2 /\ leftmostWinning b PLAYER_1 c)
        \/ (noWinning b PLAYER_2 /\ noWinning b PLAYER_1
            /\ isValidMove b 3 = true /\ c = 3)
        \/ (noWinning b PLAYER_2 /\ noWinning b PLAYER_1
            /\ isValidMove b 3 = false /\ isValidMove b c = true)
        \/ ((forall c', isValidMove b c' = false) /\ c = 0)).
Proof.
  unfold getBestMove.
  rewrite (findWinningMove_find b PLAYER_2) by discriminate. rewrite bind_Returns.
  destruct (find (fun c => wouldComplete b c PLAYER_2) (getValidMoves b)) as [c2 |] eqn:F2.
  { pose proof (find_valid_leftmost _ _ _ F2) as Hl.
    destruct Hl as [[Hv Hw] Hleast].
    destruct (isValidMove_range _ _ Hv) as [Hr _].
    destruct (Z.eqb_spec c2 (-1)); [lia |]. cbn [negb].
    exists c2. split; [reflexivity |]. left. repeat split; assumption. }
  pose proof (find_valid_none _ _ F2) as Hno2.
  rewrite Z.eqb_refl. cbn [negb].
  rewrite (findWinningMove_find b PLAYER_1) by discriminate. rewrite bind_Returns.
  destruct (find (fun c => wouldComplete b c PLAYER_1) (getValidMoves b)) as [c1 |] eqn:F1.
  { pose proof (find_valid_leftmost _ _ _ F1) as Hl.
    destruct Hl as [[Hv Hw] Hleast].
    destruct (isValidMove_range _ _ Hv) as [Hr _].
    destruct (Z.eqb_spec c1 (-1)); [lia |]. cbn [negb].
    exists c1. split; [reflexivity |]. right. left. repeat split; assumption. }
  pose proof (find_valid_none _ _ F1) as Hno1.
  rewrite Z.eqb_refl. cbn [negb].
  destruct (isValidMove b 3) eqn:H3.
  { exists 3. split; [reflexivity |]. right. right. left. auto. }
  destruct (getValidMoves b) as [| m rest] eqn:Hm.
  - rewrite findRandomValidMove_nil by assumption. rewrite bind_Returns.
    exists 0. split; [reflexivity |]. do 4 right. split; [| reflexivity].
    now apply getValidMoves_nil.
  - destruct (findRandomValidMove_valid b) as [c [Hrun Hv]]; [rewrite Hm; discriminate |].
    rewrite Hrun, bind_Returns. exists c. split; [reflexivity |].
    right. right. right. left. auto.
Qed.

End RandomSourceFacts.

(** ** The win test *)

(** C4.  On a cell of the board occupied by side [p], [checkForWin] returns
    [p] exactly when the cell is one of four cells in a row, all of [p],
    horizontally, vertically or along one of the two diagonals, and returns 0
    otherwise; along each of the four orientations [checkDirection] counts 1
    for the cell itself plus the run of [p] ahead of it plus the run of [p]
    behind it, each run ending at the edge of the board or at the first cell
    that does not hold [p]. *)
Theorem checkForWin_line_of_four (b : BoardT) (row col p : Z) :
  inRange row col = true -> cellAt b row col = p -> p <> CELL_EMPTY ->
  (checkForWin b row col = Returns p <-> onLineOfFour b p row col = true)
  /\ (onLineOfFour b p row col = false -> checkForWin b row col = Returns 0)
  /\ (forall dRow dCol, In (dRow, dCol) directions ->
        exists ahead behind,
          0 <= ahead /\ 0 <= behind
          /\ checkDirection b row col dRow dCol p = Returns (1 + ahead + behind)
          /\ (forall s, 1 <= s <= ahead ->
                holds b p (row + s * dRow) (col + s * dCol) = true)
          /\ holds b p (row + (ahead + 1) * dRow) (col + (ahead + 1) * dCol) = false
          /\ (forall s, 1 <= s <= behind ->
                holds b p (row + - s * dRow) (col + - s * dCol) = true)
          /\ holds b p (row + - (behind + 1) * dRow) (col + - (behind + 1) * dCol) = false).
Proof.
  intros Hin Hp Hocc. rewrite checkForWin_returns by assumption. rewrite Hp.
  split; [| split].
  - destruct (onLineOfFour b p row col); split; intros H; try reflexivity; try discriminate.
    injection H as H. unfold CELL_EMPTY in Hocc. congruence.
  - intros ->. reflexivity.
  - intros dRow dCol Hd. apply checkDirection_runs; [assumption | | |];
      simpl in Hd; repeat (destruct Hd as [Hd | Hd]; [injection Hd as <- <-; lia |]);
      contradiction.
Qed.

Lemma checkForWin_line_of_four_witness :
  inRange 0 3 = true /\ cellAt boardVerticalTop 0 3 = 1 /\ 1 <> CELL_EMPTY
  /\ checkForWin boardVerticalTop 0 3 = Returns 1.
Proof.
  split; [reflexivity |]. split; [reflexivity |]. split; [discriminate |].
  apply (checkForWin_line_of_four boardVerticalTop 0 3 1);
    [reflexivity | reflexivity | discriminate | reflexivity].
Defined.

(** Lines that touch the edge of the board: a vertical four that ends at the
    top row, and diagonal fours from a corner. *)

Example checkForWin_vertical_at_top :
  checkForWin boardVerticalTop 0 3 = Returns 1
  /\ onLineOfFour boardVerticalTop 1 0 3 = true.
Proof. split; reflexivity. Qed.

Example checkForWin_diagonal_at_corner :
  checkForWin boardCornerDiagonal 5 0 = Returns 1
  /\ checkForWin boardCornerDiagonal 2 3 = Returns 1
  /\ checkForWin boardTopRightDiagonal 0 6 = Returns 2
  /\ checkForWin boardTopRightDiagonal 3 3 = Returns 2.
Proof. repeat split; reflexivity. Qed.

Example checkForWin_no_line :
  checkForWin boardCornerDiagonal 5 1 = Returns 0
  /\ checkForWin boardVerticalTop 4 4 = Returns 0.
Proof. split; reflexivity. Qed.

(** ** Placement *)

(** C5.  For a column of the board and any side: if the column has an empty
    cell, [placePiece] returns the greatest row index of the column holding 0,
    sets that cell to the side and changes no other cell; if the six cells of
    the column are occupied, it returns -1 and the board is the one it was. *)
Theorem placePiece_lowest_empty (b : BoardT) (col player : Z) :
  0 <= col < BOARD_COLS ->
  ((exists r, 0 <= r < BOARD_ROWS /\ cellAt b r col = CELL_EMPTY) ->
     exists row b',
       placePiece b col player = Returns (row, b')
       /\ 0 <= row < BOARD_ROWS
       /\ cellAt b row col = CELL_EMPTY
       /\ (forall r, row < r < BOARD_ROWS -> cellAt b r col <> CELL_EMPTY)
       /\ cellAt b' row col = player
       /\ (forall i j, inRange i j = true -> (i, j) <> (row, col) ->
             cellAt b' i j = cellAt b i j))
  /\ ((forall r, 0 <= r < BOARD_ROWS -> cellAt b r col <> CELL_EMPTY) ->
        placePiece b col player = Returns (-1, b)).
Proof.
  intros Hcol. destruct (placePiece_scan b col player Hcol) as [row [Hres Hrun]].
  destruct (scanResult_cases _ _ _ _ Hres) as [[-> Hall] | [Hr [He Hab]]].
  - split.
    + intros [r [Hr He]]. exfalso. apply (Hall r); assumption.
    + intros _. exact Hrun.
  - destruct (Z.eqb_spec row (-1)) as [-> | Hne]; [lia |].
    assert (inRange row col = true) as Hin by (apply inRange_iff; auto).
    split.
    + intros _. exists row, (setCell b row col player).
      repeat split; try assumption; try lia.
      * now apply cellAt_setCell_same.
      * intros i j _ Hd. now apply cellAt_setCell_other.
    + intros Hall. exfalso. apply (Hall row); assumption.
Qed.

Lemma placePiece_lowest_empty_witness :
  0 <= 3 < BOARD_COLS
  /\ (exists r, 0 <= r < BOARD_ROWS /\ cellAt emptyBoard r 3 = CELL_EMPTY)
  /\ exists row b', placePiece emptyBoard 3 1 = Returns (row, b') /\ cellAt b' row 3 = 1.
Proof.
  assert (0 <= 3 < BOARD_COLS) as Hcol by (unfold BOARD_COLS; lia).
  assert (exists r, 0 <= r < BOARD_ROWS /\ cellAt emptyBoard r 3 = CELL_EMPTY) as Hroom
    by (exists 5; split; [unfold BOARD_ROWS; lia | reflexivity]).
  split; [exact Hcol |]. split; [exact Hroom |].
  destruct (proj1 (placePiece_lowest_empty emptyBoard 3 1 Hcol) Hroom)
    as [row [b' [Hrun [_ [_ [_ [Hset _]]]]]]].
  exists row, b'. split; assumption.
Defined.

Example placePiece_full_column :
  placePiece boardVerticalTop 3 2 = Returns (-1, boardVerticalTop).
Proof. reflexivity. Qed.

(** ** Gravity *)

Lemma gravity_column_full (b : BoardT) (col : Z) :
  gravity b -> 0 <= col < BOARD_COLS -> cellAt b 0 col <> CELL_EMPTY ->
  forall r, 0 <= r < BOARD_ROWS -> cellAt b r col <> CELL_EMPTY.
Proof.
  intros Hg Hcol Htop r Hr.
  assert (forall n : nat, Z.of_nat n < BOARD_ROWS -> cellAt b (Z.of_nat n) col <> CELL_EMPTY) as H.
  { induction n as [| n IH]; intros Hn; [exact Htop |].
    replace (Z.of_nat (S n)) with (Z.of_nat n + 1) by lia.
    apply Hg; [lia | assumption | apply IH; lia]. }
  replace r with (Z.of_nat (Z.to_nat r)) by lia. apply H. lia.
Qed.

Lemma gravityb_iff (b : BoardT) : gravityb b = true <-> gravity b.
Proof.
  unfold gravityb, gravity. rewrite forallb_forall. split.
  - intros H r col Hr Hcol Hocc.
    specialize (H col ltac:(apply In_upto; assumption)).
    rewrite forallb_forall in H. specialize (H r ltac:(apply In_upto; assumption)).
    apply orb_true_iff in H. destruct H as [H | H].
    + apply Z.eqb_eq in H. contradiction.
    + apply negb_true_iff, Z.eqb_neq in H. exact H.
  - intros H col Hcol. apply In_upto in Hcol.
    rewrite forallb_forall. intros r Hr. apply In_upto in Hr.
    destruct (Z.eqb_spec (cellAt b r col) CELL_EMPTY) as [He | Hne]; [reflexivity |].
    cbn [orb]. apply negb_true_iff, Z.eqb_neq. now apply H.
Qed.

Lemma placePiece_keeps_gravity (b : BoardT) (col side row : Z) (b' : BoardT) :
  gravity b -> 0 <= col < BOARD_COLS ->
  placePiece b col side = Returns (row, b') -> gravity b'.
Proof.
  intros Hg Hcol Hrun.
  destruct (placePiece_scan b col side Hcol) as [row' [Hres Hrun']].
  rewrite Hrun in Hrun'. injection Hrun' as Hrow Hb. subst row' b'.
  destruct (scanResult_cases _ _ _ _ Hres) as [[-> Hall] | [Hr [He Hab]]]; [exact Hg |].
  destruct (Z.eqb_spec row (-1)) as [-> | _]; [lia |].
  assert (inRange row col = true) as Hin by (apply inRange_iff; auto).
  intros r c Hr' Hc. rewrite !cellAt_setCell by assumption.
  destruct (Z.eqb_spec c col) as [-> | Hcne]; rewrite ?andb_false_r; [| apply Hg; assumption].
  rewrite !andb_true_r.
  destruct (Z.eqb_spec r row) as [-> | Hrne].
  - intros _. destruct (Z.eqb_spec (row + 1) row); [lia |]. apply Hab. lia.
  - intros Hocc. destruct (Z.eqb_spec (r + 1) row) as [<- | _].
    + exfalso. apply (Hg r col Hr' Hc Hocc). exact He.
    + now apply Hg.
Qed.

Lemma reachable_gravity (b : BoardT) : reachable b -> gravity b.
Proof.
  intros Hreach. induction Hreach as [| b col side row b' _ IH Hcol _ Hrun _].
  - apply gravityb_iff. reflexivity.
  - eapply placePiece_keeps_gravity; eassumption.
Qed.

(** On a board that satisfies the invariant, a column is a valid move
    exactly when it is a column of the board with an empty cell. *)

Lemma isValidMove_room (b : BoardT) (c : Z) :
  gravity b ->
  (isValidMove b c = true
   <-> 0 <= c < BOARD_COLS /\ exists r, 0 <= r < BOARD_ROWS /\ cellAt b r c = CELL_EMPTY).
Proof.
  intros Hg. split.
  - intros Hv. apply isValidMove_range in Hv. destruct Hv as [Hc Htop].
    split; [exact Hc |]. exists 0. split; [unfold BOARD_ROWS; lia | exact Htop].
  - intros [Hc [r [Hr He]]]. unfold isValidMove.
    destruct (Z.geb_spec c 0); [| lia]. destruct (Z.ltb_spec c BOARD_COLS); [| lia].
    cbn [andb]. apply Z.eqb_eq.
    destruct (Z.eq_dec (cellAt b 0 c) CELL_EMPTY) as [Htop | Htop]; [exact Htop |].
    exfalso. exact (gravity_column_full b c Hg Hc Htop r Hr He).
Qed.

(** C8.  [placePiece] preserves the gravity invariant (in every column the
    occupied cells are a run from the bottom row up, without a gap), and so
    the invariant holds on every board reached from the empty board by legal
    moves. *)
Theorem gravity_invariant :
  (forall b col side row b',
      gravity b -> 0 <= col < BOARD_COLS ->
      placePiece b col side = Returns (row, b') -> row <> -1 ->
      gravity b')
  /\ (forall b, reachable b -> gravity b).
Proof.
  split.
  - intros b col side row b' Hg Hcol Hrun _. eapply placePiece_keeps_gravity; eassumption.
  - exact reachable_gravity.
Qed.

Lemma gravity_invariant_witness :
  (gravity emptyBoard /\ 0 <= 3 < BOARD_COLS
   /\ placePiece emptyBoard 3 1 = Returns (5, setCell emptyBoard 5 3 1) /\ 5 <> -1
   /\ gravity (setCell emptyBoard 5 3 1))
  /\ (reachable (setCell emptyBoard 5 3 1) /\ gravity (setCell emptyBoard 5 3 1)).
Proof.
  assert (gravity emptyBoard) as Hg by (apply gravityb_iff; reflexivity).
  assert (0 <= 3 < BOARD_COLS) as Hcol by (unfold BOARD_COLS; lia).
  assert (reachable (setCell emptyBoard 5 3 1)) as Hreach.
  { apply (reachable_move emptyBoard 3 1 5); [constructor | exact Hcol | now left | reflexivity | lia]. }
  split.
  - split; [exact Hg |]. split; [exact Hcol |]. split; [reflexivity |]. split; [lia |].
    exact (proj1 gravity_invariant emptyBoard 3 1 5 _ Hg Hcol eq_refl ltac:(lia)).
  - split; [exact Hreach |]. exact (proj2 gravity_invariant _ Hreach).
Defined.

Example gravity_after_play :
  reachable (setCell (setCell emptyBoard 5 3 1) 4 3 2)
  /\ gravityb (setCell (setCell emptyBoard 5 3 1) 4 3 2) = true.
Proof.
  split; [| reflexivity].
  apply (reachable_move (setCell emptyBoard 5 3 1) 3 2 4);
    [| unfold BOARD_COLS; lia | now right | reflexivity | lia].
  apply (reachable_move emptyBoard 3 1 5);
    [constructor | unfold BOARD_COLS; lia | now left | reflexivity | lia].
Qed.

(** ** The automated player *)

Lemma wouldWin_outside (b : BoardT) (col player : Z) :
  ~ (0 <= col < BOARD_COLS) -> wouldWin b col player = IndexPanic.
Proof.
  intros Hcol. unfold wouldWin.
  replace (Z.to_nat BOARD_ROWS) with 6%nat by reflexivity. cbn [landingRow_from].
  rewrite load_outside; [reflexivity |].
  apply inRange_false_iff. intros [_ H]. contradiction.
Qed.

Lemma firstIndex_range : forall n, 0 < n -> 0 <= firstIndex n < n.
Proof. intros n Hn. unfold firstIndex. lia. Qed.

Section AutomatedPlayer.

Variable rand_Intn : Z -> Z.
Hypothesis rand_Intn_range : forall n, 0 < n -> 0 <= rand_Intn n < n.

(** C7.  [wouldWin] leaves the board exactly as it was before the call,
    whatever the column of the board and the side: the cell it fills is
    emptied again before it returns.  (For a column outside the board it
    panics at its first read, before any write.)  So a whole call of
    [getBestMove] returns the board it was given. *)
Theorem probes_restore_board (b : BoardT) :
  (forall col player, 0 <= col < BOARD_COLS ->
     exists w, wouldWin b col player = Returns (w, b))
  /\ (forall col player, ~ (0 <= col < BOARD_COLS) -> wouldWin b col player = IndexPanic)
  /\ (forall col player w b', wouldWin b col player = Returns (w, b') -> b' = b)
  /\ (forall player, player = PLAYER_1 \/ player = PLAYER_2 ->
        exists c, findWinningMove b player = Returns (c, b))
  /\ (exists c, getBestMove rand_Intn b = Returns (c, b)).
Proof.
  split; [| split; [| split; [| split]]].
  - intros col player Hcol.
    destruct (wouldWin_returns b col player Hcol) as [row [_ Hrun]]. eauto.
  - intros col player. apply wouldWin_outside.
  - intros col player w b' Hrun.
    destruct (Z_le_dec 0 col) as [Hlo |]; [destruct (Z_lt_dec col BOARD_COLS) as [Hhi |] |].
    + destruct (wouldWin_returns b col player (conj Hlo Hhi)) as [row [_ Hrun']].
      rewrite Hrun in Hrun'. now injection Hrun' as _ ->.
    + rewrite wouldWin_outside in Hrun by lia. discriminate.
    + rewrite wouldWin_outside in Hrun by lia. discriminate.
  - intros player Hp. rewrite findWinningMove_find; [eauto |].
    destruct Hp as [-> | ->]; discriminate.
  - destruct (getBestMove_rules rand_Intn rand_Intn_range b) as [c [Hrun _]]. eauto.
Qed.

(** C6.  [getBestMove] follows the four rules in their order: it returns the
    leftmost column with room in which side 2 completes four; failing that,
    the leftmost column with room in which side 1 would complete four;
    failing that, column 3 if it has room; failing that, a column with room
    (and 0 when no column has room).  In particular, when column 2 is the
    leftmost column in which side 2 wins and side 1 would win in column 5, it
    returns 2.  A column has room when [isValidMove] accepts it, which on a
    board with the gravity invariant says that the column has an empty
    cell. *)
Theorem getBestMove_priority_order (b : BoardT) :
  (exists c,
     getBestMove rand_Intn b = Returns (c, b)
     /\ (leftmostWinning b PLAYER_2 c
         \/ (noWinning b PLAYER_2 /\ leftmostWinning b PLAYER_1 c)
         \/ (noWinning b PLAYER_2 /\ noWinning b PLAYER_1
             /\ isValidMove b 3 = true /\ c = 3)
         \/ (noWinning b PLAYER_2 /\ noWinning b PLAYER_1
             /\ isValidMove b 3 = false /\ isValidMove b c = true)
         \/ ((forall c', isValidMove b c' = false) /\ c = 0)))
  /\ (leftmostWinning b PLAYER_2 2 -> winningColumn b PLAYER_1 5 ->
        getBestMove rand_Intn b = Returns (2, b))
  /\ (gravity b -> forall c,
        isValidMove b c = true
        <-> 0 <= c < BOARD_COLS
            /\ exists r, 0 <= r < BOARD_ROWS /\ cellAt b r c = CELL_EMPTY).
Proof.
  pose proof (getBestMove_rules rand_Intn rand_Intn_range b) as Hrules.
  split; [exact Hrules |].
  split; [| intros Hg c; now apply isValidMove_room].
  intros Hl2 Hw1. destruct Hrules as [c [Hrun Hcases]]. rewrite Hrun.
  destruct Hl2 as [Hw2 Hleast].
  destruct Hcases as [Hl | [[Hno _] | [[Hno _] | [[Hno _] | [Hnone _]]]]].
  - rewrite (leftmostWinning_unique b PLAYER_2 c 2 Hl (conj Hw2 Hleast)). reflexivity.
  - exfalso. exact (Hno 2 Hw2).
  - exfalso. exact (Hno 2 Hw2).
  - exfalso. exact (Hno 2 Hw2).
  - exfalso. destruct Hw2 as [Hv _]. rewrite Hnone in Hv. discriminate.
Qed.

End AutomatedPlayer.

Lemma probes_restore_board_witness :
  0 <= 3 < BOARD_COLS
  /\ (exists w, wouldWin boardWinAt2BlockAt5 3 PLAYER_2 = Returns (w, boardWinAt2BlockAt5))
  /\ (exists c, getBestMove firstIndex boardWinAt2BlockAt5 = Returns (c, boardWinAt2BlockAt5)).
Proof.
  assert (0 <= 3 < BOARD_COLS) as Hcol by (unfold BOARD_COLS; lia).
  pose proof (probes_restore_board firstIndex firstIndex_range boardWinAt2BlockAt5)
    as [Hprobe [_ [_ [_ Hbest]]]].
  split; [exact Hcol |]. split; [exact (Hprobe 3 PLAYER_2 Hcol) | exact Hbest].
Defined.

Lemma leftmostWinning_example : leftmostWinning boardWinAt2BlockAt5 PLAYER_2 2.
Proof.
  split; [split; reflexivity |].
  intros c Hc [Hv Hw]. apply isValidMove_range in Hv. destruct Hv as [Hr _].
  assert (c = 0 \/ c = 1) as [-> | ->] by lia; vm_compute in Hw; discriminate.
Defined.

Lemma getBestMove_priority_order_witness :
  (forall n, 0 < n -> 0 <= firstIndex n < n)
  /\ leftmostWinning boardWinAt2BlockAt5 PLAYER_2 2
  /\ winningColumn boardWinAt2BlockAt5 PLAYER_1 5
  /\ getBestMove firstIndex boardWinAt2BlockAt5 = Returns (2, boardWinAt2BlockAt5).
Proof.
  assert (winningColumn boardWinAt2BlockAt5 PLAYER_1 5) as Hw1 by (split; reflexivity).
  split; [exact firstIndex_range |]. split; [exact leftmostWinning_example |].
  split; [exact Hw1 |].
  exact (proj1 (proj2 (getBestMove_priority_order firstIndex firstIndex_range
                         boardWinAt2BlockAt5))
           leftmostWinning_example Hw1).
Defined.

(** The board of the specification's example: side 2 wins in column 2, side 1
    in column 5, and the choice is column 2. *)

Example getBestMove_win_before_block :
  wouldComplete boardWinAt2BlockAt5 2 PLAYER_2 = true
  /\ wouldComplete boardWinAt2BlockAt5 5 PLAYER_1 = true
  /\ getBestMove firstIndex boardWinAt2BlockAt5 = Returns (2, boardWinAt2BlockAt5).
Proof. repeat split; reflexivity. Qed.

(** ** The turn controller *)

Lemma withBoard_same (gs : GameState) : withBoard gs (Board gs) = gs.
Proof. destruct gs. reflexivity. Qed.

Lemma placePiece_outside (b : BoardT) (col player : Z) :
  ~ (0 <= col < BOARD_COLS) -> placePiece b col player = IndexPanic.
Proof.
  intros Hcol. unfold placePiece.
  replace (Z.to_nat BOARD_ROWS) with 6%nat by reflexivity. cbn [placePiece_from].
  rewrite load_outside; [reflexivity |].
  apply inRange_false_iff. intros [_ H]. contradiction.
Qed.

Lemma turnPasses_iff (gs : GameState) :
  turnPasses gs = true
  <-> Mode gs = GAME_MODE_TWO_PLAYER
      \/ (Mode gs = GAME_MODE_AI /\ CurrentPlayer gs = PLAYER_1).
Proof.
  unfold turnPasses. rewrite orb_true_iff, andb_true_iff, !String.eqb_eq, Z.eqb_eq.
  tauto.
Qed.

(** What [checkGameEnd] leaves behind, in the three cases of its test. *)

Lemma checkGameEnd_outcome (gs : GameState) (row col : Z) :
  inRange row col = true ->
  exists winner gs',
    checkForWin (Board gs) row col = Returns winner
    /\ checkGameEnd gs row col = Returns gs'
    /\ Board gs' = Board gs /\ Mode gs' = Mode gs
    /\ (winner > 0 ->
          GameOver gs' = true /\ Winner gs' = winner
          /\ CurrentPlayer gs' = CurrentPlayer gs)
    /\ (winner <= 0 -> isBoardFull (Board gs) = true ->
          GameOver gs' = true /\ Winner gs' = PLAYER_DRAW
          /\ CurrentPlayer gs' = CurrentPlayer gs)
    /\ (winner <= 0 -> isBoardFull (Board gs) = false ->
          GameOver gs' = GameOver gs /\ Winner gs' = Winner gs
          /\ CurrentPlayer gs'
             = if turnPasses gs then sub64 (PLAYER_2 + PLAYER_1) (CurrentPlayer gs)
               else CurrentPlayer gs).
Proof.
  intros Hin. unfold checkGameEnd. rewrite checkForWin_returns by assumption.
  rewrite bind_Returns.
  set (winner := if onLineOfFour (Board gs) (cellAt (Board gs) row col) row col
                 then cellAt (Board gs) row col else 0).
  exists winner. destruct (Z.gtb_spec winner 0) as [Hpos | Hnon].
  - eexists. split; [reflexivity |]. split; [reflexivity |]. cbn.
    repeat split; intros; try reflexivity; lia.
  - destruct (isBoardFull (Board gs)) eqn:Hfull.
    + eexists. split; [reflexivity |]. split; [reflexivity |]. cbn.
      repeat split; intros; try reflexivity; try lia; discriminate.
    + eexists. split; [reflexivity |]. split; [reflexivity |].
      destruct (turnPasses gs); cbn;
        repeat split; intros; try reflexivity; try lia; discriminate.
Qed.

Lemma checkGameEnd_keeps_over (gs : GameState) (row col : Z) :
  inRange row col = true -> GameOver gs = true ->
  exists gs', checkGameEnd gs row col = Returns gs'
    /\ Board gs' = Board gs /\ Mode gs' = Mode gs /\ GameOver gs' = true.
Proof.
  intros Hin Hover.
  destruct (checkGameEnd_outcome gs row col Hin)
    as [winner [gs' [_ [Hrun [Hb [Hm [Hwin [Hdraw Hgo]]]]]]]].
  exists gs'. repeat split; try assumption.
  destruct (Z_gt_le_dec winner 0) as [Hpos | Hnon]; [now apply Hwin |].
  destruct (isBoardFull (Board gs)) eqn:Hfull; [now apply Hdraw |].
  destruct (Hgo Hnon eq_refl) as [-> _]. exact Hover.
Qed.

(** C3 (amended).  For a call of [checkGameEnd] on a cell of the board: if
    [checkForWin] returns a side (a value above 0), the game is over with
    that side as winner; otherwise, if the top row is full, the game is over
    with winner 3; otherwise [GameOver] and [Winner] stay as they are, and the
    side to move becomes the other side when the mode is twoPlayer, or the
    mode is ai and side 1 has moved, and stays as it is in every other case
    (mode ai with side 2 to move, or any other mode). *)
Theorem checkGameEnd_transition (gs : GameState) (row col : Z) :
  inRange row col = true ->
  exists winner gs',
    checkForWin (Board gs) row col = Returns winner
    /\ checkGameEnd gs row col = Returns gs'
    /\ Board gs' = Board gs /\ Mode gs' = Mode gs
    /\ (winner > 0 -> GameOver gs' = true /\ Winner gs' = winner)
    /\ (winner <= 0 -> isBoardFull (Board gs) = true ->
          GameOver gs' = true /\ Winner gs' = PLAYER_DRAW)
    /\ (winner <= 0 -> isBoardFull (Board gs) = false ->
          GameOver gs' = GameOver gs /\ Winner gs' = Winner gs
          /\ ((Mode gs = GAME_MODE_TWO_PLAYER
               \/ (Mode gs = GAME_MODE_AI /\ CurrentPlayer gs = PLAYER_1)) ->
              CurrentPlayer gs = PLAYER_1 \/ CurrentPlayer gs = PLAYER_2 ->
              CurrentPlayer gs' = otherSide (CurrentPlayer gs))
          /\ (~ (Mode gs = GAME_MODE_TWO_PLAYER
                 \/ (Mode gs = GAME_MODE_AI /\ CurrentPlayer gs = PLAYER_1)) ->
              CurrentPlayer gs' = CurrentPlayer gs)).
Proof.
  intros Hin.
  destruct (checkGameEnd_outcome gs row col Hin)
    as [winner [gs' [Hwinner [Hrun [Hb [Hm [Hwin [Hdraw Hgo]]]]]]]].
  exists winner, gs'.
  split; [exact Hwinner |]. split; [exact Hrun |]. split; [exact Hb |]. split; [exact Hm |].
  split; [| split].
  - intros Hpos. destruct (Hwin Hpos) as [Hover [Hw _]]. split; assumption.
  - intros Hnon Hfull. destruct (Hdraw Hnon Hfull) as [Hover [Hw _]]. split; assumption.
  - intros Hnon Hroom. destruct (Hgo Hnon Hroom) as [Hover [Hw Hturn]].
    split; [exact Hover |]. split; [exact Hw |]. rewrite Hturn. split.
    + intros Hmode Hside. apply turnPasses_iff in Hmode. rewrite Hmode.
      unfold otherSide, PLAYER_1, PLAYER_2 in *. apply sub64_small. lia.
    + intros Hmode. rewrite <- turnPasses_iff in Hmode.
      destruct (turnPasses gs); [congruence | reflexivity].
Qed.

Lemma checkGameEnd_transition_witness :
  inRange 5 3 = true
  /\ exists gs', checkGameEnd gsAutomatedReply 5 3 = Returns gs'
       /\ Board gs' = Board gsAutomatedReply.
Proof.
  split; [reflexivity |].
  destruct (checkGameEnd_transition gsAutomatedReply 5 3 eq_refl)
    as [winner [gs' [_ [Hrun [Hb _]]]]].
  exists gs'. split; assumption.
Defined.

(** C3 as stated fails.  In ai mode, after the piece of side 2 has dropped
    without ending the game, [checkGameEnd] leaves side 2 to move; and in a
    game started with a mode that is neither twoPlayer nor ai, a whole move
    through [handleMove] leaves side 1 to move. *)
Lemma checkGameEnd_side_not_changed :
  (checkForWin (Board gsAutomatedReply) 5 3 = Returns 0
   /\ isBoardFull (Board gsAutomatedReply) = false
   /\ CurrentPlayer gsAutomatedReply = PLAYER_2
   /\ exists gs', checkGameEnd gsAutomatedReply 5 3 = Returns gs'
        /\ GameOver gs' = false /\ CurrentPlayer gs' = PLAYER_2)
  /\ (CurrentPlayer (startNewGame "") = PLAYER_1
      /\ exists gs', handleMove firstIndex (startNewGame "") MethodPost (Some 3) = Returns gs'
           /\ cellAt (Board gs') 5 3 = PLAYER_1
           /\ GameOver gs' = false /\ CurrentPlayer gs' = PLAYER_1).
Proof.
  split.
  - split; [reflexivity |]. split; [reflexivity |]. split; [reflexivity |].
    eexists. split; [reflexivity |]. split; reflexivity.
  - split; [reflexivity |].
    eexists. split; [reflexivity |]. repeat split; reflexivity.
Qed.

(** The state of the counterexample is the one [aiMakeMove] is in when it
    calls [checkGameEnd]: side 1 has played column 0 in a new ai game, the
    choice of [getBestMove] is column 3, and the piece lands in row 5. *)

Example gsAutomatedReply_arises :
  exists b1 gs1,
    placePiece emptyBoard 0 PLAYER_1 = Returns (5, b1)
    /\ checkGameEnd (withBoard (startNewGame GAME_MODE_AI) b1) 5 0 = Returns gs1
    /\ getBestMove firstIndex (Board gs1) = Returns (3, Board gs1)
    /\ placePiece (Board gs1) 3 PLAYER_2 = Returns (5, Board gsAutomatedReply)
    /\ withBoard gs1 (Board gsAutomatedReply) = gsAutomatedReply.
Proof.
  eexists. eexists. split; [reflexivity |]. split; [reflexivity |].
  split; [reflexivity |]. split; reflexivity.
Qed.

(** The JSON handler of the automated move does not hand the turn back:
    after a move of side 1 by [handleMoveAPI] and the reply by [aiMoveAPI],
    side 2 is still the side to move. *)

Example aiMoveAPI_side_stays :
  exists gs1 r1 gs2 r2,
    handleMoveAPI (startNewGame GAME_MODE_AI) MethodPost 0 = Returns (gs1, r1)
    /\ CurrentPlayer gs1 = PLAYER_2
    /\ aiMoveAPI firstIndex gs1 MethodPost = Returns (gs2, r2)
    /\ GameOver gs2 = false /\ CurrentPlayer gs2 = PLAYER_2.
Proof.
  do 4 eexists. split; [vm_compute; reflexivity |]. split; [reflexivity |].
  split; [vm_compute; reflexivity |]. split; reflexivity.
Qed.

(** C1.  The handlers miss the test the claim describes: neither
    [handleMove] nor [handleMoveAPI] looks at [GameOver] before it calls
    [placePiece], so a move posted while [GameOver] is true is treated as any
    other move.  For a column of the board: only when the column is full is
    the post refused, with [Board], [CurrentPlayer], [GameOver] and [Winner]
    as they were; otherwise the piece of [CurrentPlayer] is put into the
    lowest empty cell of the column and [checkGameEnd] is run on the finished
    game.  ([handleMove] does test [GameOver] before the automated reply,
    which therefore does not follow.) *)
Theorem move_after_game_over (rand_Intn : Z -> Z) (gs : GameState) (col : Z) :
  GameOver gs = true -> 0 <= col < BOARD_COLS ->
  exists row b',
    placePiece (Board gs) col (CurrentPlayer gs) = Returns (row, b')
    /\ (row = -1 ->
          b' = Board gs
          /\ handleMove rand_Intn gs MethodPost (Some col)
             = Returns (withStatusMessage gs "❌ Colonne pleine !")
          /\ handleMoveAPI gs MethodPost col
             = Returns (gs, Json (mkGameResponse false "Colonne pleine" false 0)))
    /\ (row <> -1 ->
          cellAt (Board gs) row col = CELL_EMPTY
          /\ cellAt b' row col = CurrentPlayer gs
          /\ exists gs',
               checkGameEnd (withBoard gs b') row col = Returns gs'
               /\ handleMove rand_Intn gs MethodPost (Some col) = Returns gs'
               /\ handleMoveAPI gs MethodPost col
                  = Returns (gs', Json (mkGameResponse true (StatusMessage gs') true (Winner gs')))
               /\ Board gs' = b' /\ GameOver gs' = true).
Proof.
  intros Hover Hcol.
  destruct (placePiece_scan (Board gs) col (CurrentPlayer gs) Hcol) as [row [Hres Hrun]].
  exists row. eexists. split; [exact Hrun |].
  unfold handleMove, handleMoveAPI. cbn [MethodPost String.eqb Ascii.eqb Bool.eqb negb].
  destruct (Z.ltb_spec col 0) as [Hneg | _]; [lia |].
  destruct (Z.geb_spec col BOARD_COLS) as [Hbig | _]; [lia |]. cbn [orb].
  rewrite Hrun, !bind_Returns.
  destruct (Z.eqb_spec row (-1)) as [-> | Hne].
  - split; [| intros Hc; contradiction]. intros _.
    rewrite withBoard_same. repeat split; reflexivity.
  - split; [intros Hc; contradiction |]. intros _.
    destruct (scanResult_empty_cell _ _ _ _ Hres Hne) as [Hr He].
    assert (inRange row col = true) as Hin by (apply inRange_iff; auto).
    split; [exact He |]. split; [now apply cellAt_setCell_same |].
    destruct (checkGameEnd_keeps_over
                (withBoard gs (setCell (Board gs) row col (CurrentPlayer gs))) row col Hin Hover)
      as [gs' [Hend [Hb [_ Hover']]]].
    exists gs'. rewrite Hend, !bind_Returns, Hover'. cbn [negb andb].
    repeat split; try reflexivity; assumption.
Qed.

Lemma move_after_game_over_witness :
  GameOver gsWonByFirst = true /\ 0 <= 0 < BOARD_COLS
  /\ exists row b',
       placePiece (Board gsWonByFirst) 0 (CurrentPlayer gsWonByFirst) = Returns (row, b').
Proof.
  assert (0 <= 0 < BOARD_COLS) as Hcol by (unfold BOARD_COLS; lia).
  split; [reflexivity |]. split; [exact Hcol |].
  destruct (move_after_game_over firstIndex gsWonByFirst 0 eq_refl Hcol)
    as [row [b' [Hrun _]]].
  exists row, b'. exact Hrun.
Defined.

(** At the failing input: side 1 has won; a post of column 0 is accepted by
    [handleMove] and by [handleMoveAPI] alike: the cell (5, 0), empty before,
    holds a piece of side 1 afterwards, and the side to move has changed. *)
Lemma move_after_game_over_accepted :
  GameOver gsWonByFirst = true
  /\ cellAt (Board gsWonByFirst) 5 0 = CELL_EMPTY
  /\ CurrentPlayer gsWonByFirst = PLAYER_1
  /\ (exists gs', handleMove firstIndex gsWonByFirst MethodPost (Some 0) = Returns gs'
        /\ cellAt (Board gs') 5 0 = PLAYER_1 /\ CurrentPlayer gs' = PLAYER_2
        /\ Board gs' <> Board gsWonByFirst)
  /\ (exists gs' resp, handleMoveAPI gsWonByFirst MethodPost 0 = Returns (gs', Json resp)
        /\ Success resp = true
        /\ cellAt (Board gs') 5 0 = PLAYER_1 /\ CurrentPlayer gs' = PLAYER_2
        /\ Board gs' <> Board gsWonByFirst).
Proof.
  split; [reflexivity |]. split; [reflexivity |]. split; [reflexivity |]. split.
  - eexists. split; [reflexivity |]. split; [reflexivity |]. split; [reflexivity |].
    discriminate.
  - eexists. eexists. split; [reflexivity |]. split; [reflexivity |].
    split; [reflexivity |]. split; [reflexivity |]. discriminate.
Qed.

(** Play goes on after the end, and the verdict with it: after that post
    of column 0 the turn is with side 2, whose post of column 4 completes
    four in column 4; the winner recorded for the finished game changes from
    side 1 to side 2. *)

Example winner_changes_after_game_over :
  Winner gsWonByFirst = PLAYER_1
  /\ exists gs1 r1 gs2 r2,
       handleMoveAPI gsWonByFirst MethodPost 0 = Returns (gs1, r1)
       /\ handleMoveAPI gs1 MethodPost 4 = Returns (gs2, r2)
       /\ GameOver gs2 = true /\ Winner gs2 = PLAYER_2
       /\ playForm firstIndex gsWonByFirst [0; 4] = Returns gs2.
Proof.
  split; [reflexivity |]. do 4 eexists.
  split; [vm_compute; reflexivity |]. split; [vm_compute; reflexivity |].
  split; [reflexivity |]. split; [reflexivity |]. vm_compute. reflexivity.
Qed.

(** The state of the failing input is the end of a game of two players:
    side 1 plays column 3 four times, side 2 column 4 in between. *)

Example gsWonByFirst_arises :
  playForm firstIndex (startNewGame GAME_MODE_TWO_PLAYER) [3; 4; 3; 4; 3; 4; 3]
  = Returns gsWonByFirst.
Proof. vm_compute. reflexivity. Qed.

(** A game of two players that fills the board without four in a row ends
    as a draw. *)

Example draw_game :
  playForm firstIndex (startNewGame GAME_MODE_TWO_PLAYER) drawGame
  = Returns (mkGameState boardDraw PLAYER_2 GAME_MODE_TWO_PLAYER true PLAYER_DRAW
               "🤝 Match nul !").
Proof. vm_compute. reflexivity. Qed.

(** C2.  [handleMove] refuses a column outside the board before it touches
    the board; [handleMoveAPI] does not test the column, so [placePiece] is
    called with it and its first index expression panics. *)
Theorem handleMoveAPI_column_unchecked (rand_Intn : Z -> Z) (gs : GameState) (col : Z) :
  ~ (0 <= col < BOARD_COLS) ->
  handleMove rand_Intn gs MethodPost (Some col)
  = Returns (withStatusMessage gs "❌ Colonne invalide")
  /\ placePiece (Board gs) col (CurrentPlayer gs) = IndexPanic
  /\ handleMoveAPI gs MethodPost col = IndexPanic.
Proof.
  intros Hcol. split; [| split].
  - unfold handleMove. cbn [MethodPost String.eqb Ascii.eqb Bool.eqb negb].
    destruct (Z.ltb_spec col 0) as [Hneg | Hpos]; [reflexivity |].
    destruct (Z.geb_spec col BOARD_COLS) as [Hbig | Hsmall]; [reflexivity | lia].
  - now apply placePiece_outside.
  - unfold handleMoveAPI. cbn [MethodPost String.eqb Ascii.eqb Bool.eqb negb].
    rewrite placePiece_outside by assumption. reflexivity.
Qed.

Lemma handleMoveAPI_column_unchecked_witness :
  ~ (0 <= 7 < BOARD_COLS)
  /\ handleMoveAPI (startNewGame GAME_MODE_TWO_PLAYER) MethodPost 7 = IndexPanic
  /\ handleMoveAPI (startNewGame GAME_MODE_TWO_PLAYER) MethodPost (-1) = IndexPanic.
Proof.
  assert (~ (0 <= 7 < BOARD_COLS)) as H7 by (unfold BOARD_COLS; lia).
  assert (~ (0 <= -1 < BOARD_COLS)) as Hm by (unfold BOARD_COLS; lia).
  split; [exact H7 |]. split.
  - exact (proj2 (proj2 (handleMoveAPI_column_unchecked firstIndex
                           (startNewGame GAME_MODE_TWO_PLAYER) 7 H7))).
  - exact (proj2 (proj2 (handleMoveAPI_column_unchecked firstIndex
                           (startNewGame GAME_MODE_TWO_PLAYER) (-1) Hm))).
Defined.

(** ** The automated reply *)

Lemma isBoardFull_from_forallb (cols : list Z) (b : BoardT) :
  isBoardFull_from cols b = forallb (fun c => negb (cellAt b 0 c =? CELL_EMPTY)) cols.
Proof.
  induction cols as [| c rest IH]; [reflexivity |].
  cbn [isBoardFull_from forallb]. rewrite IH.
  destruct (cellAt b 0 c =? CELL_EMPTY); reflexivity.
Qed.

Lemma isBoardFull_iff (b : BoardT) :
  isBoardFull b = true <-> forall c, 0 <= c < BOARD_COLS -> cellAt b 0 c <> CELL_EMPTY.
Proof.
  unfold isBoardFull. rewrite isBoardFull_from_forallb, forallb_forall. split.
  - intros H c Hc. specialize (H c ltac:(apply In_upto; assumption)).
    now apply negb_true_iff, Z.eqb_neq in H.
  - intros H c Hc. apply In_upto in Hc. apply negb_true_iff, Z.eqb_neq. now apply H.
Qed.

Lemma isBoardFull_getValidMoves (b : BoardT) :
  isBoardFull b = true <-> getValidMoves b = [].
Proof.
  rewrite isBoardFull_iff, getValidMoves_nil. split.
  - intros H c. unfold isValidMove.
    destruct (Z.geb_spec c 0); [| reflexivity].
    destruct (Z.ltb_spec c BOARD_COLS); [| reflexivity]. cbn [andb].
    apply Z.eqb_neq. apply H. lia.
  - intros H c Hc. specialize (H c). unfold isValidMove in H.
    destruct (Z.geb_spec c 0); [| lia].
    destruct (Z.ltb_spec c BOARD_COLS); [| lia]. cbn [andb] in H.
    now apply Z.eqb_neq.
Qed.

Lemma placePiece_valid (b : BoardT) (c p : Z) :
  isValidMove b c = true ->
  exists row,
    placePiece b c p = Returns (row, setCell b row c p)
    /\ row <> -1 /\ inRange row c = true /\ cellAt b row c = CELL_EMPTY.
Proof.
  intros Hv. apply isValidMove_range in Hv. destruct Hv as [Hc Htop].
  destruct (placePiece_scan b c p Hc) as [row [Hres Hrun]].
  destruct (scanResult_cases _ _ _ _ Hres) as [[-> Hall] | [Hr [He Hab]]].
  - exfalso. apply (Hall 0); [unfold BOARD_ROWS; lia | assumption].
  - exists row. destruct (Z.eqb_spec row (-1)) as [-> | Hne]; [lia |].
    repeat split; try assumption. apply inRange_iff. auto.
Qed.

Lemma placePiece_column_full (b : BoardT) (c p : Z) :
  0 <= c < BOARD_COLS ->
  (forall r, 0 <= r < BOARD_ROWS -> cellAt b r c <> CELL_EMPTY) ->
  placePiece b c p = Returns (-1, b).
Proof.
  intros Hc Hfull. destruct (placePiece_scan b c p Hc) as [row [Hres Hrun]].
  destruct (scanResult_cases _ _ _ _ Hres) as [[-> Hall] | [Hr [He Hab]]].
  - exact Hrun.
  - exfalso. apply (Hfull row); assumption.
Qed.

Lemma allOccupied_full (b : BoardT) :
  allOccupied b -> gravity b /\ getValidMoves b = [].
Proof.
  intros Hall. split.
  - intros r c Hr Hc _. apply Hall. apply inRange_iff. lia.
  - apply isBoardFull_getValidMoves, isBoardFull_iff. intros c Hc.
    apply Hall. apply inRange_iff. unfold BOARD_ROWS. lia.
Qed.

Section AutomatedReply.

Variable rand_Intn : Z -> Z.
Hypothesis rand_Intn_range : forall n, 0 < n -> 0 <= rand_Intn n < n.

Lemma getBestMove_column (b : BoardT) :
  exists c, getBestMove rand_Intn b = Returns (c, b) /\ 0 <= c < BOARD_COLS
    /\ (getValidMoves b <> [] -> isValidMove b c = true)
    /\ (getValidMoves b = [] -> c = 0).
Proof.
  destruct (getBestMove_rules rand_Intn rand_Intn_range b) as [c [Hrun Hcases]].
  exists c. split; [exact Hrun |].
  destruct Hcases as [[[Hv _] _] | [[_ [[Hv _] _]] | [[_ [_ [Hv ->]]] | [[_ [_ [_ Hv]]] | [Hnone ->]]]]].
  - split; [apply (isValidMove_range _ _ Hv) |]. split; [auto |].
    intros Hnil. apply In_getValidMoves in Hv. rewrite Hnil in Hv. contradiction.
  - split; [apply (isValidMove_range _ _ Hv) |]. split; [auto |].
    intros Hnil. apply In_getValidMoves in Hv. rewrite Hnil in Hv. contradiction.
  - split; [unfold BOARD_COLS; lia |]. split; [auto |].
    intros Hnil. apply In_getValidMoves in Hv. rewrite Hnil in Hv. contradiction.
  - split; [apply (isValidMove_range _ _ Hv) |]. split; [auto |].
    intros Hnil. apply In_getValidMoves in Hv. rewrite Hnil in Hv. contradiction.
  - split; [unfold BOARD_COLS; lia |]. split; [| reflexivity].
    intros Hne. exfalso. apply Hne. now apply getValidMoves_nil.
Qed.

Lemma aiMakeMove_no_room (gs : GameState) :
  getValidMoves (Board gs) = [] -> gravity (Board gs) ->
  placePiece (Board gs) 0 PLAYER_2 = Returns (-1, Board gs)
  /\ aiMakeMove rand_Intn gs = Returns gs.
Proof.
  intros Hnil Hg.
  assert (placePiece (Board gs) 0 PLAYER_2 = Returns (-1, Board gs)) as Hfull.
  { apply placePiece_column_full; [unfold BOARD_COLS; lia |].
    apply gravity_column_full; [assumption | unfold BOARD_COLS; lia |].
    apply isBoardFull_getValidMoves in Hnil.
    apply (proj1 (isBoardFull_iff _) Hnil). unfold BOARD_COLS. lia. }
  split; [exact Hfull |].
  unfold aiMakeMove.
  destruct (getBestMove_column (Board gs)) as [c [Hrun [_ [_ Hzero]]]].
  rewrite Hrun, bind_Returns, (Hzero Hnil), Hfull, bind_Returns.
  cbn [Z.eqb Pos.eqb]. apply f_equal, withBoard_same.
Qed.

(** C10.  [getBestMove] returns on every board, with a column of the board.
    When no column has room, [getValidMoves] is empty, [findRandomValidMove]
    returns 0 without drawing an index, [getBestMove] returns 0, and
    [aiMakeMove] gets -1 from [placePiece] and returns with the state as it
    was. *)
Theorem getBestMove_total (b : BoardT) :
  (exists c, getBestMove rand_Intn b = Returns (c, b) /\ 0 <= c < BOARD_COLS)
  /\ (getValidMoves b = [] ->
        findRandomValidMove rand_Intn b = Returns 0
        /\ getBestMove rand_Intn b = Returns (0, b))
  /\ (allOccupied b ->
        getValidMoves b = []
        /\ forall gs, Board gs = b ->
             placePiece b 0 PLAYER_2 = Returns (-1, b)
             /\ aiMakeMove rand_Intn gs = Returns gs)
  /\ (getValidMoves b = [] -> gravity b ->
        forall gs, Board gs = b ->
          placePiece b 0 PLAYER_2 = Returns (-1, b)
          /\ aiMakeMove rand_Intn gs = Returns gs).
Proof.
  destruct (getBestMove_column b) as [c [Hrun [Hc [_ Hzero]]]].
  split; [eauto |]. split; [| split].
  - intros Hnil. split; [now apply findRandomValidMove_nil |].
    rewrite Hrun, (Hzero Hnil). reflexivity.
  - intros Hall. destruct (allOccupied_full b Hall) as [Hg Hnil].
    split; [exact Hnil |]. intros gs <-. now apply aiMakeMove_no_room.
  - intros Hnil Hg gs <-. now apply aiMakeMove_no_room.
Qed.

End AutomatedReply.

Lemma allOccupied_boardDraw : allOccupied boardDraw.
Proof.
  intros r c Hin. apply inRange_iff in Hin. unfold BOARD_ROWS, BOARD_COLS in Hin.
  assert (r = 0 \/ r = 1 \/ r = 2 \/ r = 3 \/ r = 4 \/ r = 5) as Hr by lia.
  assert (c = 0 \/ c = 1 \/ c = 2 \/ c = 3 \/ c = 4 \/ c = 5 \/ c = 6) as Hc by lia.
  repeat (destruct Hr as [-> | Hr]); [.. | subst r];
    repeat (destruct Hc as [-> | Hc]); try subst c; discriminate.
Defined.

Lemma getBestMove_total_witness :
  (forall n, 0 < n -> 0 <= firstIndex n < n)
  /\ allOccupied boardDraw
  /\ getValidMoves boardDraw = []
  /\ gravity boardDraw
  /\ getBestMove firstIndex boardDraw = Returns (0, boardDraw)
  /\ aiMakeMove firstIndex (mkGameState boardDraw PLAYER_2 GAME_MODE_AI false 0 "")
     = Returns (mkGameState boardDraw PLAYER_2 GAME_MODE_AI false 0 "")
  /\ aiMakeMove firstIndex (mkGameState boardDraw PLAYER_1 GAME_MODE_AI true PLAYER_DRAW "")
     = Returns (mkGameState boardDraw PLAYER_1 GAME_MODE_AI true PLAYER_DRAW "").
Proof.
  pose proof (getBestMove_total firstIndex firstIndex_range boardDraw)
    as [_ [Hnil [Hocc Hgrav]]].
  assert (gravity boardDraw) as Hg by (apply gravityb_iff; reflexivity).
  split; [exact firstIndex_range |]. split; [exact allOccupied_boardDraw |].
  split; [reflexivity |]. split; [exact Hg |].
  split; [exact (proj2 (Hnil eq_refl)) |]. split.
  - exact (proj2 (proj2 (Hocc allOccupied_boardDraw)
                    (mkGameState boardDraw PLAYER_2 GAME_MODE_AI false 0 "") eq_refl)).
  - exact (proj2 (Hgrav eq_refl Hg
                    (mkGameState boardDraw PLAYER_1 GAME_MODE_AI true PLAYER_DRAW "") eq_refl)).
Defined.

Section OneReply.

Variable rand_Intn : Z -> Z.
Hypothesis rand_Intn_range : forall n, 0 < n -> 0 <= rand_Intn n < n.

(** On a board whose top row is not full, [aiMakeMove] drops exactly one
    piece of side 2, and hands the turn to side 1 unless the game is over. *)

Lemma aiMakeMove_one_piece (gs : GameState) :
  isBoardFull (Board gs) = false ->
  exists col row gs',
    getBestMove rand_Intn (Board gs) = Returns (col, Board gs)
    /\ inRange row col = true /\ cellAt (Board gs) row col = CELL_EMPTY
    /\ placePiece (Board gs) col PLAYER_2
       = Returns (row, setCell (Board gs) row col PLAYER_2)
    /\ aiMakeMove rand_Intn gs = Returns gs'
    /\ Board gs' = setCell (Board gs) row col PLAYER_2
    /\ (GameOver gs' = false -> CurrentPlayer gs' = PLAYER_1).
Proof.
  intros Hroom.
  assert (getValidMoves (Board gs) <> []) as Hne.
  { intros Hnil. apply isBoardFull_getValidMoves in Hnil. congruence. }
  destruct (getBestMove_column rand_Intn rand_Intn_range (Board gs))
    as [col [Hbest [_ [Hvalid _]]]].
  specialize (Hvalid Hne).
  destruct (placePiece_valid (Board gs) col PLAYER_2 Hvalid) as [row [Hplace [Hrow [Hin He]]]].
  destruct (checkGameEnd_outcome
              (withBoard gs (setCell (Board gs) row col PLAYER_2)) row col Hin)
    as [winner [gs' [_ [Hend [Hb _]]]]].
  assert (exists gs2,
            aiMakeMove rand_Intn gs = Returns gs2
            /\ Board gs2 = setCell (Board gs) row col PLAYER_2
            /\ (GameOver gs2 = false -> CurrentPlayer gs2 = PLAYER_1))
    as [gs2 [Hrun [Hb2 Hnext]]].
  { unfold aiMakeMove. rewrite Hbest, bind_Returns, Hplace, bind_Returns.
    destruct (Z.eqb_spec row (-1)) as [Heq | _]; [contradiction |].
    rewrite Hend, bind_Returns.
    destruct (GameOver gs') eqn:Hover; cbn [negb]; eexists;
      (split; [reflexivity |]); split.
    - exact Hb.
    - rewrite Hover. discriminate.
    - exact Hb.
    - reflexivity. }
  exists col, row, gs2. repeat (split; [assumption |]). assumption.
Qed.

(** C9.  In ai mode, when the accepted move of side 1 does not end the game,
    [handleMove] applies exactly one automated move before it returns: the
    board it leaves is the board after the move of side 1 with one more piece
    of side 2, dropped by [placePiece] into the column [getBestMove] chose;
    and if the game is not over after that reply, side 1 is to move. *)
Theorem handleMove_one_automated_reply
    (gs : GameState) (col row : Z) (b1 : BoardT) (gs1 : GameState) :
  Mode gs = GAME_MODE_AI -> CurrentPlayer gs = PLAYER_1 ->
  0 <= col < BOARD_COLS ->
  placePiece (Board gs) col PLAYER_1 = Returns (row, b1) -> row <> -1 ->
  checkGameEnd (withBoard gs b1) row col = Returns gs1 -> GameOver gs1 = false ->
  exists col2 row2 gs2,
    Board gs1 = b1 /\ CurrentPlayer gs1 = PLAYER_2
    /\ getBestMove rand_Intn b1 = Returns (col2, b1)
    /\ inRange row2 col2 = true /\ cellAt b1 row2 col2 = CELL_EMPTY
    /\ placePiece b1 col2 PLAYER_2 = Returns (row2, setCell b1 row2 col2 PLAYER_2)
    /\ handleMove rand_Intn gs MethodPost (Some col) = Returns gs2
    /\ Board gs2 = setCell b1 row2 col2 PLAYER_2
    /\ (GameOver gs2 = false -> CurrentPlayer gs2 = PLAYER_1).
Proof.
  intros Hmode Hside Hcol Hplace Hrow Hend Hactive.
  assert (inRange row col = true) as Hin.
  { destruct (placePiece_scan (Board gs) col PLAYER_1 Hcol) as [row' [Hres Hrun]].
    rewrite Hplace in Hrun. injection Hrun as Hr _. subst row'.
    destruct (scanResult_empty_cell _ _ _ _ Hres Hrow) as [Hr _].
    apply inRange_iff. auto. }
  destruct (checkGameEnd_outcome (withBoard gs b1) row col Hin)
    as [winner [gs1' [_ [Hend' [Hb [Hm [Hwin [Hdraw Hgo]]]]]]]].
  rewrite Hend in Hend'. injection Hend' as <-.
  cbn [withBoard Board Mode] in Hb, Hm.
  assert (winner <= 0) as Hnon.
  { destruct (Z_gt_le_dec winner 0) as [Hpos |]; [| assumption].
    destruct (Hwin Hpos) as [Hover _]. congruence. }
  assert (isBoardFull b1 = false) as Hroom.
  { destruct (isBoardFull b1) eqn:Hfull; [| reflexivity].
    destruct (Hdraw Hnon Hfull) as [Hover _]. congruence. }
  destruct (Hgo Hnon Hroom) as [_ [_ Hturn]].
  assert (turnPasses (withBoard gs b1) = true) as Hpass.
  { apply turnPasses_iff. right. split; assumption. }
  rewrite Hpass in Hturn. cbn [withBoard CurrentPlayer] in Hturn.
  rewrite Hside in Hturn. change (sub64 (PLAYER_2 + PLAYER_1) PLAYER_1) with PLAYER_2 in Hturn.
  rewrite <- Hb in Hroom.
  destruct (aiMakeMove_one_piece gs1 Hroom)
    as [col2 [row2 [gs2 [Hbest [Hin2 [He2 [Hplace2 [Hai [Hb2 Hnext]]]]]]]]].
  rewrite Hb in Hbest, He2, Hplace2, Hb2.
  exists col2, row2, gs2.
  repeat (split; [assumption |]). split; [| split; assumption].
  unfold handleMove. cbn [MethodPost String.eqb Ascii.eqb Bool.eqb negb].
  destruct (Z.ltb_spec col 0) as [Hneg | _]; [lia |].
  destruct (Z.geb_spec col BOARD_COLS) as [Hbig | _]; [lia |]. cbn [orb].
  rewrite Hside, Hplace, bind_Returns.
  destruct (Z.eqb_spec row (-1)) as [Heq | _]; [contradiction |].
  rewrite Hend, bind_Returns, Hactive, Hm, Hmode, Hturn. exact Hai.
Qed.

End OneReply.

Lemma handleMove_one_automated_reply_witness :
  Mode (startNewGame GAME_MODE_AI) = GAME_MODE_AI
  /\ CurrentPlayer (startNewGame GAME_MODE_AI) = PLAYER_1
  /\ 0 <= 0 < BOARD_COLS
  /\ exists gs2,
       handleMove firstIndex (startNewGame GAME_MODE_AI) MethodPost (Some 0) = Returns gs2
       /\ Board gs2 = setCell (setCell emptyBoard 5 0 PLAYER_1) 5 3 PLAYER_2
       /\ CurrentPlayer gs2 = PLAYER_1.
Proof.
  assert (0 <= 0 < BOARD_COLS) as Hcol by (unfold BOARD_COLS; lia).
  split; [reflexivity |]. split; [reflexivity |]. split; [exact Hcol |].
  destruct (handleMove_one_automated_reply firstIndex firstIndex_range
              (startNewGame GAME_MODE_AI) 0 5 (setCell emptyBoard 5 0 PLAYER_1)
              (mkGameState (setCell emptyBoard 5 0 PLAYER_1) PLAYER_2 GAME_MODE_AI false 0 "")
              eq_refl eq_refl Hcol eq_refl ltac:(lia) eq_refl eq_refl)
    as [col2 [row2 [gs2 [_ [_ [_ [_ [_ [_ [Hrun [_ Hnext]]]]]]]]]]].
  exists gs2. split; [exact Hrun |].
  assert (handleMove firstIndex (startNewGame GAME_MODE_AI) MethodPost (Some 0)
          = Returns (mkGameState (setCell (setCell emptyBoard 5 0 PLAYER_1) 5 3 PLAYER_2)
                       PLAYER_1 GAME_MODE_AI false 0 "")) as Hval by reflexivity.
  rewrite Hrun in Hval. injection Hval as ->. split; reflexivity.
Defined.

(** One post of side 1 in ai mode: two pieces on the board, side 1 to move. *)

Example handleMove_ai_first_move :
  handleMove firstIndex (startNewGame GAME_MODE_AI) MethodPost (Some 0)
  = Returns (mkGameState (setCell (setCell emptyBoard 5 0 PLAYER_1) 5 3 PLAYER_2)
               PLAYER_1 GAME_MODE_AI false 0 "").
Proof. reflexivity. Qed.

(** ** The states of the server *)

Lemma placePiece_reachable (b : BoardT) (col side row : Z) (b' : BoardT) :
  reachable b -> side = PLAYER_1 \/ side = PLAYER_2 ->
  placePiece b col side = Returns (row, b') -> reachable b'.
Proof.
  intros Hreach Hside Hrun.
  destruct (Z_le_dec 0 col) as [Hlo | Hlo];
    [destruct (Z_lt_dec col BOARD_COLS) as [Hhi | Hhi] |];
    try (rewrite placePiece_outside in Hrun by lia; discriminate).
  destruct (Z.eq_dec row (-1)) as [-> | Hne].
  - rewrite placePiece_column_full in Hrun.
    + now injection Hrun as <-.
    + lia.
    + destruct (placePiece_scan b col side (conj Hlo Hhi)) as [row' [Hres Hrun']].
      rewrite Hrun in Hrun'. injection Hrun' as Hr _. subst row'.
      destruct (scanResult_cases _ _ _ _ Hres) as [[_ Hall] | [Hr _]]; [exact Hall | lia].
  - eapply reachable_move; eauto.
Qed.

Lemma checkGameEnd_keeps (gs : GameState) (row col : Z) (gs' : GameState) :
  checkGameEnd gs row col = Returns gs' ->
  Board gs' = Board gs /\ (sideToMove gs -> sideToMove gs').
Proof.
  intros Hrun. destruct (inRange row col) eqn:Hin.
  - destruct (checkGameEnd_outcome gs row col Hin)
      as [winner [gs1 [_ [Hrun' [Hb [_ [Hwin [Hdraw Hgo]]]]]]]].
    rewrite Hrun in Hrun'. injection Hrun' as <-. split; [exact Hb |].
    unfold sideToMove. intros Hside.
    destruct (Z_gt_le_dec winner 0) as [Hpos | Hnon].
    + destruct (Hwin Hpos) as [_ [_ ->]]. exact Hside.
    + destruct (isBoardFull (Board gs)) eqn:Hfull.
      * destruct (Hdraw Hnon eq_refl) as [_ [_ ->]]. exact Hside.
      * destruct (Hgo Hnon eq_refl) as [_ [_ ->]].
        destruct (turnPasses gs); [| exact Hside].
        destruct Hside as [-> | ->]; [right | left]; reflexivity.
  - unfold checkGameEnd, checkForWin in Hrun.
    rewrite load_outside in Hrun by assumption. discriminate.
Qed.

Section ServerStates.

Variable rand_Intn : Z -> Z.
Hypothesis rand_Intn_range : forall n, 0 < n -> 0 <= rand_Intn n < n.

Lemma aiMakeMove_keeps (gs gs' : GameState) :
  reachable (Board gs) -> sideToMove gs ->
  aiMakeMove rand_Intn gs = Returns gs' ->
  reachable (Board gs') /\ sideToMove gs'.
Proof.
  intros Hreach Hside. unfold aiMakeMove.
  destruct (getBestMove_column rand_Intn rand_Intn_range (Board gs)) as [c [-> _]].
  rewrite bind_Returns.
  destruct (placePiece (Board gs) c PLAYER_2) as [[row b] | |] eqn:Hplace;
    cbn [bind]; try discriminate.
  assert (reachable b) as Hb
    by exact (placePiece_reachable _ _ _ _ _ Hreach (or_intror eq_refl) Hplace).
  destruct (row =? -1).
  - intros H. injection H as <-. split; assumption.
  - destruct (checkGameEnd (withBoard gs b) row c) as [gs1 | |] eqn:Hend;
      cbn [bind]; try discriminate.
    destruct (checkGameEnd_keeps _ _ _ _ Hend) as [Hb1 Hs1].
    cbn [withBoard Board] in Hb1.
    destruct (GameOver gs1); cbn [negb]; intros H; injection H as <-.
    + rewrite Hb1. split; [assumption | now apply Hs1].
    + cbn. rewrite Hb1. split; [assumption | now left].
Qed.

Lemma handleMove_keeps (gs : GameState) (method : string) (colForm : option Z)
    (gs' : GameState) :
  reachable (Board gs) -> sideToMove gs ->
  handleMove rand_Intn gs method colForm = Returns gs' ->
  reachable (Board gs') /\ sideToMove gs'.
Proof.
  intros Hreach Hside. unfold handleMove.
  destruct (negb (method =? MethodPost)%string).
  { intros H. injection H as <-. split; assumption. }
  destruct colForm as [col |]; [| intros H; injection H as <-; split; assumption].
  destruct ((col <? 0) || (col >=? BOARD_COLS)).
  { intros H. injection H as <-. split; assumption. }
  destruct (placePiece (Board gs) col (CurrentPlayer gs)) as [[row b] | |] eqn:Hplace;
    cbn [bind]; try discriminate.
  assert (reachable b) as Hb
    by exact (placePiece_reachable _ _ _ _ _ Hreach Hside Hplace).
  destruct (row =? -1).
  { intros H. injection H as <-. split; assumption. }
  destruct (checkGameEnd (withBoard gs b) row col) as [gs1 | |] eqn:Hend;
    cbn [bind]; try discriminate.
  destruct (checkGameEnd_keeps _ _ _ _ Hend) as [Hb1 Hs1].
  cbn [withBoard Board] in Hb1. rewrite <- Hb1 in Hb. specialize (Hs1 Hside).
  destruct (negb (GameOver gs1) && (Mode gs1 =? GAME_MODE_AI)%string
            && (CurrentPlayer gs1 =? PLAYER_2)).
  - now apply aiMakeMove_keeps.
  - intros H. injection H as <-. split; assumption.
Qed.

Lemma handleMoveAPI_keeps (gs : GameState) (method : string) (reqCol : Z)
    (gs' : GameState) (reply : apiReply) :
  reachable (Board gs) -> sideToMove gs ->
  handleMoveAPI gs method reqCol = Returns (gs', reply) ->
  reachable (Board gs') /\ sideToMove gs'.
Proof.
  intros Hreach Hside. unfold handleMoveAPI.
  destruct (negb (method =? MethodPost)%string).
  { intros H. injection H as <- _. split; assumption. }
  destruct (placePiece (Board gs) reqCol (CurrentPlayer gs)) as [[row b] | |] eqn:Hplace;
    cbn [bind]; try discriminate.
  assert (reachable b) as Hb
    by exact (placePiece_reachable _ _ _ _ _ Hreach Hside Hplace).
  destruct (row =? -1).
  { intros H. injection H as <- _. split; assumption. }
  destruct (checkGameEnd (withBoard gs b) row reqCol) as [gs1 | |] eqn:Hend;
    cbn [bind]; try discriminate.
  destruct (checkGameEnd_keeps _ _ _ _ Hend) as [Hb1 Hs1].
  cbn [withBoard Board] in Hb1. rewrite <- Hb1 in Hb. specialize (Hs1 Hside).
  destruct (GameOver gs1); intros H; injection H as <- _; split; assumption.
Qed.

Lemma aiMoveAPI_keeps (gs : GameState) (method : string)
    (gs' : GameState) (reply : apiReply) :
  reachable (Board gs) -> sideToMove gs ->
  aiMoveAPI rand_Intn gs method = Returns (gs', reply) ->
  reachable (Board gs') /\ sideToMove gs'.
Proof.
  intros Hreach Hside. unfold aiMoveAPI.
  destruct (negb (method =? MethodPost)%string).
  { intros H. injection H as <- _. split; assumption. }
  destruct (getBestMove_column rand_Intn rand_Intn_range (Board gs)) as [c [-> _]].
  rewrite bind_Returns.
  destruct (placePiece (Board gs) c PLAYER_2) as [[row b] | |] eqn:Hplace;
    cbn [bind]; try discriminate.
  assert (reachable b) as Hb
    by exact (placePiece_reachable _ _ _ _ _ Hreach (or_intror eq_refl) Hplace).
  destruct (row =? -1).
  { intros H. injection H as <- _. split; assumption. }
  destruct (checkGameEnd (withBoard gs b) row c) as [gs1 | |] eqn:Hend;
    cbn [bind]; try discriminate.
  destruct (checkGameEnd_keeps _ _ _ _ Hend) as [Hb1 Hs1].
  cbn [withBoard Board] in Hb1. rewrite <- Hb1 in Hb. specialize (Hs1 Hside).
  intros H. injection H as <- _. split; assumption.
Qed.

(** The form handler never panics and always returns. *)

Lemma aiMakeMove_returns (gs : GameState) :
  exists gs', aiMakeMove rand_Intn gs = Returns gs'.
Proof.
  unfold aiMakeMove.
  destruct (getBestMove_column rand_Intn rand_Intn_range (Board gs)) as [c [-> [Hc _]]].
  rewrite bind_Returns.
  destruct (placePiece_scan (Board gs) c PLAYER_2 Hc) as [row [Hres ->]].
  rewrite bind_Returns.
  destruct (Z.eqb_spec row (-1)) as [-> | Hne]; [eauto |].
  destruct (scanResult_empty_cell _ _ _ _ Hres Hne) as [Hr _].
  destruct (checkGameEnd_outcome (withBoard gs (setCell (Board gs) row c PLAYER_2)) row c)
    as [_ [gs1 [_ [-> _]]]]; [apply inRange_iff; auto |].
  rewrite bind_Returns. destruct (negb (GameOver gs1)); eauto.
Qed.

Lemma handleMove_returns (gs : GameState) (method : string) (colForm : option Z) :
  exists gs', handleMove rand_Intn gs method colForm = Returns gs'.
Proof.
  unfold handleMove.
  destruct (negb (method =? MethodPost)%string); [eauto |].
  destruct colForm as [col |]; [| eauto].
  destruct (Z.ltb_spec col 0) as [Hneg | Hlo]; [cbn [orb]; eauto |].
  destruct (Z.geb_spec col BOARD_COLS) as [Hbig | Hhi]; cbn [orb]; [eauto |].
  assert (0 <= col < BOARD_COLS) as Hcol by lia.
  destruct (placePiece_scan (Board gs) col (CurrentPlayer gs) Hcol) as [row [Hres ->]].
  rewrite bind_Returns.
  destruct (Z.eqb_spec row (-1)) as [-> | Hne]; [eauto |].
  destruct (scanResult_empty_cell _ _ _ _ Hres Hne) as [Hr _].
  destruct (checkGameEnd_outcome
              (withBoard gs (setCell (Board gs) row col (CurrentPlayer gs))) row col)
    as [_ [gs1 [_ [-> _]]]]; [apply inRange_iff; auto |].
  rewrite bind_Returns.
  destruct (negb (GameOver gs1) && (Mode gs1 =? GAME_MODE_AI)%string
            && (CurrentPlayer gs1 =? PLAYER_2)); [apply aiMakeMove_returns | eauto].
Qed.

End ServerStates.

(** In every state of the server the board is a board of legal play, so the
    gravity invariant holds on it, and the side to move is side 1 or side 2. *)

Lemma reachableState_board (gs : GameState) :
  reachableState gs ->
  reachable (Board gs) /\ gravity (Board gs) /\ sideToMove gs.
Proof.
  intros Hreach.
  assert (reachable (Board gs) /\ sideToMove gs) as [Hb Hs].
  { induction Hreach as [| mode | r gs method colForm gs' Hr _ [IHb IHs] Hrun
                         | gs method reqCol gs' reply _ [IHb IHs] Hrun
                         | r gs method gs' reply Hr _ [IHb IHs] Hrun ].
    - split; [constructor | now left].
    - split; [constructor | now left].
    - exact (handleMove_keeps r Hr gs method colForm gs' IHb IHs Hrun).
    - exact (handleMoveAPI_keeps gs method reqCol gs' reply IHb IHs Hrun).
    - exact (aiMoveAPI_keeps r Hr gs method gs' reply IHb IHs Hrun). }
  split; [exact Hb |]. split; [now apply reachable_gravity | exact Hs].
Qed.

(** ** Four in a row anywhere on the board *)

Lemma In_allCells (i j : Z) : In (i, j) allCells <-> inRange i j = true.
Proof.
  unfold allCells. rewrite in_flat_map, inRange_iff. split.
  - intros [i' [Hi Hj]]. apply in_map_iff in Hj. destruct Hj as [j' [Heq Hj]].
    injection Heq as <- <-. apply In_upto in Hi. apply In_upto in Hj. auto.
  - intros [Hi Hj]. exists i. split; [now apply In_upto |].
    apply in_map_iff. exists j. split; [reflexivity | now apply In_upto].
Qed.

Lemma fourFrom_iff (b : BoardT) (p i j dRow dCol : Z) :
  fourFrom b p i j dRow dCol = true
  <-> forall t, 0 <= t <= 3 -> holds b p (i + t * dRow) (j + t * dCol) = true.
Proof.
  unfold fourFrom. rewrite forallb_forall. split.
  - intros H t Ht. apply H. simpl. lia.
  - intros H t Ht. apply H. simpl in Ht. lia.
Qed.

Lemma hasFour_iff (b : BoardT) (p : Z) :
  hasFour b p = true
  <-> exists i j dRow dCol,
        In (dRow, dCol) directions /\ fourFrom b p i j dRow dCol = true.
Proof.
  unfold hasFour. rewrite existsb_exists. split.
  - intros [[i j] [_ H]]. apply existsb_exists in H. destruct H as [[dRow dCol] [Hd H]].
    exists i, j, dRow, dCol. auto.
  - intros [i [j [dRow [dCol [Hd H]]]]]. exists (i, j). split.
    + apply In_allCells. pose proof (proj1 (fourFrom_iff _ _ _ _ _ _) H 0 ltac:(lia)) as H0.
      rewrite !Z.mul_0_l, !Z.add_0_r in H0. now apply holds_iff in H0.
    + apply existsb_exists. exists (dRow, dCol). auto.
Qed.

Lemma onLineOfFour_iff (b : BoardT) (p row col : Z) :
  onLineOfFour b p row col = true
  <-> exists dRow dCol k,
        In (dRow, dCol) directions /\ 0 <= k <= 3
        /\ fourFrom b p (row - k * dRow) (col - k * dCol) dRow dCol = true.
Proof.
  unfold onLineOfFour, onLineAlong. rewrite existsb_exists. split.
  - intros [[dRow dCol] [Hd H]]. apply existsb_exists in H. destruct H as [k [Hk H]].
    exists dRow, dCol, k. repeat split; try assumption; simpl in Hk; lia.
  - intros [dRow [dCol [k [Hd [Hk H]]]]]. exists (dRow, dCol). split; [assumption |].
    apply existsb_exists. exists k. split; [simpl; lia | assumption].
Qed.

Lemma onLineOfFour_hasFour (b : BoardT) (p row col : Z) :
  onLineOfFour b p row col = true -> hasFour b p = true.
Proof.
  rewrite onLineOfFour_iff, hasFour_iff.
  intros [dRow [dCol [k [Hd [_ H]]]]]. eauto 6.
Qed.

(** A piece dropped on an empty cell changes [holds] for its own side at
    that cell only, and for any other side nowhere. *)

Lemma holds_setCell_own (b : BoardT) (row col p i j : Z) :
  inRange row col = true -> cellAt b row col = CELL_EMPTY -> p <> CELL_EMPTY ->
  holds (setCell b row col p) p i j
  = if (i =? row) && (j =? col) then true else holds b p i j.
Proof.
  intros Hin He Hp. unfold holds. rewrite cellAt_setCell by assumption.
  destruct (Z.eqb_spec i row) as [-> | Hi]; [destruct (Z.eqb_spec j col) as [-> | Hj] |];
    cbn [andb]; try reflexivity.
  rewrite Hin, Z.eqb_refl. reflexivity.
Qed.

Lemma holds_setCell_other (b : BoardT) (row col p q i j : Z) :
  inRange row col = true -> cellAt b row col = CELL_EMPTY ->
  q <> CELL_EMPTY -> q <> p ->
  holds (setCell b row col p) q i j = holds b q i j.
Proof.
  intros Hin He Hq Hqp. unfold holds. rewrite cellAt_setCell by assumption.
  destruct (Z.eqb_spec i row) as [-> | Hi]; [destruct (Z.eqb_spec j col) as [-> | Hj] |];
    cbn [andb]; try reflexivity.
  rewrite He. destruct (Z.eqb_spec p q); [congruence |].
  destruct (Z.eqb_spec CELL_EMPTY q); [congruence | reflexivity].
Qed.

Lemma existsb_pointwise {A : Type} (f g : A -> bool) (l : list A) :
  (forall x, f x = g x) -> existsb f l = existsb g l.
Proof.
  intros H. induction l as [| x l IH]; [reflexivity |].
  cbn [existsb]. now rewrite H, IH.
Qed.

Lemma forallb_pointwise {A : Type} (f g : A -> bool) (l : list A) :
  (forall x, f x = g x) -> forallb f l = forallb g l.
Proof.
  intros H. induction l as [| x l IH]; [reflexivity |].
  cbn [forallb]. now rewrite H, IH.
Qed.

Lemma hasFour_setCell_other (b : BoardT) (row col p q : Z) :
  inRange row col = true -> cellAt b row col = CELL_EMPTY ->
  q <> CELL_EMPTY -> q <> p ->
  hasFour (setCell b row col p) q = hasFour b q.
Proof.
  intros Hin He Hq Hqp. unfold hasFour, fourFrom.
  apply existsb_pointwise. intros c. apply existsb_pointwise. intros d.
  apply forallb_pointwise. intros t. now apply holds_setCell_other.
Qed.

Lemma hasFour_setCell_kept (b : BoardT) (row col p q : Z) :
  inRange row col = true -> cellAt b row col = CELL_EMPTY -> q <> CELL_EMPTY ->
  hasFour b q = true -> hasFour (setCell b row col p) q = true.
Proof.
  intros Hin He Hq. destruct (Z.eq_dec q p) as [-> | Hqp].
  - rewrite !hasFour_iff. intros [i [j [dRow [dCol [Hd H]]]]].
    exists i, j, dRow, dCol. split; [assumption |].
    rewrite fourFrom_iff in *. intros t Ht. rewrite holds_setCell_own by assumption.
    rewrite (H t Ht). destruct ((i + t * dRow =? row) && (j + t * dCol =? col)); reflexivity.
  - now rewrite hasFour_setCell_other.
Qed.

Lemma hasFour_through_new_cell (b : BoardT) (row col p : Z) :
  inRange row col = true -> cellAt b row col = CELL_EMPTY -> p <> CELL_EMPTY ->
  hasFour b p = false ->
  hasFour (setCell b row col p) p = true ->
  onLineOfFour (setCell b row col p) p row col = true.
Proof.
  intros Hin He Hp Hnone Hnew.
  apply hasFour_iff in Hnew. destruct Hnew as [i [j [dRow [dCol [Hd H]]]]].
  destruct (existsb (fun t => (i + t * dRow =? row) && (j + t * dCol =? col)) [0; 1; 2; 3])
    eqn:Hhit.
  - apply existsb_exists in Hhit. destruct Hhit as [t [Ht Heq]].
    apply andb_true_iff in Heq. destruct Heq as [Hr Hc].
    apply Z.eqb_eq in Hr. apply Z.eqb_eq in Hc.
    apply onLineOfFour_iff. exists dRow, dCol, t.
    split; [assumption |]. split; [simpl in Ht; lia |].
    replace (row - t * dRow) with i by lia. replace (col - t * dCol) with j by lia.
    exact H.
  - exfalso. assert (hasFour b p = true) as Hold; [| congruence].
    apply hasFour_iff. exists i, j, dRow, dCol. split; [assumption |].
    rewrite fourFrom_iff in *. intros t Ht. specialize (H t Ht).
    rewrite holds_setCell_own in H by assumption.
    destruct ((i + t * dRow =? row) && (j + t * dCol =? col)) eqn:Heq; [| exact H].
    assert (existsb (fun t => (i + t * dRow =? row) && (j + t * dCol =? col)) [0; 1; 2; 3]
            = true) as Hyes; [| congruence].
    apply existsb_exists. exists t. split; [simpl; lia | exact Heq].
Qed.

Lemma placePiece_landing (b : BoardT) (col p row : Z) (b' : BoardT) :
  placePiece b col p = Returns (row, b') -> row <> -1 ->
  inRange row col = true /\ cellAt b row col = CELL_EMPTY /\ b' = setCell b row col p.
Proof.
  intros Hrun Hrow.
  destruct (Z_le_dec 0 col) as [Hlo | Hlo];
    [destruct (Z_lt_dec col BOARD_COLS) as [Hhi | Hhi] |];
    try (rewrite placePiece_outside in Hrun by lia; discriminate).
  destruct (placePiece_scan b col p (conj Hlo Hhi)) as [row' [Hres Hrun']].
  rewrite Hrun in Hrun'. injection Hrun' as Hr Hb. subst row'.
  destruct (scanResult_empty_cell _ _ _ _ Hres Hrow) as [Hr He].
  destruct (Z.eqb_spec row (-1)); [contradiction |].
  split; [apply inRange_iff; auto |]. split; assumption.
Qed.

Lemma placePiece_refused (b : BoardT) (col p : Z) (b' : BoardT) :
  placePiece b col p = Returns (-1, b') -> b' = b.
Proof.
  intros Hrun.
  destruct (Z_le_dec 0 col) as [Hlo | Hlo];
    [destruct (Z_lt_dec col BOARD_COLS) as [Hhi | Hhi] |];
    try (rewrite placePiece_outside in Hrun by lia; discriminate).
  destruct (placePiece_scan b col p (conj Hlo Hhi)) as [row' [Hres Hrun']].
  rewrite Hrun in Hrun'. injection Hrun' as Hr Hb. subst row'. exact Hb.
Qed.

(** X2.  Checking the lines through the landing cell misses nothing: when a
    piece of side [p] has dropped on a board without four in a row of [p],
    [checkForWin] at the landing cell returns [p] exactly when the new board
    has four in a row of [p] anywhere; and four in a row of the other side
    are neither made nor broken. *)
Theorem checkForWin_detects_new_four (b : BoardT) (col p row : Z) (b' : BoardT) :
  p <> CELL_EMPTY -> hasFour b p = false ->
  placePiece b col p = Returns (row, b') -> row <> -1 ->
  (checkForWin b' row col = Returns p <-> hasFour b' p = true)
  /\ (hasFour b' p = false -> checkForWin b' row col = Returns 0)
  /\ (forall q, q <> CELL_EMPTY -> q <> p -> hasFour b' q = hasFour b q).
Proof.
  intros Hp Hnone Hrun Hrow.
  destruct (placePiece_landing _ _ _ _ _ Hrun Hrow) as [Hin [He ->]].
  rewrite checkForWin_returns by assumption. rewrite cellAt_setCell_same by assumption.
  pose proof (onLineOfFour_hasFour (setCell b row col p) p row col) as Hup.
  pose proof (hasFour_through_new_cell b row col p Hin He Hp Hnone) as Hdown.
  split; [| split].
  - destruct (onLineOfFour (setCell b row col p) p row col).
    + split; [intros _; now apply Hup | reflexivity].
    + split; [intros H; injection H as H; unfold CELL_EMPTY in Hp; congruence |].
      intros H. specialize (Hdown H). discriminate.
  - intros Hno. destruct (onLineOfFour (setCell b row col p) p row col); [| reflexivity].
    rewrite Hup in Hno by reflexivity. discriminate.
  - intros q Hq Hqp. now apply hasFour_setCell_other.
Qed.

Lemma checkForWin_detects_new_four_witness :
  PLAYER_1 <> CELL_EMPTY
  /\ hasFour (setCell boardVerticalTop 0 3 0) PLAYER_1 = false
  /\ placePiece (setCell boardVerticalTop 0 3 0) 3 PLAYER_1 = Returns (0, boardVerticalTop)
  /\ 0 <> -1
  /\ hasFour boardVerticalTop PLAYER_1 = true
  /\ checkForWin boardVerticalTop 0 3 = Returns PLAYER_1.
Proof.
  assert (PLAYER_1 <> CELL_EMPTY) as Hp by discriminate.
  assert (hasFour (setCell boardVerticalTop 0 3 0) PLAYER_1 = false) as Hnone
    by (vm_compute; reflexivity).
  assert (placePiece (setCell boardVerticalTop 0 3 0) 3 PLAYER_1 = Returns (0, boardVerticalTop))
    as Hrun by (vm_compute; reflexivity).
  assert (hasFour boardVerticalTop PLAYER_1 = true) as Hfour by (vm_compute; reflexivity).
  split; [exact Hp |]. split; [exact Hnone |]. split; [exact Hrun |].
  split; [lia |]. split; [exact Hfour |].
  exact (proj2 (proj1 (checkForWin_detects_new_four _ 3 PLAYER_1 0 _ Hp Hnone Hrun ltac:(lia)))
           Hfour).
Defined.

(** ** What every move handler preserves

    The handlers change the state in the same few ways: a status message, a
    piece of the side to move followed by [checkGameEnd], and (in [handleMove]
    in ai mode, and in [aiMoveAPI]) a piece of side 2 followed by
    [checkGameEnd] and, in [aiMakeMove], the turn handed to side 1.  A
    property kept by each of these is kept by the handlers. *)

Section HandlerSteps.

Variable rand_Intn : Z -> Z.
Hypothesis rand_Intn_range : forall n, 0 < n -> 0 <= rand_Intn n < n.

Variable P : GameState -> Prop.

Hypothesis P_message : forall gs m, P gs -> P (withStatusMessage gs m).

Hypothesis P_turn : forall gs, P gs -> P (withCurrentPlayer gs PLAYER_1).

Hypothesis P_human : forall gs col row b gs',
  P gs -> placePiece (Board gs) col (CurrentPlayer gs) = Returns (row, b) -> row <> -1 ->
  checkGameEnd (withBoard gs b) row col = Returns gs' -> P gs'.

Lemma handleMoveAPI_preserves (gs : GameState) (method : string) (reqCol : Z)
    (gs' : GameState) (reply : apiReply) :
  P gs -> handleMoveAPI gs method reqCol = Returns (gs', reply) -> P gs'.
Proof.
  intros HP. unfold handleMoveAPI.
  destruct (negb (method =? MethodPost)%string).
  { intros H. injection H as <- _. exact HP. }
  destruct (placePiece (Board gs) reqCol (CurrentPlayer gs)) as [[row b] | |] eqn:Hplace;
    cbn [bind]; try discriminate.
  destruct (Z.eqb_spec row (-1)) as [-> | Hrow].
  { intros H. injection H as <- _.
    rewrite (placePiece_refused _ _ _ _ Hplace), withBoard_same. exact HP. }
  destruct (checkGameEnd (withBoard gs b) row reqCol) as [gs1 | |] eqn:Hend;
    cbn [bind]; try discriminate.
  assert (P gs1) as HP1 by (eapply P_human; eauto).
  destruct (GameOver gs1); intros H; injection H as <- _; exact HP1.
Qed.

Section AutomatedStep.

(** [allowed] says in which states the automated player moves. *)
Variable allowed : GameState -> Prop.

Hypothesis P_auto : forall gs col row b gs',
  P gs -> allowed gs ->
  placePiece (Board gs) col PLAYER_2 = Returns (row, b) -> row <> -1 ->
  checkGameEnd (withBoard gs b) row col = Returns gs' -> P gs'.

Lemma aiMakeMove_preserves (gs gs' : GameState) :
  P gs -> allowed gs -> aiMakeMove rand_Intn gs = Returns gs' -> P gs'.
Proof.
  intros HP Hal. unfold aiMakeMove.
  destruct (getBestMove_column rand_Intn rand_Intn_range (Board gs)) as [c [-> _]].
  rewrite bind_Returns.
  destruct (placePiece (Board gs) c PLAYER_2) as [[row b] | |] eqn:Hplace;
    cbn [bind]; try discriminate.
  destruct (Z.eqb_spec row (-1)) as [-> | Hrow].
  { intros H. injection H as <-.
    rewrite (placePiece_refused _ _ _ _ Hplace), withBoard_same. exact HP. }
  destruct (checkGameEnd (withBoard gs b) row c) as [gs1 | |] eqn:Hend;
    cbn [bind]; try discriminate.
  assert (P gs1) as HP1 by (eapply P_auto; eauto).
  destruct (GameOver gs1); cbn [negb]; intros H; injection H as <-.
  - exact HP1.
  - apply P_message, P_turn, HP1.
Qed.

Lemma aiMoveAPI_preserves (gs : GameState) (method : string)
    (gs' : GameState) (reply : apiReply) :
  P gs -> allowed gs -> aiMoveAPI rand_Intn gs method = Returns (gs', reply) -> P gs'.
Proof.
  intros HP Hal. unfold aiMoveAPI.
  destruct (negb (method =? MethodPost)%string).
  { intros H. injection H as <- _. exact HP. }
  destruct (getBestMove_column rand_Intn rand_Intn_range (Board gs)) as [c [-> _]].
  rewrite bind_Returns.
  destruct (placePiece (Board gs) c PLAYER_2) as [[row b] | |] eqn:Hplace;
    cbn [bind]; try discriminate.
  destruct (Z.eqb_spec row (-1)) as [-> | Hrow].
  { intros H. injection H as <- _.
    rewrite (placePiece_refused _ _ _ _ Hplace), withBoard_same. exact HP. }
  destruct (checkGameEnd (withBoard gs b) row c) as [gs1 | |] eqn:Hend;
    cbn [bind]; try discriminate.
  intros H. injection H as <- _. eapply P_auto; eauto.
Qed.

Hypothesis allowed_ai : forall gs, Mode gs = GAME_MODE_AI -> allowed gs.

Lemma handleMove_preserves (gs : GameState) (method : string) (colForm : option Z)
    (gs' : GameState) :
  P gs -> handleMove rand_Intn gs method colForm = Returns gs' -> P gs'.
Proof.
  intros HP. unfold handleMove.
  destruct (negb (method =? MethodPost)%string).
  { intros H. injection H as <-. exact HP. }
  destruct colForm as [col |]; [| intros H; injection H as <-; now apply P_message].
  destruct ((col <? 0) || (col >=? BOARD_COLS)).
  { intros H. injection H as <-. now apply P_message. }
  destruct (placePiece (Board gs) col (CurrentPlayer gs)) as [[row b] | |] eqn:Hplace;
    cbn [bind]; try discriminate.
  destruct (Z.eqb_spec row (-1)) as [-> | Hrow].
  { intros H. injection H as <-.
    rewrite (placePiece_refused _ _ _ _ Hplace), withBoard_same. now apply P_message. }
  destruct (checkGameEnd (withBoard gs b) row col) as [gs1 | |] eqn:Hend;
    cbn [bind]; try discriminate.
  assert (P gs1) as HP1 by (eapply P_human; eauto).
  destruct (negb (GameOver gs1)); cbn [andb];
    [| intros H; injection H as <-; exact HP1].
  destruct (String.eqb_spec (Mode gs1) GAME_MODE_AI) as [Hai | _]; cbn [andb];
    [| intros H; injection H as <-; exact HP1].
  destruct (CurrentPlayer gs1 =? PLAYER_2);
    [| intros H; injection H as <-; exact HP1].
  apply aiMakeMove_preserves; [exact HP1 | now apply allowed_ai].
Qed.

End AutomatedStep.

End HandlerSteps.

(** ** The states of the server, continued *)

Lemma reachable_cellsOfSides (b : BoardT) : reachable b -> cellsOfSides b.
Proof.
  intros Hreach. induction Hreach as [| b col side row b' _ IH Hcol Hside Hrun Hrow].
  - intros i j. left. unfold cellAt, boardRow, rowGet, emptyBoard, emptyRow.
    cbn. repeat (destruct (_ =? _); try reflexivity).
  - destruct (placePiece_landing _ _ _ _ _ Hrun Hrow) as [Hin [_ ->]].
    intros i j. rewrite cellAt_setCell by assumption.
    destruct ((i =? row) && (j =? col)); [| apply IH].
    right. exact Hside.
Qed.

Lemma verdictSound_fields (gs gs' : GameState) :
  Board gs' = Board gs -> GameOver gs' = GameOver gs -> Winner gs' = Winner gs ->
  verdictSound gs -> verdictSound gs'.
Proof. unfold verdictSound. intros -> -> ->. tauto. Qed.

Lemma soundState_step (gs : GameState) (col p row : Z) (b : BoardT) (gs' : GameState) :
  soundState gs -> p = PLAYER_1 \/ p = PLAYER_2 ->
  placePiece (Board gs) col p = Returns (row, b) -> row <> -1 ->
  checkGameEnd (withBoard gs b) row col = Returns gs' ->
  soundState gs'.
Proof.
  intros [Hreach [Hside [Hnot [Hover Hwin]]]] Hp Hplace Hrow Hend.
  assert (p <> CELL_EMPTY) as Hp0 by (destruct Hp as [-> | ->]; discriminate).
  destruct (placePiece_landing _ _ _ _ _ Hplace Hrow) as [Hin [He Hb]].
  destruct (checkGameEnd_keeps _ _ _ _ Hend) as [Hb' Hs'].
  cbn [withBoard Board] in Hb'.
  split; [| split].
  - rewrite Hb'. eapply placePiece_reachable; eauto.
  - apply Hs'. exact Hside.
  - destruct (checkGameEnd_outcome (withBoard gs b) row col Hin)
      as [winner [gs1 [Hcheck [Hend' [_ [_ [Hw [Hd Hg]]]]]]]].
    rewrite Hend in Hend'. injection Hend' as <-.
    cbn [withBoard Board GameOver Winner] in *.
    rewrite checkForWin_returns in Hcheck by assumption.
    rewrite Hb, cellAt_setCell_same in Hcheck by assumption. rewrite <- Hb in Hcheck.
    injection Hcheck as Hwinner.
    destruct (onLineOfFour b p row col) eqn:Hline.
    + assert (winner > 0) as Hpos by (destruct Hp; subst; reflexivity).
      destruct (Hw Hpos) as [Hov [Hwn _]]. unfold verdictSound. rewrite Hov, Hwn, Hb'.
      split; [discriminate |]. split; [intros _; rewrite <- Hwinner; tauto |].
      intros _. rewrite <- Hwinner. now apply (onLineOfFour_hasFour b p row col).
    + assert (winner <= 0) as Hnon by lia.
      destruct (isBoardFull b) eqn:Hfull.
      * destruct (Hd Hnon eq_refl) as [Hov [Hwn _]]. unfold verdictSound.
        rewrite Hov, Hwn. split; [discriminate |]. split; [tauto |].
        intros [H | H]; discriminate.
      * destruct (Hg Hnon eq_refl) as [Hov [Hwn _]]. unfold verdictSound.
        rewrite Hov, Hwn, Hb'. split; [| split].
        -- intros Hactive. destruct (Hnot Hactive) as [Hw0 [H1 H2]].
           split; [exact Hw0 |].
           assert (hasFour b p = false) as Hown.
           { destruct (hasFour b p) eqn:Hf; [| reflexivity].
             assert (hasFour (Board gs) p = false) as Hold
               by (destruct Hp as [-> | ->]; assumption).
             rewrite Hb in Hf, Hline.
             pose proof (hasFour_through_new_cell (Board gs) row col p Hin He Hp0 Hold Hf).
             congruence. }
           destruct Hp as [-> | ->].
           ++ split; [exact Hown |].
              rewrite Hb, hasFour_setCell_other by (assumption || discriminate). exact H2.
           ++ split; [| exact Hown].
              rewrite Hb, hasFour_setCell_other by (assumption || discriminate). exact H1.
        -- exact Hover.
        -- intros Hwon. rewrite Hb. apply hasFour_setCell_kept; try assumption.
           ++ destruct Hwon as [-> | ->]; discriminate.
           ++ now apply Hwin.
Qed.

Lemma soundState_start (mode : string) : soundState (startNewGame mode).
Proof.
  split; [constructor |]. split; [now left |].
  split; [| split].
  - intros _. repeat split; reflexivity.
  - discriminate.
  - cbn. intros [H | H]; discriminate.
Qed.

Lemma reachableState_sound (gs : GameState) :
  reachableState gs -> soundState gs.
Proof.
  assert (forall gs m, soundState gs -> soundState (withStatusMessage gs m)) as Hmsg.
  { intros s m [Hr [Hs Hv]]. split; [exact Hr |]. split; [exact Hs |].
    now apply (verdictSound_fields s). }
  assert (forall gs, soundState gs -> soundState (withCurrentPlayer gs PLAYER_1)) as Hturn.
  { intros s [Hr [Hs Hv]]. split; [exact Hr |]. split; [now left |].
    now apply (verdictSound_fields s). }
  assert (forall gs col row b gs',
            soundState gs ->
            placePiece (Board gs) col (CurrentPlayer gs) = Returns (row, b) -> row <> -1 ->
            checkGameEnd (withBoard gs b) row col = Returns gs' -> soundState gs') as Hhuman.
  { intros s col row b s' Hs Hplace Hrow Hend.
    apply (soundState_step s col (CurrentPlayer s) row b s' Hs); try assumption.
    apply Hs. }
  assert (forall gs col row b gs',
            soundState gs -> True ->
            placePiece (Board gs) col PLAYER_2 = Returns (row, b) -> row <> -1 ->
            checkGameEnd (withBoard gs b) row col = Returns gs' -> soundState gs') as Hauto.
  { intros s col row b s' Hs _ Hplace Hrow Hend.
    apply (soundState_step s col PLAYER_2 row b s' Hs); try assumption. now right. }
  intros Hreach.
  induction Hreach as [| mode | r gs method colForm gs' Hr _ IH Hrun
                       | gs method reqCol gs' reply _ IH Hrun
                       | r gs method gs' reply Hr _ IH Hrun ].
  - apply (soundState_start GAME_MODE_TWO_PLAYER).
  - apply soundState_start.
  - exact (handleMove_preserves r Hr soundState Hmsg Hturn Hhuman
             (fun _ => True) Hauto (fun _ _ => I) gs method colForm gs' IH Hrun).
  - exact (handleMoveAPI_preserves soundState Hhuman gs method reqCol gs' reply IH Hrun).
  - exact (aiMoveAPI_preserves r Hr soundState (fun _ => True) Hauto
             gs method gs' reply IH I Hrun).
Qed.

(** X1.  In every state of the server (from the start, through any sequence
    of new games and of posts to [handleMove], [handleMoveAPI] and
    [aiMoveAPI], whatever [rand.Intn] draws in each call), the board
    satisfies the gravity invariant, every cell is empty or holds side 1 or
    side 2, and the side to move is side 1 or side 2. *)
Theorem server_state_well_formed (gs : GameState) :
  reachableState gs ->
  gravity (Board gs) /\ cellsOfSides (Board gs) /\ sideToMove gs.
Proof.
  intros Hreach. destruct (reachableState_sound gs Hreach) as [Hb [Hs _]].
  split; [now apply reachable_gravity |]. split; [now apply reachable_cellsOfSides | exact Hs].
Qed.

(** X3.  In every state of the server the verdict fields agree with the
    board: while [GameOver] is false, [Winner] is 0 and neither side has four
    in a row anywhere on the board; when [GameOver] is true, [Winner] is 1, 2
    or 3; and when [Winner] is a side, that side has four in a row on the
    board. *)
Theorem server_state_verdict (gs : GameState) :
  reachableState gs ->
  (GameOver gs = false ->
     Winner gs = 0 /\ hasFour (Board gs) PLAYER_1 = false /\ hasFour (Board gs) PLAYER_2 = false)
  /\ (GameOver gs = true ->
        Winner gs = PLAYER_1 \/ Winner gs = PLAYER_2 \/ Winner gs = PLAYER_DRAW)
  /\ (Winner gs = PLAYER_1 \/ Winner gs = PLAYER_2 -> hasFour (Board gs) (Winner gs) = true).
Proof.
  intros Hreach. destruct (reachableState_sound gs Hreach) as [_ [_ Hv]]. exact Hv.
Qed.

Lemma firstIndex_in_range : forall n, 0 < n -> 0 <= firstIndex n < n.
Proof. intros n Hn. unfold firstIndex. lia. Defined.

Lemma lastIndex_in_range : forall n, 0 < n -> 0 <= lastIndex n < n.
Proof. intros n Hn. unfold lastIndex. lia. Defined.

Lemma playForm_reachableState (rand_Intn : Z -> Z) (cols : list Z) (gs gs' : GameState) :
  (forall n, 0 < n -> 0 <= rand_Intn n < n) ->
  reachableState gs -> playForm rand_Intn gs cols = Returns gs' ->
  reachableState gs'.
Proof.
  intros Hr. revert gs. induction cols as [| c rest IH]; intros gs Hreach Hrun.
  - injection Hrun as <-. exact Hreach.
  - cbn [playForm] in Hrun.
    destruct (handleMove rand_Intn gs MethodPost (Some c)) as [gs1 | |] eqn:Hmove;
      cbn [bind] in Hrun; try discriminate.
    apply (IH gs1); [| exact Hrun].
    exact (reachableState_handleMove rand_Intn gs MethodPost (Some c) gs1 Hr Hreach Hmove).
Defined.

Lemma reachableState_gsWonByFirst : reachableState gsWonByFirst.
Proof.
  apply (playForm_reachableState firstIndex [3; 4; 3; 4; 3; 4; 3]
           (startNewGame GAME_MODE_TWO_PLAYER) gsWonByFirst firstIndex_in_range);
    [constructor |].
  vm_compute. reflexivity.
Defined.

(** Two draws in one game.  Against the automated player, side 1 plays
    column 3 three times and column 1 twice.  The automated player answers in
    column 3 until it is full; its next two columns are drawn among the six
    columns left, and the draws need not agree: here the first is index 0 and
    the second index 5. *)

Example gsCentreFull_arises :
  playForm firstIndex (startNewGame GAME_MODE_AI) [3; 3; 3] = Returns gsCentreFull.
Proof. vm_compute. reflexivity. Qed.

Example gsTwoDraws_arises :
  exists gs1,
    handleMove firstIndex gsCentreFull MethodPost (Some 1) = Returns gs1
    /\ cellAt (Board gs1) 5 0 = PLAYER_2
    /\ handleMove lastIndex gs1 MethodPost (Some 1) = Returns gsTwoDraws
    /\ cellAt (Board gsTwoDraws) 5 0 = PLAYER_2
    /\ cellAt (Board gsTwoDraws) 5 6 = PLAYER_2.
Proof.
  eexists. split; [vm_compute; reflexivity |]. split; [reflexivity |].
  split; [vm_compute; reflexivity |]. split; reflexivity.
Qed.

Lemma reachableState_gsTwoDraws : reachableState gsTwoDraws.
Proof.
  assert (reachableState gsCentreFull) as Hcentre.
  { apply (playForm_reachableState firstIndex [3; 3; 3] (startNewGame GAME_MODE_AI)
             gsCentreFull firstIndex_in_range); [constructor |].
    vm_compute. reflexivity. }
  assert (exists gs1, handleMove firstIndex gsCentreFull MethodPost (Some 1) = Returns gs1
                      /\ handleMove lastIndex gs1 MethodPost (Some 1) = Returns gsTwoDraws)
    as [gs1 [H1 H2]].
  { eexists. split; [vm_compute; reflexivity |]. vm_compute. reflexivity. }
  apply (reachableState_handleMove lastIndex gs1 MethodPost (Some 1) gsTwoDraws
           lastIndex_in_range); [| exact H2].
  exact (reachableState_handleMove firstIndex gsCentreFull MethodPost (Some 1) gs1
           firstIndex_in_range Hcentre H1).
Defined.

Lemma server_state_well_formed_witness :
  reachableState gsTwoDraws
  /\ gravity (Board gsTwoDraws) /\ cellsOfSides (Board gsTwoDraws)
  /\ sideToMove gsTwoDraws.
Proof.
  split; [exact reachableState_gsTwoDraws |].
  exact (server_state_well_formed gsTwoDraws reachableState_gsTwoDraws).
Defined.

Lemma server_state_verdict_witness :
  reachableState gsWonByFirst
  /\ Winner gsWonByFirst = PLAYER_1
  /\ hasFour (Board gsWonByFirst) (Winner gsWonByFirst) = true.
Proof.
  split; [exact reachableState_gsWonByFirst |]. split; [reflexivity |].
  apply (server_state_verdict gsWonByFirst reachableState_gsWonByFirst).
  left. reflexivity.
Defined.

(** ** What the move handlers never do *)

Lemma playKept_refl (gs : GameState) : playKept gs gs.
Proof. split; [reflexivity |]. split; [reflexivity | auto]. Qed.

Lemma playKept_step (gs0 gs : GameState) (col p row : Z) (b : BoardT) (gs' : GameState) :
  playKept gs0 gs ->
  placePiece (Board gs) col p = Returns (row, b) -> row <> -1 ->
  checkGameEnd (withBoard gs b) row col = Returns gs' ->
  playKept gs0 gs'.
Proof.
  intros [Hcells [Hmode Hover]] Hplace Hrow Hend.
  destruct (placePiece_landing _ _ _ _ _ Hplace Hrow) as [Hin [He Hb]].
  destruct (checkGameEnd_outcome (withBoard gs b) row col Hin)
    as [winner [gs1 [_ [Hend' [Hb' [Hm' [Hw [Hd Hg]]]]]]]].
  rewrite Hend in Hend'. injection Hend' as <-.
  cbn [withBoard Board Mode GameOver] in *.
  split; [| split].
  - intros i j Hocc. rewrite Hb', Hb, cellAt_setCell by assumption.
    destruct (Z.eqb_spec i row) as [-> | Hi]; [destruct (Z.eqb_spec j col) as [-> | Hj] |];
      cbn [andb]; try now apply Hcells.
    exfalso. rewrite <- (Hcells row col Hocc) in Hocc. contradiction.
  - congruence.
  - intros Hov0. specialize (Hover Hov0).
    destruct (Z_gt_le_dec winner 0) as [Hpos | Hnon]; [now apply Hw |].
    destruct (isBoardFull b) eqn:Hfull; [now apply Hd |].
    destruct (Hg Hnon eq_refl) as [-> _]. exact Hover.
Qed.

Section NeverDone.

Variable rand_Intn : Z -> Z.
Hypothesis rand_Intn_range : forall n, 0 < n -> 0 <= rand_Intn n < n.

(** X4.  Whatever the request, a move handler that returns has not moved or
    removed a piece (every occupied cell holds what it held), has not changed
    the mode, and has not reopened a game that was over. *)
Theorem move_handlers_keep_play (gs : GameState) (method : string) :
  (forall colForm gs',
     handleMove rand_Intn gs method colForm = Returns gs' -> playKept gs gs')
  /\ (forall reqCol gs' reply,
        handleMoveAPI gs method reqCol = Returns (gs', reply) -> playKept gs gs')
  /\ (forall gs' reply,
        aiMoveAPI rand_Intn gs method = Returns (gs', reply) -> playKept gs gs').
Proof.
  assert (forall s m, playKept gs s -> playKept gs (withStatusMessage s m)) as Hmsg
    by (intros s m H; exact H).
  assert (forall s, playKept gs s -> playKept gs (withCurrentPlayer s PLAYER_1)) as Hturn
    by (intros s H; exact H).
  assert (forall s col row b s',
            playKept gs s ->
            placePiece (Board s) col (CurrentPlayer s) = Returns (row, b) -> row <> -1 ->
            checkGameEnd (withBoard s b) row col = Returns s' -> playKept gs s') as Hhuman
    by (intros; eapply playKept_step; eassumption).
  assert (forall s col row b s',
            playKept gs s -> True ->
            placePiece (Board s) col PLAYER_2 = Returns (row, b) -> row <> -1 ->
            checkGameEnd (withBoard s b) row col = Returns s' -> playKept gs s') as Hauto
    by (intros; eapply playKept_step; eassumption).
  split; [| split].
  - intros colForm gs' Hrun.
    exact (handleMove_preserves rand_Intn rand_Intn_range (playKept gs) Hmsg Hturn Hhuman
             (fun _ => True) Hauto (fun _ _ => I) gs method colForm gs'
             (playKept_refl gs) Hrun).
  - intros reqCol gs' reply Hrun.
    exact (handleMoveAPI_preserves (playKept gs) Hhuman gs method reqCol gs' reply
             (playKept_refl gs) Hrun).
  - intros gs' reply Hrun.
    exact (aiMoveAPI_preserves rand_Intn rand_Intn_range (playKept gs)
             (fun _ => True) Hauto gs method gs' reply (playKept_refl gs) I Hrun).
Qed.

End NeverDone.

Lemma move_handlers_keep_play_witness :
  exists gs',
    handleMove firstIndex gsWonByFirst MethodPost (Some 0) = Returns gs'
    /\ playKept gsWonByFirst gs'.
Proof.
  destruct (handleMove firstIndex gsWonByFirst MethodPost (Some 0)) as [gs' | |] eqn:Hrun;
    try (vm_compute in Hrun; discriminate).
  exists gs'. split; [reflexivity |].
  exact (proj1 (move_handlers_keep_play firstIndex firstIndex_in_range gsWonByFirst MethodPost)
           (Some 0) gs' Hrun).
Defined.

(** ** A game in an unknown mode *)

Lemma turnPasses_unknown_mode (gs : GameState) :
  Mode gs <> GAME_MODE_TWO_PLAYER -> Mode gs <> GAME_MODE_AI -> turnPasses gs = false.
Proof.
  intros H2 Hai. destruct (turnPasses gs) eqn:Hp; [| reflexivity].
  apply turnPasses_iff in Hp. destruct Hp as [Hp | [Hp _]]; contradiction.
Qed.

Section UnknownMode.

Variable rand_Intn : Z -> Z.
Hypothesis rand_Intn_range : forall n, 0 < n -> 0 <= rand_Intn n < n.

(** X5.  [handleModeChange] starts a game in whatever mode string the form
    carries.  When that string is neither twoPlayer nor ai (the empty string
    of a missing form value, for one), the turn never passes: after any
    sequence of posts to [handleMove] and [handleMoveAPI], the mode is still
    that string, side 1 is to move, and every piece on the board is a piece of
    side 1. *)
Theorem unknown_mode_side_one_plays (gs0 gs : GameState) (mode : string) :
  mode <> GAME_MODE_TWO_PLAYER -> mode <> GAME_MODE_AI ->
  movesFrom rand_Intn (handleModeChange gs0 MethodPost mode) gs ->
  Mode gs = mode /\ CurrentPlayer gs = PLAYER_1 /\ onlySideOne (Board gs).
Proof.
  intros H2 Hai Hmoves.
  set (P := fun s : GameState =>
              Mode s = mode /\ CurrentPlayer s = PLAYER_1 /\ onlySideOne (Board s)).
  assert (forall s m, P s -> P (withStatusMessage s m)) as Hmsg by (intros s m H; exact H).
  assert (forall s, P s -> P (withCurrentPlayer s PLAYER_1)) as Hturn.
  { intros s [Hm [_ Hb]]. split; [exact Hm |]. split; [reflexivity | exact Hb]. }
  assert (forall s col row b s',
            P s -> placePiece (Board s) col (CurrentPlayer s) = Returns (row, b) ->
            row <> -1 -> checkGameEnd (withBoard s b) row col = Returns s' -> P s') as Hhuman.
  { intros s col row b s' [Hm [Hc Hb]] Hplace Hrow Hend.
    destruct (placePiece_landing _ _ _ _ _ Hplace Hrow) as [Hin [_ Hset]].
    destruct (checkGameEnd_outcome (withBoard s b) row col Hin)
      as [winner [s1 [_ [Hend' [Hb' [Hm' [Hw [Hd Hg]]]]]]]].
    rewrite Hend in Hend'. injection Hend' as <-.
    cbn [withBoard Board Mode CurrentPlayer] in *.
    split; [congruence |]. split.
    - destruct (Z_gt_le_dec winner 0) as [Hpos | Hnon].
      + destruct (Hw Hpos) as [_ [_ ->]]. exact Hc.
      + destruct (isBoardFull b) eqn:Hfull.
        * destruct (Hd Hnon eq_refl) as [_ [_ ->]]. exact Hc.
        * destruct (Hg Hnon eq_refl) as [_ [_ ->]].
          rewrite turnPasses_unknown_mode; [exact Hc | |]; cbn [withBoard Mode]; congruence.
    - rewrite Hb', Hset, Hc. intros i j. rewrite cellAt_setCell by assumption.
      destruct ((i =? row) && (j =? col)); [now right | apply Hb]. }
  assert (forall s col row b s',
            P s -> Mode s = GAME_MODE_AI ->
            placePiece (Board s) col PLAYER_2 = Returns (row, b) -> row <> -1 ->
            checkGameEnd (withBoard s b) row col = Returns s' -> P s') as Hauto.
  { intros s col row b s' [Hm _] Hmode. congruence. }
  induction Hmoves as [| s method colForm s' _ IH Hrun | s method reqCol s' reply _ IH Hrun].
  - cbn. split; [reflexivity |]. split; [reflexivity |].
    intros i j. left. unfold cellAt, boardRow, rowGet, emptyBoard, emptyRow.
    cbn. repeat (destruct (_ =? _); try reflexivity).
  - exact (handleMove_preserves rand_Intn rand_Intn_range P Hmsg Hturn Hhuman
             (fun s => Mode s = GAME_MODE_AI) Hauto (fun _ H => H) s method colForm s' IH Hrun).
  - exact (handleMoveAPI_preserves P Hhuman s method reqCol s' reply IH Hrun).
Qed.

End UnknownMode.

Lemma unknown_mode_side_one_plays_witness :
  ("" <> GAME_MODE_TWO_PLAYER /\ "" <> GAME_MODE_AI)%string
  /\ exists gs,
       playForm firstIndex (handleModeChange initializeGame MethodPost "") [3; 3] = Returns gs
       /\ CurrentPlayer gs = PLAYER_1
       /\ cellAt (Board gs) 5 3 = PLAYER_1 /\ cellAt (Board gs) 4 3 = PLAYER_1.
Proof.
  assert ("" <> GAME_MODE_TWO_PLAYER)%string as H2 by discriminate.
  assert ("" <> GAME_MODE_AI)%string as Hai by discriminate.
  split; [split; assumption |].
  destruct (playForm firstIndex (handleModeChange initializeGame MethodPost "") [3; 3])
    as [gs | |] eqn:Hrun; try (vm_compute in Hrun; discriminate).
  exists gs. split; [reflexivity |].
  assert (movesFrom firstIndex (handleModeChange initializeGame MethodPost "") gs) as Hmoves.
  { cbn [playForm] in Hrun.
    destruct (handleMove firstIndex (handleModeChange initializeGame MethodPost "")
                MethodPost (Some 3)) as [gs1 | |] eqn:H1; cbn [bind] in Hrun; try discriminate.
    destruct (handleMove firstIndex gs1 MethodPost (Some 3)) as [gs2 | |] eqn:Hs2;
      cbn [bind] in Hrun; try discriminate.
    injection Hrun as <-.
    eapply movesFrom_handleMove; [| exact Hs2].
    eapply movesFrom_handleMove; [| exact H1]. constructor. }
  destruct (unknown_mode_side_one_plays firstIndex firstIndex_in_range initializeGame gs ""
              H2 Hai Hmoves) as [_ [Hc _]].
  split; [exact Hc |].
  vm_compute in Hrun. injection Hrun as <-. split; reflexivity.
Defined.

(** ** The draw test *)

(** X6.  On a board with the gravity invariant (so on every board of play)
    the top-row test of [isBoardFull] is exact: it answers true exactly when
    all 42 cells are occupied, and exactly when [placePiece] refuses every
    column of the board. *)
Theorem isBoardFull_exact (b : BoardT) :
  gravity b ->
  (isBoardFull b = true <-> allOccupied b)
  /\ (isBoardFull b = true
      <-> forall col p, 0 <= col < BOARD_COLS -> placePiece b col p = Returns (-1, b)).
Proof.
  intros Hg. split.
  - split.
    + intros Hfull r c Hin. apply inRange_iff in Hin. destruct Hin as [Hr Hc].
      apply gravity_column_full; try assumption.
      now apply (proj1 (isBoardFull_iff b) Hfull).
    + intros Hall. apply isBoardFull_iff. intros c Hc. apply Hall.
      apply inRange_iff. unfold BOARD_ROWS. lia.
  - split.
    + intros Hfull col p Hc. apply placePiece_column_full; [assumption |].
      apply gravity_column_full; try assumption.
      now apply (proj1 (isBoardFull_iff b) Hfull).
    + intros Hrefuse. apply isBoardFull_iff. intros c Hc Htop.
      assert (isValidMove b c = true) as Hv.
      { unfold isValidMove. destruct (Z.geb_spec c 0); [| lia].
        destruct (Z.ltb_spec c BOARD_COLS); [| lia]. cbn [andb]. now apply Z.eqb_eq. }
      destruct (placePiece_valid b c PLAYER_1 Hv) as [row [Hrun [Hrow _]]].
      rewrite (Hrefuse c PLAYER_1 Hc) in Hrun. injection Hrun as Hr _. lia.
Qed.

Lemma isBoardFull_exact_witness :
  gravity boardDraw /\ isBoardFull boardDraw = true /\ allOccupied boardDraw.
Proof.
  assert (gravity boardDraw) as Hg by (apply gravityb_iff; reflexivity).
  split; [exact Hg |]. split; [reflexivity |].
  exact (proj1 (proj1 (isBoardFull_exact boardDraw Hg)) eq_refl).
Defined.

(** Without the invariant the test can answer true on a board that takes
    another piece. *)

Example isBoardFull_with_hole :
  isBoardFull boardWithHole = true
  /\ gravityb boardWithHole = false
  /\ placePiece boardWithHole 0 PLAYER_1 = Returns (1, setCell boardWithHole 1 0 PLAYER_1).
Proof. repeat split; reflexivity. Qed.

(** ** The win test at its edges *)

(** X7.  [checkForWin] panics exactly when the position is outside the
    board; on the board it returns (its loops end), with 0 or the occupant of
    the cell; and on an empty cell it returns 0, also when the cell lies in a
    row of four or more empty cells. *)
Theorem checkForWin_edges (b : BoardT) (row col : Z) :
  (checkForWin b row col = IndexPanic <-> inRange row col = false)
  /\ (inRange row col = true ->
        (checkForWin b row col = Returns 0
         \/ checkForWin b row col = Returns (cellAt b row col))
        /\ (cellAt b row col = CELL_EMPTY -> checkForWin b row col = Returns 0)).
Proof.
  destruct (inRange row col) eqn:Hin.
  - rewrite checkForWin_returns by assumption. split.
    + split; discriminate.
    + intros _. split.
      * destruct (onLineOfFour b (cellAt b row col) row col); [right | left]; reflexivity.
      * intros ->. destruct (onLineOfFour b CELL_EMPTY row col); reflexivity.
  - split; [| discriminate]. split; [reflexivity |]. intros _.
    unfold checkForWin. now rewrite load_outside.
Qed.

Lemma checkForWin_edges_witness :
  inRange 5 3 = true /\ cellAt emptyBoard 5 3 = CELL_EMPTY
  /\ fourFrom emptyBoard CELL_EMPTY 5 0 0 1 = true
  /\ checkForWin emptyBoard 5 3 = Returns 0
  /\ checkForWin emptyBoard 6 3 = IndexPanic.
Proof.
  split; [reflexivity |]. split; [reflexivity |]. split; [reflexivity |]. split.
  - exact (proj2 (proj2 (checkForWin_edges emptyBoard 5 3) eq_refl) eq_refl).
  - exact (proj2 (proj1 (checkForWin_edges emptyBoard 6 3)) eq_refl).
Defined.

(** ** The probe and the real move *)

(** X8.  The probe predicts the move: for a column of the board and a side
    [p] other than 0, [wouldWin] answers true exactly when [placePiece] with
    the same arguments lands a piece and [checkForWin] on the landing cell
    then returns [p].  (For [p = 0] it answers true for every column with an
    empty cell, since the win test then returns 0, which is [p].) *)
Theorem wouldWin_predicts_move (b : BoardT) (col p : Z) :
  0 <= col < BOARD_COLS ->
  (p <> 0 ->
     (wouldWin b col p = Returns (true, b)
      <-> exists row b', placePiece b col p = Returns (row, b') /\ row <> -1
            /\ checkForWin b' row col = Returns p)
     /\ (wouldWin b col p = Returns (false, b)
         <-> ~ exists row b', placePiece b col p = Returns (row, b') /\ row <> -1
               /\ checkForWin b' row col = Returns p))
  /\ (p = 0 -> isValidMove b col = true -> wouldWin b col p = Returns (true, b)).
Proof.
  intros Hcol. split.
  - intros Hp. rewrite wouldWin_wouldComplete by assumption.
    assert (wouldComplete b col p = true
            <-> exists row b', placePiece b col p = Returns (row, b') /\ row <> -1
                  /\ checkForWin b' row col = Returns p) as Hiff.
    { unfold wouldComplete.
      destruct (placePiece_scan b col p Hcol) as [row [Hres Hrun]]. rewrite Hrun.
      destruct (Z.eqb_spec row (-1)) as [-> | Hrow]; cbn [negb andb].
      - split; [discriminate |]. intros [row' [b' [Hrun' [Hrow' _]]]].
        injection Hrun' as Hr _. congruence.
      - destruct (scanResult_empty_cell _ _ _ _ Hres Hrow) as [Hr He].
        assert (inRange row col = true) as Hin by (apply inRange_iff; auto).
        assert (checkForWin (setCell b row col p) row col
                = Returns (if onLineOfFour (setCell b row col p) p row col then p else 0))
          as Hcheck.
        { rewrite checkForWin_returns by assumption.
          now rewrite cellAt_setCell_same by assumption. }
        split.
        + intros Hline. exists row, (setCell b row col p).
          split; [reflexivity |]. split; [assumption |]. now rewrite Hcheck, Hline.
        + intros [row' [b' [Hrun' [_ Hwin]]]]. injection Hrun' as <- <-.
          rewrite Hcheck in Hwin.
          destruct (onLineOfFour (setCell b row col p) p row col); [reflexivity |].
          injection Hwin as Hwin. congruence. }
    split.
    + rewrite <- Hiff. split; [intros H; now injection H as -> | intros ->; reflexivity].
    + rewrite <- Hiff. split.
      * intros H. injection H as ->. discriminate.
      * intros H. destruct (wouldComplete b col p); [contradiction | reflexivity].
  - intros -> Hv. destruct (wouldWin_returns b col 0 Hcol) as [row [Hres ->]].
    apply isValidMove_range in Hv. destruct Hv as [_ Htop].
    destruct (scanResult_cases _ _ _ _ Hres) as [[-> Hall] | [Hr _]].
    + exfalso. apply (Hall 0); [unfold BOARD_ROWS; lia | assumption].
    + destruct (Z.eqb_spec row (-1)); [lia |].
      destruct (onLineOfFour (setCell b row col 0) 0 row col); reflexivity.
Qed.

Lemma wouldWin_predicts_move_witness :
  0 <= 2 < BOARD_COLS /\ PLAYER_2 <> 0
  /\ wouldWin boardWinAt2BlockAt5 2 PLAYER_2 = Returns (true, boardWinAt2BlockAt5)
  /\ exists row b', placePiece boardWinAt2BlockAt5 2 PLAYER_2 = Returns (row, b')
       /\ row <> -1 /\ checkForWin b' row 2 = Returns PLAYER_2.
Proof.
  assert (0 <= 2 < BOARD_COLS) as Hcol by (unfold BOARD_COLS; lia).
  assert (PLAYER_2 <> 0) as Hp by discriminate.
  assert (wouldWin boardWinAt2BlockAt5 2 PLAYER_2 = Returns (true, boardWinAt2BlockAt5))
    as Hw by (vm_compute; reflexivity).
  split; [exact Hcol |]. split; [exact Hp |]. split; [exact Hw |].
  exact (proj1 (proj1 (proj1 (wouldWin_predicts_move boardWinAt2BlockAt5 2 PLAYER_2 Hcol) Hp))
           Hw).
Defined.

(** The landing row does not depend on the side. *)

Lemma scanResult_unique (b : BoardT) (col n row row' : Z) :
  scanResult b col n row -> scanResult b col n row' -> row = row'.
Proof.
  intros H H'.
  destruct (scanResult_cases _ _ _ _ H) as [[-> Ha] | [Hr [He Ha]]];
  destruct (scanResult_cases _ _ _ _ H') as [[-> Ha'] | [Hr' [He' Ha']]]; try reflexivity.
  - exfalso. apply (Ha row'); assumption.
  - exfalso. apply (Ha' row); assumption.
  - destruct (Z.lt_trichotomy row row') as [Hlt | [Heq | Hgt]]; [| assumption |].
    + exfalso. apply (Ha row'); [lia | assumption].
    + exfalso. apply (Ha' row); [lia | assumption].
Qed.

Lemma placePiece_row_scan (b : BoardT) (col p row : Z) (b' : BoardT) :
  0 <= col < BOARD_COLS -> placePiece b col p = Returns (row, b') ->
  scanResult b col BOARD_ROWS row.
Proof.
  intros Hcol Hrun. destruct (placePiece_scan b col p Hcol) as [r [Hres Hrun']].
  rewrite Hrun in Hrun'. injection Hrun' as -> _. exact Hres.
Qed.

(** ** The automated move, by [aiMakeMove] and by [aiMoveAPI] *)

Section AutomatedMove.

Variable rand_Intn : Z -> Z.
Hypothesis rand_Intn_range : forall n, 0 < n -> 0 <= rand_Intn n < n.

(** Both functions choose the column with [getBestMove], drop a piece of
    side 2 and run [checkGameEnd]; they differ in what follows. *)

Lemma automated_move_shape (gs : GameState) :
  exists c row,
    0 <= c < BOARD_COLS
    /\ getBestMove rand_Intn (Board gs) = Returns (c, Board gs)
    /\ (getValidMoves (Board gs) <> [] -> isValidMove (Board gs) c = true)
    /\ scanResult (Board gs) c BOARD_ROWS row
    /\ ((row = -1
         /\ aiMakeMove rand_Intn gs = Returns gs
         /\ aiMoveAPI rand_Intn gs MethodPost
            = Returns (gs, HttpError StatusInternalServerError))
        \/ (row <> -1
            /\ exists gs1,
                 checkGameEnd (withBoard gs (setCell (Board gs) row c PLAYER_2)) row c
                 = Returns gs1
                 /\ aiMakeMove rand_Intn gs
                    = Returns (if GameOver gs1 then gs1
                               else withStatusMessage (withCurrentPlayer gs1 PLAYER_1) "")
                 /\ aiMoveAPI rand_Intn gs MethodPost
                    = Returns (gs1, Json (mkGameResponse true (StatusMessage gs1) true
                                            (Winner gs1))))).
Proof.
  destruct (getBestMove_column rand_Intn rand_Intn_range (Board gs))
    as [c [Hbest [Hc [Hvalid _]]]].
  destruct (placePiece_scan (Board gs) c PLAYER_2 Hc) as [row [Hres Hplace]].
  exists c, row. repeat (split; [assumption |]).
  unfold aiMakeMove, aiMoveAPI. cbn [MethodPost String.eqb Ascii.eqb Bool.eqb negb].
  rewrite Hbest, !bind_Returns, Hplace, !bind_Returns.
  destruct (Z.eqb_spec row (-1)) as [-> | Hrow].
  - left. rewrite withBoard_same. repeat split; reflexivity.
  - right. split; [assumption |].
    destruct (scanResult_empty_cell _ _ _ _ Hres Hrow) as [Hr _].
    destruct (checkGameEnd_outcome
                (withBoard gs (setCell (Board gs) row c PLAYER_2)) row c)
      as [_ [gs1 [_ [Hend _]]]]; [apply inRange_iff; auto |].
    exists gs1. rewrite Hend, !bind_Returns. split; [reflexivity |].
    destruct (GameOver gs1); split; reflexivity.
Qed.

(** X9.  The automated player never misses a win in one move: when some
    column with room completes four for side 2, [aiMakeMove] drops its piece
    into the leftmost such column and the game is over with side 2 as
    winner; [aiMoveAPI] leaves the same board and verdict. *)
Theorem automated_player_takes_win (gs : GameState) (c0 : Z) :
  winningColumn (Board gs) PLAYER_2 c0 ->
  exists c row gs1 gs2 reply,
    leftmostWinning (Board gs) PLAYER_2 c
    /\ aiMakeMove rand_Intn gs = Returns gs1
    /\ aiMoveAPI rand_Intn gs MethodPost = Returns (gs2, reply)
    /\ Board gs1 = setCell (Board gs) row c PLAYER_2 /\ Board gs2 = Board gs1
    /\ cellAt (Board gs) row c = CELL_EMPTY
    /\ GameOver gs1 = true /\ Winner gs1 = PLAYER_2
    /\ GameOver gs2 = true /\ Winner gs2 = PLAYER_2.
Proof.
  intros Hwin0.
  destruct (automated_move_shape gs) as [c [row [Hc [Hbest [_ [Hres Hcases]]]]]].
  destruct (getBestMove_rules rand_Intn rand_Intn_range (Board gs)) as [c' [Hbest' Hrules]].
  rewrite Hbest in Hbest'. injection Hbest' as <-.
  assert (leftmostWinning (Board gs) PLAYER_2 c) as Hleft.
  { destruct Hrules as [Hl | [[Hno _] | [[Hno _] | [[Hno _] | [Hnone _]]]]];
      try exact Hl; try (exfalso; exact (Hno c0 Hwin0)).
    exfalso. destruct Hwin0 as [Hv _]. rewrite Hnone in Hv. discriminate. }
  pose proof Hleft as Hleft0. destruct Hleft as [[Hv Hw] Hleast].
  destruct (placePiece_valid (Board gs) c PLAYER_2 Hv) as [row' [Hplace [Hrow' [Hin He]]]].
  unfold wouldComplete in Hw. rewrite Hplace in Hw.
  destruct (Z.eqb_spec row' (-1)); [contradiction |]. cbn [negb andb] in Hw.
  assert (row = row') as ->.
  { apply (scanResult_unique (Board gs) c BOARD_ROWS); [exact Hres |].
    exact (placePiece_row_scan _ _ _ _ _ Hc Hplace). }
  destruct Hcases as [[Hneg _] | [_ [gs1 [Hend [Hai Hapi]]]]]; [contradiction |].
  destruct (checkGameEnd_outcome
              (withBoard gs (setCell (Board gs) row' c PLAYER_2)) row' c Hin)
    as [winner [gs1' [Hcheck [Hend' [Hb [_ [Hwon _]]]]]]].
  rewrite Hend in Hend'. injection Hend' as <-.
  cbn [withBoard Board] in Hcheck, Hb.
  rewrite checkForWin_returns, cellAt_setCell_same, Hw in Hcheck by assumption.
  injection Hcheck as <-.
  destruct (Hwon eq_refl) as [Hover [Hwinner _]].
  rewrite Hover in Hai.
  exists c, row', gs1, gs1. eexists.
  split; [exact Hleft0 |].
  repeat (split; [eassumption || reflexivity |]). assumption.
Qed.

(** X10.  The automated player blocks: when no column completes four for
    side 2 and some column with room would complete four for side 1, the
    piece of side 2 goes into the leftmost such column, onto the very cell
    where the piece of side 1 would have landed. *)
Theorem automated_player_blocks (gs : GameState) (c0 : Z) :
  noWinning (Board gs) PLAYER_2 -> winningColumn (Board gs) PLAYER_1 c0 ->
  exists c row gs1,
    leftmostWinning (Board gs) PLAYER_1 c
    /\ placePiece (Board gs) c PLAYER_1 = Returns (row, setCell (Board gs) row c PLAYER_1)
    /\ row <> -1
    /\ checkForWin (setCell (Board gs) row c PLAYER_1) row c = Returns PLAYER_1
    /\ aiMakeMove rand_Intn gs = Returns gs1
    /\ Board gs1 = setCell (Board gs) row c PLAYER_2.
Proof.
  intros Hno2 Hwin0.
  destruct (getBestMove_rules rand_Intn rand_Intn_range (Board gs)) as [c [Hbest Hrules]].
  assert (leftmostWinning (Board gs) PLAYER_1 c) as Hleft.
  { destruct Hrules as [[Hw _] | [[_ Hl] | [[_ [Hno _]] | [[_ [Hno _]] | [Hnone _]]]]];
      try exact Hl; try (exfalso; exact (Hno c0 Hwin0)).
    - exfalso. exact (Hno2 c Hw).
    - exfalso. destruct Hwin0 as [Hv _]. rewrite Hnone in Hv. discriminate. }
  pose proof Hleft as Hleft0. destruct Hleft as [[Hv Hw] Hleast].
  destruct (isValidMove_range _ _ Hv) as [Hc _].
  destruct (placePiece_valid (Board gs) c PLAYER_1 Hv) as [row [Hplace1 [Hrow [Hin He]]]].
  destruct (placePiece_valid (Board gs) c PLAYER_2 Hv) as [row2 [Hplace2 [Hrow2 [Hin2 He2]]]].
  assert (row2 = row) as ->.
  { apply (scanResult_unique (Board gs) c BOARD_ROWS).
    - exact (placePiece_row_scan _ _ _ _ _ Hc Hplace2).
    - exact (placePiece_row_scan _ _ _ _ _ Hc Hplace1). }
  unfold wouldComplete in Hw. rewrite Hplace1 in Hw.
  destruct (Z.eqb_spec row (-1)); [contradiction |]. cbn [negb andb] in Hw.
  destruct (aiMakeMove_one_piece rand_Intn rand_Intn_range gs)
    as [c' [row' [gs1 [Hbest' [_ [_ [Hplace' [Hai [Hb _]]]]]]]]].
  { destruct (isBoardFull (Board gs)) eqn:Hfull; [| reflexivity].
    apply isBoardFull_getValidMoves in Hfull. apply In_getValidMoves in Hv.
    rewrite Hfull in Hv. contradiction. }
  rewrite Hbest in Hbest'. injection Hbest' as <-.
  rewrite Hplace2 in Hplace'. injection Hplace' as <-.
  exists c, row, gs1.
  split; [exact Hleft0 |].
  split; [exact Hplace1 |]. split; [assumption |]. split.
  - rewrite checkForWin_returns, cellAt_setCell_same, Hw by assumption. reflexivity.
  - split; assumption.
Qed.

(** With one random source for both, [aiMakeMove] and [aiMoveAPI] make the
    same move. *)

Lemma automated_moves_one_source (gs : GameState) :
  exists gs1 gs2 reply,
    aiMakeMove rand_Intn gs = Returns gs1
    /\ aiMoveAPI rand_Intn gs MethodPost = Returns (gs2, reply)
    /\ Board gs2 = Board gs1 /\ Mode gs2 = Mode gs1
    /\ GameOver gs2 = GameOver gs1 /\ Winner gs2 = Winner gs1
    /\ (isBoardFull (Board gs) = false -> GameOver gs1 = false ->
          CurrentPlayer gs1 = PLAYER_1
          /\ (Mode gs = GAME_MODE_AI -> CurrentPlayer gs = PLAYER_2 ->
                CurrentPlayer gs2 = PLAYER_2)).
Proof.
  destruct (automated_move_shape gs) as [c [row [Hc [Hbest [Hvalid [Hres Hcases]]]]]].
  destruct Hcases as [[-> [Hai Hapi]] | [Hrow [gs1 [Hend [Hai Hapi]]]]].
  - exists gs, gs. eexists. split; [exact Hai |]. split; [exact Hapi |].
    do 4 (split; [reflexivity |]).
    intros Hroom _. exfalso.
    assert (getValidMoves (Board gs) <> []) as Hne.
    { intros Hnil. apply isBoardFull_getValidMoves in Hnil. congruence. }
    apply isValidMove_range in Hvalid; [| exact Hne]. destruct Hvalid as [_ Htop].
    destruct (scanResult_cases _ _ _ _ Hres) as [[_ Hall] | [Hr _]]; [| lia].
    apply (Hall 0); [unfold BOARD_ROWS; lia | assumption].
  - destruct (scanResult_empty_cell _ _ _ _ Hres Hrow) as [Hr _].
    destruct (checkGameEnd_outcome
                (withBoard gs (setCell (Board gs) row c PLAYER_2)) row c)
      as [winner [gs1' [_ [Hend' [_ [_ [Hw [Hd Hg]]]]]]]]; [apply inRange_iff; auto |].
    rewrite Hend in Hend'. injection Hend' as <-.
    destruct (GameOver gs1) eqn:Hover.
    + exists gs1, gs1. eexists. split; [exact Hai |]. split; [exact Hapi |].
      do 3 (split; [reflexivity |]). split; [reflexivity |].
      intros _ H. congruence.
    + exists (withStatusMessage (withCurrentPlayer gs1 PLAYER_1) ""), gs1. eexists.
      split; [exact Hai |]. split; [exact Hapi |].
      do 3 (split; [reflexivity |]). split; [reflexivity |].
      intros _ _. split; [reflexivity |].
      intros Hmode Hside.
      destruct (Z_gt_le_dec winner 0) as [Hpos | Hnon];
        [destruct (Hw Hpos) as [H _]; congruence |].
      destruct (isBoardFull (Board (withBoard gs (setCell (Board gs) row c PLAYER_2))))
        eqn:Hfull; [destruct (Hd Hnon eq_refl) as [H _]; congruence |].
      destruct (Hg Hnon eq_refl) as [_ [_ ->]].
      assert (turnPasses (withBoard gs (setCell (Board gs) row c PLAYER_2)) = false) as Hpass.
      { unfold turnPasses. cbn [withBoard Mode CurrentPlayer]. rewrite Hmode, Hside.
        reflexivity. }
      rewrite Hpass. exact Hside.
Qed.

End AutomatedMove.

Lemma automated_player_takes_win_witness :
  winningColumn boardWinAt2BlockAt5 PLAYER_2 2
  /\ exists gs1,
       aiMakeMove firstIndex (mkGameState boardWinAt2BlockAt5 PLAYER_2 GAME_MODE_AI false 0 "")
       = Returns gs1
       /\ GameOver gs1 = true /\ Winner gs1 = PLAYER_2.
Proof.
  assert (winningColumn boardWinAt2BlockAt5 PLAYER_2 2) as Hw by (split; reflexivity).
  split; [exact Hw |].
  destruct (automated_player_takes_win firstIndex firstIndex_in_range
              (mkGameState boardWinAt2BlockAt5 PLAYER_2 GAME_MODE_AI false 0 "") 2 Hw)
    as [c [row [gs1 [gs2 [reply [_ [Hai [_ [_ [_ [_ [Hover [Hwin _]]]]]]]]]]]]].
  exists gs1. split; [exact Hai |]. split; assumption.
Defined.

Lemma noWinning_boardBlockAt5 : noWinning boardBlockAt5 PLAYER_2.
Proof.
  intros c [Hv Hw]. apply isValidMove_range in Hv. destruct Hv as [Hc _].
  unfold BOARD_COLS in Hc.
  assert (c = 0 \/ c = 1 \/ c = 2 \/ c = 3 \/ c = 4 \/ c = 5 \/ c = 6) as Hcases by lia.
  repeat (destruct Hcases as [-> | Hcases]); try subst c; vm_compute in Hw; discriminate.
Defined.

Lemma automated_player_blocks_witness :
  noWinning boardBlockAt5 PLAYER_2 /\ winningColumn boardBlockAt5 PLAYER_1 5
  /\ exists gs1,
       aiMakeMove firstIndex (mkGameState boardBlockAt5 PLAYER_2 GAME_MODE_AI false 0 "")
       = Returns gs1
       /\ cellAt (Board gs1) 1 5 = PLAYER_2.
Proof.
  assert (winningColumn boardBlockAt5 PLAYER_1 5) as Hw by (split; reflexivity).
  split; [exact noWinning_boardBlockAt5 |]. split; [exact Hw |].
  destruct (automated_player_blocks firstIndex firstIndex_in_range
              (mkGameState boardBlockAt5 PLAYER_2 GAME_MODE_AI false 0 "") 5
              noWinning_boardBlockAt5 Hw)
    as [c [row [gs1 [_ [_ [_ [_ [Hai _]]]]]]]].
  exists gs1. split; [exact Hai |].
  assert (aiMakeMove firstIndex (mkGameState boardBlockAt5 PLAYER_2 GAME_MODE_AI false 0 "")
          = Returns (mkGameState (setCell boardBlockAt5 1 5 PLAYER_2) PLAYER_1 GAME_MODE_AI
                       false 0 "")) as Hval by (vm_compute; reflexivity).
  rewrite Hai in Hval. injection Hval as ->. reflexivity.
Defined.

(** The column chosen by [getBestMove] depends on the random source only
    through the one draw of [findRandomValidMove]. *)

Lemma getBestMove_sameDraw (r1 r2 : Z -> Z) (b : BoardT) :
  sameDraw r1 r2 b -> getBestMove r1 b = getBestMove r2 b.
Proof.
  intros Hsame. unfold getBestMove.
  rewrite (findWinningMove_find b PLAYER_2) by discriminate. rewrite !bind_Returns.
  destruct (negb (_ =? -1)); [reflexivity |].
  rewrite (findWinningMove_find b PLAYER_1) by discriminate. rewrite !bind_Returns.
  destruct (negb (_ =? -1)); [reflexivity |].
  destruct (isValidMove b 3); [reflexivity |].
  unfold findRandomValidMove. unfold sameDraw in Hsame. rewrite Hsame. reflexivity.
Qed.

Ltac rules_clash :=
  exfalso;
  match goal with
  | N : noWinning ?b ?p, L : leftmostWinning ?b ?p ?c |- _ => exact (N c (proj1 L))
  | N : noWinning ?b ?p, W : winningColumn ?b ?p ?c |- _ => exact (N c W)
  | H : forall c, isValidMove ?b c = false, L : leftmostWinning ?b _ ?c |- _ =>
      pose proof (proj1 (proj1 L)) as Hv; rewrite H in Hv; discriminate
  | H : forall c, isValidMove ?b c = false, W : winningColumn ?b _ ?c |- _ =>
      pose proof (proj1 W) as Hv; rewrite H in Hv; discriminate
  | H : forall c, isValidMove ?b c = false, V : isValidMove ?b _ = true |- _ =>
      rewrite H in V; discriminate
  | V : isValidMove ?b 3 = true, V' : isValidMove ?b 3 = false |- _ => congruence
  end.

Lemma getBestMove_no_draw (r1 r2 : Z -> Z) (b : BoardT) :
  (forall n, 0 < n -> 0 <= r1 n < n) -> (forall n, 0 < n -> 0 <= r2 n < n) ->
  noDrawNeeded b -> getBestMove r1 b = getBestMove r2 b.
Proof.
  intros Hr1 Hr2 Hno.
  destruct (getBestMove_rules r1 Hr1 b) as [c1 [-> D1]].
  destruct (getBestMove_rules r2 Hr2 b) as [c2 [-> D2]].
  assert (c1 = c2) as ->; [| reflexivity].
  destruct D1 as [L2 | [[N2 L1] | [[N2 [N1 [V3 E]]] | [[N2 [N1 [V3 Vc]]] | [Hnone E]]]]];
  destruct D2 as [L2' | [[N2' L1'] | [[N2' [N1' [V3' E']]]
                 | [[N2' [N1' [V3' Vc']]] | [Hnone' E']]]]];
  try (eapply leftmostWinning_unique; eassumption);
  try (subst; reflexivity);
  try rules_clash;
  destruct Hno as [[c W2] | [[c W1] | [V | Hall]]]; rules_clash.
Qed.

(** X11.  [aiMakeMove] and [aiMoveAPI] on the same state both return, and
    neither changes the mode.  The random source of each call is its own.
    When none is consulted (some column wins for side 2 or for side 1, or the
    centre column has room, or no column has), or when the one draw of each
    call is the same, they leave the same board and the same verdict.  They
    differ in the side to move: when the game goes on, [aiMakeMove] hands the
    turn to side 1, while [aiMoveAPI] leaves it to [checkGameEnd], so that in
    ai mode with side 2 to move it is still the turn of side 2. *)
Theorem aiMoveAPI_makes_same_move (r1 r2 : Z -> Z) (gs : GameState) :
  (forall n, 0 < n -> 0 <= r1 n < n) -> (forall n, 0 < n -> 0 <= r2 n < n) ->
  exists gs1 gs2 reply,
    aiMakeMove r1 gs = Returns gs1
    /\ aiMoveAPI r2 gs MethodPost = Returns (gs2, reply)
    /\ Mode gs1 = Mode gs /\ Mode gs2 = Mode gs
    /\ (isBoardFull (Board gs) = false -> GameOver gs1 = false ->
          CurrentPlayer gs1 = PLAYER_1)
    /\ (isBoardFull (Board gs) = false -> GameOver gs2 = false ->
          Mode gs = GAME_MODE_AI -> CurrentPlayer gs = PLAYER_2 ->
          CurrentPlayer gs2 = PLAYER_2)
    /\ (noDrawNeeded (Board gs) \/ sameDraw r1 r2 (Board gs) ->
          Board gs2 = Board gs1 /\ GameOver gs2 = GameOver gs1
          /\ Winner gs2 = Winner gs1).
Proof.
  intros Hr1 Hr2.
  destruct (automated_moves_one_source r1 Hr1 gs)
    as [gs1 [gsa [ra [Hai1 [_ [_ [_ [_ [_ Ht1]]]]]]]]].
  destruct (automated_moves_one_source r2 Hr2 gs)
    as [gsb [gs2 [reply [Hai2 [Hapi2 [Hb2 [_ [Ho2 [Hw2 Ht2]]]]]]]]].
  assert (forall s col row b s',
            playKept gs s -> True ->
            placePiece (Board s) col PLAYER_2 = Returns (row, b) -> row <> -1 ->
            checkGameEnd (withBoard s b) row col = Returns s' -> playKept gs s') as Hauto
    by (intros; eapply playKept_step; eassumption).
  assert (playKept gs gs1) as [_ [Hm1 _]].
  { exact (aiMakeMove_preserves r1 Hr1 (playKept gs) (fun s m H => H) (fun s H => H)
             (fun _ => True) Hauto gs gs1 (playKept_refl gs) I Hai1). }
  assert (playKept gs gs2) as [_ [Hm2 _]].
  { exact (aiMoveAPI_preserves r2 Hr2 (playKept gs) (fun _ => True) Hauto
             gs MethodPost gs2 reply (playKept_refl gs) I Hapi2). }
  exists gs1, gs2, reply.
  split; [exact Hai1 |]. split; [exact Hapi2 |]. split; [exact Hm1 |]. split; [exact Hm2 |].
  split; [| split].
  - intros Hroom Hover. exact (proj1 (Ht1 Hroom Hover)).
  - intros Hroom Hover Hmode Hside. rewrite Ho2 in Hover.
    exact (proj2 (Ht2 Hroom Hover) Hmode Hside).
  - intros Hagree.
    assert (getBestMove r1 (Board gs) = getBestMove r2 (Board gs)) as Hsame.
    { destruct Hagree as [Hno | Hdraw];
        [now apply getBestMove_no_draw | now apply getBestMove_sameDraw]. }
    assert (aiMakeMove r1 gs = aiMakeMove r2 gs) as Hmove
      by (unfold aiMakeMove; rewrite Hsame; reflexivity).
    rewrite Hai1, Hai2 in Hmove. injection Hmove as ->.
    split; [exact Hb2 |]. split; [exact Ho2 | exact Hw2].
Qed.

Lemma firstOfSix_in_range : forall n, 0 < n -> 0 <= firstOfSix n < n.
Proof. intros n Hn. unfold firstOfSix. destruct (Z.eqb_spec n 6); lia. Defined.

Lemma aiMoveAPI_makes_same_move_witness :
  sameDraw firstIndex firstOfSix (Board gsCentreFull)
  /\ firstIndex 3 <> firstOfSix 3
  /\ exists gs1 gs2 reply,
       aiMakeMove firstIndex gsCentreFull = Returns gs1
       /\ aiMoveAPI firstOfSix gsCentreFull MethodPost = Returns (gs2, reply)
       /\ Board gs2 = Board gs1.
Proof.
  assert (sameDraw firstIndex firstOfSix (Board gsCentreFull)) as Hdraw by reflexivity.
  split; [exact Hdraw |]. split; [intros H; vm_compute in H; discriminate |].
  destruct (aiMoveAPI_makes_same_move firstIndex firstOfSix gsCentreFull
              firstIndex_in_range firstOfSix_in_range)
    as [gs1 [gs2 [reply [Hai [Hapi [_ [_ [_ [_ Hsame]]]]]]]]].
  exists gs1, gs2, reply. split; [exact Hai |]. split; [exact Hapi |].
  exact (proj1 (Hsame (or_intror Hdraw))).
Defined.

(** With different draws the two moves differ: on the board with the centre
    column full, where the column is drawn among six, index 0 sends the piece
    to column 0 and index 5 to column 6. *)

Example automated_moves_differ_by_draw :
  ~ noDrawNeeded (Board gsCentreFull)
  /\ ~ sameDraw firstIndex lastIndex (Board gsCentreFull)
  /\ exists gs1 gs2 reply,
       aiMakeMove firstIndex gsCentreFull = Returns gs1
       /\ aiMoveAPI lastIndex gsCentreFull MethodPost = Returns (gs2, reply)
       /\ cellAt (Board gs1) 5 0 = PLAYER_2 /\ cellAt (Board gs2) 5 0 = CELL_EMPTY
       /\ cellAt (Board gs1) 5 6 = CELL_EMPTY /\ cellAt (Board gs2) 5 6 = PLAYER_2.
Proof.
  split; [| split].
  - intros Hno.
    assert (getBestMove firstIndex (Board gsCentreFull)
            = getBestMove lastIndex (Board gsCentreFull)) as Hsame
      by (apply getBestMove_no_draw;
          [exact firstIndex_in_range | exact lastIndex_in_range | exact Hno]).
    vm_compute in Hsame. discriminate.
  - unfold sameDraw. vm_compute. discriminate.
  - do 3 eexists. split; [vm_compute; reflexivity |].
    split; [vm_compute; reflexivity |]. repeat split; reflexivity.
Qed.

(** ** Counting pieces *)

Lemma filter_length_one_more {A : Type} (f g hit : A -> bool) (l : list A) :
  (forall x, hit x = true -> f x = false /\ g x = true) ->
  (forall x, hit x = false -> g x = f x) ->
  List.length (filter g l) = (List.length (filter f l) + List.length (filter hit l))%nat.
Proof.
  intros Hhit Hmiss. induction l as [| x l IH]; [reflexivity |].
  cbn [filter]. destruct (hit x) eqn:Hx.
  - destruct (Hhit x Hx) as [-> ->]. cbn [List.length]. rewrite IH. lia.
  - rewrite (Hmiss x Hx). destruct (f x); cbn [List.length]; rewrite IH; lia.
Qed.

Lemma isCell_once (i j : Z) :
  inRange i j = true -> List.length (filter (isCell i j) allCells) = 1%nat.
Proof.
  intros Hin. apply inRange_iff in Hin. unfold BOARD_ROWS, BOARD_COLS in Hin.
  destruct Hin as [Hi Hj].
  assert (i = 0 \/ i = 1 \/ i = 2 \/ i = 3 \/ i = 4 \/ i = 5) as Hr by lia.
  assert (j = 0 \/ j = 1 \/ j = 2 \/ j = 3 \/ j = 4 \/ j = 5 \/ j = 6) as Hc by lia.
  repeat (destruct Hr as [-> | Hr]); [.. | subst i];
    repeat (destruct Hc as [-> | Hc]); try subst j; reflexivity.
Qed.

Lemma pieces_setCell (b : BoardT) (row col p : Z) :
  inRange row col = true -> cellAt b row col = CELL_EMPTY -> p <> CELL_EMPTY ->
  pieces (setCell b row col p) = pieces b + 1.
Proof.
  intros Hin He Hp. unfold pieces.
  rewrite (filter_length_one_more
             (fun c => negb (cellAt b (fst c) (snd c) =? CELL_EMPTY))
             (fun c => negb (cellAt (setCell b row col p) (fst c) (snd c) =? CELL_EMPTY))
             (isCell row col)).
  - rewrite isCell_once by assumption. lia.
  - intros [i j] Hx. unfold isCell in Hx. cbn [fst snd] in *.
    apply andb_true_iff in Hx. destruct Hx as [Hi Hj].
    apply Z.eqb_eq in Hi. apply Z.eqb_eq in Hj. subst i j.
    rewrite cellAt_setCell_same, He by assumption. split; [reflexivity |].
    apply negb_true_iff, Z.eqb_neq. exact Hp.
  - intros [i j] Hx. unfold isCell in Hx. cbn [fst snd] in *.
    rewrite cellAt_setCell by assumption. rewrite Hx. reflexivity.
Qed.

Lemma pieces_bounds (b : BoardT) : 0 <= pieces b <= 42.
Proof.
  unfold pieces. split; [lia |].
  pose proof (filter_length_le
                (fun c => negb (cellAt b (fst c) (snd c) =? CELL_EMPTY)) allCells) as H.
  change (List.length allCells) with 42%nat in H. lia.
Qed.

(** X12.  A piece that lands adds exactly one to the number of occupied
    cells, and a refused drop leaves that number; there are never more than
    42.  For [handleMoveAPI] the reply tells which: [Success] is true exactly
    when the board has one more piece. *)
Theorem accepted_move_adds_one_piece (gs : GameState) :
  (forall col p row b',
     p <> CELL_EMPTY -> placePiece (Board gs) col p = Returns (row, b') ->
     pieces b' = pieces (Board gs) + (if row =? -1 then 0 else 1)
     /\ 0 <= pieces b' <= 42)
  /\ (forall reqCol gs' resp,
        sideToMove gs -> handleMoveAPI gs MethodPost reqCol = Returns (gs', Json resp) ->
        pieces (Board gs') = pieces (Board gs) + (if Success resp then 1 else 0)).
Proof.
  assert (forall col p row b',
            p <> CELL_EMPTY -> placePiece (Board gs) col p = Returns (row, b') ->
            pieces b' = pieces (Board gs) + (if row =? -1 then 0 else 1)) as Hplace.
  { intros col p row b' Hp Hrun. destruct (Z.eqb_spec row (-1)) as [-> | Hrow].
    - rewrite (placePiece_refused _ _ _ _ Hrun). lia.
    - destruct (placePiece_landing _ _ _ _ _ Hrun Hrow) as [Hin [He ->]].
      now apply pieces_setCell. }
  split.
  - intros col p row b' Hp Hrun. split; [exact (Hplace col p row b' Hp Hrun) | apply pieces_bounds].
  - intros reqCol gs' resp Hside. unfold handleMoveAPI.
    cbn [MethodPost String.eqb Ascii.eqb Bool.eqb negb].
    destruct (placePiece (Board gs) reqCol (CurrentPlayer gs)) as [[row b] | |] eqn:Hrun;
      cbn [bind]; try discriminate.
    assert (CurrentPlayer gs <> CELL_EMPTY) as Hp
      by (destruct Hside as [-> | ->]; discriminate).
    pose proof (Hplace reqCol _ row b Hp Hrun) as Hcount.
    destruct (Z.eqb_spec row (-1)) as [-> | Hrow].
    + intros H. injection H as <- <-. exact Hcount.
    + destruct (checkGameEnd (withBoard gs b) row reqCol) as [gs1 | |] eqn:Hend;
        cbn [bind]; try discriminate.
      destruct (checkGameEnd_keeps _ _ _ _ Hend) as [Hb _]. cbn [withBoard Board] in Hb.
      destruct (GameOver gs1); intros H; injection H as <- <-; cbn [Success];
        rewrite Hb; exact Hcount.
Qed.

Lemma accepted_move_adds_one_piece_witness :
  PLAYER_1 <> CELL_EMPTY
  /\ placePiece (Board gsWonByFirst) 0 PLAYER_1
     = Returns (5, setCell (Board gsWonByFirst) 5 0 PLAYER_1)
  /\ pieces (Board gsWonByFirst) = 7
  /\ pieces (setCell (Board gsWonByFirst) 5 0 PLAYER_1) = 7 + 1.
Proof.
  assert (PLAYER_1 <> CELL_EMPTY) as Hp by discriminate.
  split; [exact Hp |]. split; [reflexivity |]. split; [reflexivity |].
  exact (proj1 (proj1 (accepted_move_adds_one_piece gsWonByFirst) 0 PLAYER_1 5 _ Hp eq_refl)).
Defined.

(** ** Runs are determined by the board *)

Lemma run_unique (P : Z -> bool) (n n' : Z) :
  0 <= n -> 0 <= n' ->
  (forall t, 0 <= t < n -> P t = true) -> P n = false ->
  (forall t, 0 <= t < n' -> P t = true) -> P n' = false ->
  n = n'.
Proof.
  intros Hn Hn' Hray Hstop Hray' Hstop'.
  destruct (Z.lt_trichotomy n n') as [Hlt | [Heq | Hgt]]; [| assumption |].
  - rewrite Hray' in Hstop by lia. discriminate.
  - rewrite Hray in Hstop' by lia. discriminate.
Qed.

Lemma countWhile_loop_value (b : BoardT) (p dRow dCol i j count n : Z) :
  -1 <= dRow <= 1 -> -1 <= dCol <= 1 -> dRow <> 0 \/ dCol <> 0 ->
  0 <= count <= 100 -> 0 <= n ->
  (forall t, 0 <= t < n -> holds b p (i + t * dRow) (j + t * dCol) = true) ->
  holds b p (i + n * dRow) (j + n * dCol) = false ->
  countWhile loopFuel b add64 i j dRow dCol p count = Returns (count + n).
Proof.
  intros HdR HdC Hmove Hcount Hn Hray Hstop.
  destruct (countWhile_add_run b p dRow dCol HdR HdC Hmove loopFuel i j count)
    as [n' [Hn' [Hrun [Hray' Hstop']]]].
  - rewrite inRange_iff, loopFuel_value. unfold edgeDistance, BOARD_ROWS, BOARD_COLS.
    intros Hin. split_eqb; lia.
  - rewrite loopFuel_value. lia.
  - lia.
  - rewrite loopFuel_value. lia.
  - rewrite Hrun. do 2 f_equal.
    apply (run_unique (fun t => holds b p (i + t * dRow) (j + t * dCol))); auto; lia.
Qed.

Lemma holds_far_false (b : BoardT) (p row col dRow dCol s : Z) :
  inRange row col = true ->
  -1 <= dRow <= 1 -> -1 <= dCol <= 1 -> dRow <> 0 \/ dCol <> 0 ->
  8 <= s \/ s <= -8 ->
  holds b p (row + s * dRow) (col + s * dCol) = false.
Proof.
  intros Hin HdR HdC Hmove Hs. unfold holds.
  apply inRange_iff in Hin. unfold BOARD_ROWS, BOARD_COLS in Hin.
  replace (inRange (row + s * dRow) (col + s * dCol)) with false; [reflexivity |].
  symmetry. apply inRange_false_iff. unfold BOARD_ROWS, BOARD_COLS.
  assert (dRow = -1 \/ dRow = 0 \/ dRow = 1) as [-> | [-> | ->]] by lia;
    assert (dCol = -1 \/ dCol = 0 \/ dCol = 1) as [-> | [-> | ->]] by lia; lia.
Qed.

Lemma checkDirection_runs_bounded (b : BoardT) (row col dRow dCol p : Z) :
  inRange row col = true ->
  -1 <= dRow <= 1 -> -1 <= dCol <= 1 -> dRow <> 0 \/ dCol <> 0 ->
  exists ahead behind,
    0 <= ahead <= 7 /\ 0 <= behind <= 7
    /\ checkDirection b row col dRow dCol p = Returns (1 + ahead + behind)
    /\ (forall s, 1 <= s <= ahead -> holds b p (row + s * dRow) (col + s * dCol) = true)
    /\ holds b p (row + (ahead + 1) * dRow) (col + (ahead + 1) * dCol) = false
    /\ (forall s, 1 <= s <= behind -> holds b p (row + - s * dRow) (col + - s * dCol) = true)
    /\ holds b p (row + - (behind + 1) * dRow) (col + - (behind + 1) * dCol) = false.
Proof.
  intros Hin HdR HdC Hmove.
  destruct (checkDirection_runs b row col dRow dCol p Hin HdR HdC Hmove)
    as [a [bh [Ha [Hbh [Hrun [Hfw [Hfs [Hbw Hbs]]]]]]]].
  exists a, bh. repeat (split; [try assumption |]); try assumption.
  - destruct (Z_le_gt_dec a 7) as [Hle | Hgt]; [exact Hle |]. exfalso.
    specialize (Hfw 8 ltac:(lia)).
    rewrite (holds_far_false b p row col dRow dCol 8) in Hfw by (assumption || lia).
    discriminate.
  - destruct (Z_le_gt_dec bh 7) as [Hle | Hgt]; [exact Hle |]. exfalso.
    specialize (Hbw 8 ltac:(lia)).
    pose proof (holds_far_false b p row col dRow dCol (-8) Hin HdR HdC Hmove ltac:(lia)) as Hf.
    change (-8) with (- (8)) in Hf. rewrite Hf in Hbw. discriminate.
Qed.

(** X13.  The count along a line does not depend on the way the direction
    points: on a cell of the board, [checkDirection] with [(-dRow, -dCol)]
    returns what it returns with [(dRow, dCol)], for the directions that
    step by at most one row and one column. *)
Theorem checkDirection_reversed (b : BoardT) (row col dRow dCol p : Z) :
  inRange row col = true ->
  -1 <= dRow <= 1 -> -1 <= dCol <= 1 -> dRow <> 0 \/ dCol <> 0 ->
  checkDirection b row col (- dRow) (- dCol) p = checkDirection b row col dRow dCol p.
Proof.
  intros Hin HdR HdC Hmove.
  destruct (checkDirection_runs_bounded b row col dRow dCol p Hin HdR HdC Hmove)
    as [a [bh [Ha [Hbh [Hrun [Hfw [Hfs [Hbw Hbs]]]]]]]].
  rewrite Hrun. pose proof Hin as Hin'.
  apply inRange_iff in Hin'. unfold BOARD_ROWS, BOARD_COLS in Hin'.
  unfold checkDirection.
  rewrite (add64_small row (- dRow)), (add64_small col (- dCol)),
    (sub64_small row (- dRow)), (sub64_small col (- dCol)) by lia.
  rewrite (countWhile_loop_value b p (- dRow) (- dCol) _ _ 1 bh); try lia.
  - rewrite bind_Returns, countWhile_sub_as_add, !Z.opp_involutive.
    rewrite (countWhile_loop_value b p dRow dCol _ _ (1 + bh) a); try lia.
    + f_equal. lia.
    + intros t Ht. specialize (Hfw (t + 1) ltac:(lia)).
      replace (row - - dRow + t * dRow) with (row + (t + 1) * dRow) by ring.
      replace (col - - dCol + t * dCol) with (col + (t + 1) * dCol) by ring.
      exact Hfw.
    + replace (row - - dRow + a * dRow) with (row + (a + 1) * dRow) by ring.
      replace (col - - dCol + a * dCol) with (col + (a + 1) * dCol) by ring.
      exact Hfs.
  - intros t Ht. specialize (Hbw (t + 1) ltac:(lia)).
    replace (row + - dRow + t * - dRow) with (row + - (t + 1) * dRow) by ring.
    replace (col + - dCol + t * - dCol) with (col + - (t + 1) * dCol) by ring.
    exact Hbw.
  - replace (row + - dRow + bh * - dRow) with (row + - (bh + 1) * dRow) by ring.
    replace (col + - dCol + bh * - dCol) with (col + - (bh + 1) * dCol) by ring.
    exact Hbs.
Qed.

Lemma checkDirection_reversed_witness :
  inRange 3 2 = true
  /\ checkDirection boardCornerDiagonal 3 2 1 (-1) PLAYER_1 = Returns 4
  /\ checkDirection boardCornerDiagonal 3 2 (-1) 1 PLAYER_1 = Returns 4.
Proof.
  split; [reflexivity |]. split; [| vm_compute; reflexivity].
  rewrite <- (checkDirection_reversed boardCornerDiagonal 3 2 1 (-1) PLAYER_1 eq_refl);
    [vm_compute; reflexivity | lia | lia | lia].
Defined.

(** ** The earlier [checkForWin] against the final one *)

(** A loop of the earlier variant is a loop of the final one, as long as its
    one-sided bound is the only bound that can fail along its way. *)

Lemma scanWhile_countWhile (b : BoardT) (Inv : Z -> Z -> Prop)
    (guard : Z -> Z -> bool) (nextI nextJ : Z -> Z) (dRow dCol p : Z) :
  (forall i j, Inv i j -> guard i j = inRange i j) ->
  (forall i j, Inv i j -> inRange i j = true ->
     nextI i = add64 i dRow /\ nextJ j = add64 j dCol /\ Inv (nextI i) (nextJ j)) ->
  forall (fuel : nat) (i j count : Z),
    Inv i j ->
    scanWhile fuel b guard nextI nextJ i j p count
    = countWhile fuel b add64 i j dRow dCol p count.
Proof.
  intros Hguard Hstep. induction fuel as [| f IH]; intros i j count Hinv; [reflexivity |].
  cbn [scanWhile countWhile]. rewrite (Hguard i j Hinv).
  destruct (inRange i j) eqn:Hin; [| reflexivity].
  rewrite load_inRange, bind_Returns by assumption. cbn [andb].
  destruct (cellAt b i j =? p); [| reflexivity].
  destruct (Hstep i j Hinv Hin) as [Hi [Hj Hinv']].
  rewrite IH by assumption. rewrite Hi, Hj. reflexivity.
Qed.

Ltac one_sided_loop :=
  intros; unfold inRange, keep, inc, dec, BOARD_ROWS, BOARD_COLS in *;
  repeat match goal with
         | H : _ /\ _ |- _ => destruct H
         | H : (_ && _) = true |- _ => apply andb_true_iff in H
         | H : (_ >=? _) = true |- _ => apply Z.geb_le in H
         | H : (_ <? _) = true |- _ => apply Z.ltb_lt in H
         end.

Lemma scan_left (b : BoardT) (fuel : nat) (i j p count : Z) :
  0 <= i < 6 -> j < 7 ->
  scanWhile fuel b (fun _ j => j >=? 0) keep dec i j p count
  = countWhile fuel b add64 i j 0 (-1) p count.
Proof.
  intros Hi Hj.
  apply (scanWhile_countWhile b (fun i j => 0 <= i < 6 /\ j < 7)); [| | auto].
  - one_sided_loop.
    destruct (Z.geb_spec i0 0), (Z.ltb_spec i0 6), (Z.ltb_spec j0 7),
      (Z.geb_spec j0 0); try lia; reflexivity.
  - one_sided_loop. rewrite sub64_as_add64, !add64_small by lia. repeat split; lia.
Qed.

Lemma scan_right (b : BoardT) (fuel : nat) (i j p count : Z) :
  0 <= i < 6 -> 0 <= j ->
  scanWhile fuel b (fun _ j => j <? 7) keep inc i j p count
  = countWhile fuel b add64 i j 0 1 p count.
Proof.
  intros Hi Hj.
  apply (scanWhile_countWhile b (fun i j => 0 <= i < 6 /\ 0 <= j)); [| | auto].
  - one_sided_loop.
    destruct (Z.geb_spec i0 0), (Z.ltb_spec i0 6), (Z.ltb_spec j0 7),
      (Z.geb_spec j0 0); try lia; reflexivity.
  - one_sided_loop. rewrite !add64_small by lia. repeat split; lia.
Qed.

Lemma scan_down (b : BoardT) (fuel : nat) (i j p count : Z) :
  0 <= i -> 0 <= j < 7 ->
  scanWhile fuel b (fun i _ => i <? 6) inc keep i j p count
  = countWhile fuel b add64 i j 1 0 p count.
Proof.
  intros Hi Hj.
  apply (scanWhile_countWhile b (fun i j => 0 <= i /\ 0 <= j < 7)); [| | auto].
  - one_sided_loop.
    destruct (Z.geb_spec i0 0), (Z.ltb_spec i0 6), (Z.ltb_spec j0 7),
      (Z.geb_spec j0 0); try lia; reflexivity.
  - one_sided_loop. rewrite !add64_small by lia. repeat split; lia.
Qed.

Lemma scan_up_left (b : BoardT) (fuel : nat) (i j p count : Z) :
  i < 6 -> j < 7 ->
  scanWhile fuel b (fun i j => (i >=? 0) && (j >=? 0)) dec dec i j p count
  = countWhile fuel b add64 i j (-1) (-1) p count.
Proof.
  intros Hi Hj.
  apply (scanWhile_countWhile b (fun i j => i < 6 /\ j < 7)); [| | auto].
  - one_sided_loop.
    destruct (Z.geb_spec i0 0), (Z.ltb_spec i0 6), (Z.ltb_spec j0 7),
      (Z.geb_spec j0 0); try lia; reflexivity.
  - one_sided_loop. rewrite !sub64_as_add64, !add64_small by lia. repeat split; lia.
Qed.

Lemma scan_down_right (b : BoardT) (fuel : nat) (i j p count : Z) :
  0 <= i -> 0 <= j ->
  scanWhile fuel b (fun i j => (i <? 6) && (j <? 7)) inc inc i j p count
  = countWhile fuel b add64 i j 1 1 p count.
Proof.
  intros Hi Hj.
  apply (scanWhile_countWhile b (fun i j => 0 <= i /\ 0 <= j)); [| | auto].
  - one_sided_loop.
    destruct (Z.geb_spec i0 0), (Z.ltb_spec i0 6), (Z.ltb_spec j0 7),
      (Z.geb_spec j0 0); try lia; reflexivity.
  - one_sided_loop. rewrite !add64_small by lia. repeat split; lia.
Qed.

Lemma scan_down_left (b : BoardT) (fuel : nat) (i j p count : Z) :
  0 <= i -> j < 7 ->
  scanWhile fuel b (fun i j => (i <? 6) && (j >=? 0)) inc dec i j p count
  = countWhile fuel b add64 i j 1 (-1) p count.
Proof.
  intros Hi Hj.
  apply (scanWhile_countWhile b (fun i j => 0 <= i /\ j < 7)); [| | auto].
  - one_sided_loop.
    destruct (Z.geb_spec i0 0), (Z.ltb_spec i0 6), (Z.ltb_spec j0 7),
      (Z.geb_spec j0 0); try lia; reflexivity.
  - one_sided_loop. rewrite !sub64_as_add64, !add64_small by lia. repeat split; lia.
Qed.

Lemma scan_up_right (b : BoardT) (fuel : nat) (i j p count : Z) :
  i < 6 -> 0 <= j ->
  scanWhile fuel b (fun i j => (i >=? 0) && (j <? 7)) dec inc i j p count
  = countWhile fuel b add64 i j (-1) 1 p count.
Proof.
  intros Hi Hj.
  apply (scanWhile_countWhile b (fun i j => i < 6 /\ 0 <= j)); [| | auto].
  - one_sided_loop.
    destruct (Z.geb_spec i0 0), (Z.ltb_spec i0 6), (Z.ltb_spec j0 7),
      (Z.geb_spec j0 0); try lia; reflexivity.
  - one_sided_loop. rewrite !sub64_as_add64, !add64_small by lia. repeat split; lia.
Qed.

Ltac same_cell H :=
  match goal with
  | |- holds _ _ ?x ?y = _ =>
      match type of H with
      | holds _ _ ?x' ?y' = _ =>
          replace x with x' by ring; replace y with y' by ring; exact H
      end
  end.

Ltac ray_from H :=
  let t := fresh "t" in
  let Ht := fresh "Ht" in
  intros t Ht; specialize (H (t + 1) ltac:(lia)); same_cell H.

(** The earlier variant, in terms of the runs around the cell. *)

Lemma checkForWinDraft_counts (b : BoardT) (row col : Z) :
  inRange row col = true ->
  exists a1 b1 a2 b2 a3 b3 a4 b4,
    checkDirection b row col 0 1 (cellAt b row col) = Returns (1 + a1 + b1)
    /\ checkDirection b row col 1 0 (cellAt b row col) = Returns (1 + a2 + b2)
    /\ checkDirection b row col 1 1 (cellAt b row col) = Returns (1 + a3 + b3)
    /\ checkDirection b row col (-1) 1 (cellAt b row col) = Returns (1 + a4 + b4)
    /\ 0 <= b2
    /\ (holds b (cellAt b row col) (row - 1) col = false -> b2 = 0)
    /\ (1 + a2 >=? 4) = fourFrom b (cellAt b row col) row col 1 0
    /\ checkForWinDraft b row col
       = Returns (if 1 + b1 + a1 >=? 4 then cellAt b row col
                  else if 1 + a2 >=? 4 then cellAt b row col
                  else if 1 + b3 + a3 >=? 4 then cellAt b row col
                  else if 1 + b4 + a4 >=? 4 then cellAt b row col
                  else 0).
Proof.
  intros Hin. set (p := cellAt b row col).
  destruct (checkDirection_runs_bounded b row col 0 1 p Hin)
    as [a1 [b1 [Ha1 [Hb1 [Hrun1 [Hfw1 [Hfs1 [Hbw1 Hbs1]]]]]]]]; try lia.
  destruct (checkDirection_runs_bounded b row col 1 0 p Hin)
    as [a2 [b2 [Ha2 [Hb2 [Hrun2 [Hfw2 [Hfs2 [Hbw2 Hbs2]]]]]]]]; try lia.
  destruct (checkDirection_runs_bounded b row col 1 1 p Hin)
    as [a3 [b3 [Ha3 [Hb3 [Hrun3 [Hfw3 [Hfs3 [Hbw3 Hbs3]]]]]]]]; try lia.
  destruct (checkDirection_runs_bounded b row col (-1) 1 p Hin)
    as [a4 [b4 [Ha4 [Hb4 [Hrun4 [Hfw4 [Hfs4 [Hbw4 Hbs4]]]]]]]]; try lia.
  exists a1, b1, a2, b2, a3, b3, a4, b4.
  repeat (split; [assumption |]). split; [lia |]. split.
  { intros Habove. destruct (Z.eq_dec b2 0) as [-> | Hne]; [reflexivity |]. exfalso.
    specialize (Hbw2 1 ltac:(lia)).
    replace (row + - (1) * 1) with (row - 1) in Hbw2 by ring.
    replace (col + - (1) * 0) with col in Hbw2 by ring.
    congruence. }
  split.
  { assert (holds b p row col = true) as Hcell by (apply holds_iff; auto).
    destruct (Z.geb_spec (1 + a2) 4) as [Hlong | Hshort]; symmetry.
    - unfold fourFrom. apply forallb_forall. intros t Ht.
      assert (t = 0 \/ 1 <= t <= a2) as [-> | Hs] by (simpl in Ht; lia).
      + rewrite !Z.mul_0_l, !Z.add_0_r. exact Hcell.
      + exact (Hfw2 t Hs).
    - apply not_true_is_false. intros Hfour. unfold fourFrom in Hfour.
      rewrite forallb_forall in Hfour.
      specialize (Hfour (a2 + 1) ltac:(simpl; lia)). congruence. }
  pose proof Hin as Hin'. apply inRange_iff in Hin'. unfold BOARD_ROWS, BOARD_COLS in Hin'.
  unfold checkForWinDraft. rewrite load_inRange, bind_Returns by assumption. fold p.
  rewrite !(sub64_small row 1), !(sub64_small col 1), !(add64_small row 1),
    !(add64_small col 1) by lia.
  rewrite scan_left by lia.
  rewrite (countWhile_loop_value b p 0 (-1) row (col - 1) 1 b1);
    [| lia | lia | lia | lia | lia | ray_from Hbw1 | same_cell Hbs1].
  rewrite bind_Returns, scan_right by lia.
  rewrite (countWhile_loop_value b p 0 1 row (col + 1) (1 + b1) a1);
    [| lia | lia | lia | lia | lia | ray_from Hfw1 | same_cell Hfs1].
  rewrite bind_Returns. destruct (1 + b1 + a1 >=? 4); [reflexivity |].
  rewrite scan_down by lia.
  rewrite (countWhile_loop_value b p 1 0 (row + 1) col 1 a2);
    [| lia | lia | lia | lia | lia | ray_from Hfw2 | same_cell Hfs2].
  rewrite bind_Returns. destruct (1 + a2 >=? 4); [reflexivity |].
  rewrite scan_up_left by lia.
  rewrite (countWhile_loop_value b p (-1) (-1) (row - 1) (col - 1) 1 b3);
    [| lia | lia | lia | lia | lia | ray_from Hbw3 | same_cell Hbs3].
  rewrite bind_Returns, scan_down_right by lia.
  rewrite (countWhile_loop_value b p 1 1 (row + 1) (col + 1) (1 + b3) a3);
    [| lia | lia | lia | lia | lia | ray_from Hfw3 | same_cell Hfs3].
  rewrite bind_Returns. destruct (1 + b3 + a3 >=? 4); [reflexivity |].
  rewrite scan_down_left by lia.
  rewrite (countWhile_loop_value b p 1 (-1) (row + 1) (col - 1) 1 b4);
    [| lia | lia | lia | lia | lia | ray_from Hbw4 | same_cell Hbs4].
  rewrite bind_Returns, scan_up_right by lia.
  rewrite (countWhile_loop_value b p (-1) 1 (row - 1) (col + 1) (1 + b4) a4);
    [| lia | lia | lia | lia | lia | ray_from Hfw4 | same_cell Hfs4].
  rewrite bind_Returns. destruct (1 + b4 + a4 >=? 4); reflexivity.
Qed.

(** X14.  The earlier [checkForWin] against the final one.  Outside the
    board both panic.  On a cell of the board, a side the earlier variant
    reports is reported by the final one too; and when the cell above does
    not hold the same side (as for a piece that has just landed) the two
    return the same.  The earlier variant counts the column downward only: it
    reports the occupant exactly when the cell is on a horizontal or diagonal
    four or is the upper end of four in its column, else 0.  So on every cell
    that is on a vertical four without being its upper end, and on no
    horizontal or diagonal four, it answers 0 where the final one answers
    the occupant. *)
Theorem checkForWinDraft_against_final (b : BoardT) (row col : Z) :
  (inRange row col = false ->
     checkForWinDraft b row col = IndexPanic /\ checkForWin b row col = IndexPanic)
  /\ (inRange row col = true ->
        (holds b (cellAt b row col) (row - 1) col = false ->
           checkForWinDraft b row col = checkForWin b row col)
        /\ (cellAt b row col <> CELL_EMPTY ->
            checkForWinDraft b row col = Returns (cellAt b row col) ->
            checkForWin b row col = Returns (cellAt b row col))
        /\ checkForWinDraft b row col
           = Returns (if onLineOfFourDraft b (cellAt b row col) row col
                      then cellAt b row col else 0)
        /\ (onLineAlong b (cellAt b row col) row col 1 0 = true ->
            onLineOfFourDraft b (cellAt b row col) row col = false ->
            checkForWinDraft b row col = Returns 0
            /\ checkForWin b row col = Returns (cellAt b row col))).
Proof.
  split.
  - intros Hout. unfold checkForWinDraft, checkForWin.
    rewrite load_outside by assumption. split; reflexivity.
  - intros Hin.
    destruct (checkForWinDraft_counts b row col Hin)
      as [a1 [b1 [a2 [b2 [a3 [b3 [a4 [b4
           [Hrun1 [Hrun2 [Hrun3 [Hrun4 [Hb2 [Habove [Hdown Hdraft]]]]]]]]]]]]]]].
    assert (checkForWin b row col
            = Returns (if 1 + a1 + b1 >=? 4 then cellAt b row col
                       else if 1 + a2 + b2 >=? 4 then cellAt b row col
                       else if 1 + a3 + b3 >=? 4 then cellAt b row col
                       else if 1 + a4 + b4 >=? 4 then cellAt b row col
                       else 0)) as Hfinal.
    { unfold checkForWin, WINNING_COUNT.
      rewrite load_inRange, bind_Returns by assumption.
      rewrite Hrun1, bind_Returns. destruct (1 + a1 + b1 >=? 4); [reflexivity |].
      rewrite Hrun2, bind_Returns. destruct (1 + a2 + b2 >=? 4); [reflexivity |].
      rewrite Hrun3, bind_Returns. destruct (1 + a3 + b3 >=? 4); [reflexivity |].
      rewrite Hrun4, bind_Returns. destruct (1 + a4 + b4 >=? 4); reflexivity. }
    assert (forall dRow dCol a bh,
              -1 <= dRow <= 1 -> -1 <= dCol <= 1 -> dRow <> 0 \/ dCol <> 0 ->
              checkDirection b row col dRow dCol (cellAt b row col) = Returns (1 + a + bh) ->
              (1 + a + bh >=? 4) = onLineAlong b (cellAt b row col) row col dRow dCol)
      as Hline.
    { intros dRow dCol a bh HdR HdC Hmove Hrun.
      destruct (checkDirection_four b row col dRow dCol Hin HdR HdC Hmove)
        as [count [Hcount <-]].
      rewrite Hrun in Hcount. injection Hcount as <-. reflexivity. }
    pose proof (Hline 0 1 a1 b1 ltac:(lia) ltac:(lia) ltac:(lia) Hrun1) as Hl1.
    pose proof (Hline 1 0 a2 b2 ltac:(lia) ltac:(lia) ltac:(lia) Hrun2) as Hl2.
    pose proof (Hline 1 1 a3 b3 ltac:(lia) ltac:(lia) ltac:(lia) Hrun3) as Hl3.
    pose proof (Hline (-1) 1 a4 b4 ltac:(lia) ltac:(lia) ltac:(lia) Hrun4) as Hl4.
    rewrite Hdraft, Hfinal.
    replace (1 + b1 + a1) with (1 + a1 + b1) by lia.
    replace (1 + b3 + a3) with (1 + a3 + b3) by lia.
    replace (1 + b4 + a4) with (1 + a4 + b4) by lia.
    split; [| split; [| split]].
    + intros Hab. rewrite (Habove Hab). replace (1 + a2 + 0) with (1 + a2) by lia.
      reflexivity.
    + intros Hocc.
      destruct (1 + a1 + b1 >=? 4); [reflexivity |].
      destruct (Z.geb_spec (1 + a2) 4) as [Hv | Hv].
      * intros _. destruct (Z.geb_spec (1 + a2 + b2) 4); [reflexivity | lia].
      * destruct (1 + a2 + b2 >=? 4); [reflexivity |].
        destruct (1 + a3 + b3 >=? 4); [reflexivity |].
        destruct (1 + a4 + b4 >=? 4); [reflexivity |].
        intros H. injection H as H. unfold CELL_EMPTY in Hocc. congruence.
    + unfold onLineOfFourDraft. rewrite <- Hl1, <- Hdown, <- Hl3, <- Hl4.
      destruct (1 + a1 + b1 >=? 4); [reflexivity |].
      destruct (1 + a2 >=? 4); [reflexivity |].
      destruct (1 + a3 + b3 >=? 4); [reflexivity |].
      destruct (1 + a4 + b4 >=? 4); reflexivity.
    + unfold onLineOfFourDraft. rewrite <- Hl1, <- Hl2, <- Hdown, <- Hl3, <- Hl4.
      intros Hcolumn Hnone. rewrite Hcolumn.
      destruct (1 + a1 + b1 >=? 4); [discriminate |].
      destruct (1 + a2 >=? 4); [discriminate |].
      destruct (1 + a3 + b3 >=? 4); [discriminate |].
      destruct (1 + a4 + b4 >=? 4); [discriminate |].
      split; reflexivity.
Qed.

Lemma checkForWinDraft_against_final_witness :
  inRange 1 3 = true
  /\ onLineAlong boardVerticalTop (cellAt boardVerticalTop 1 3) 1 3 1 0 = true
  /\ onLineOfFourDraft boardVerticalTop (cellAt boardVerticalTop 1 3) 1 3 = false
  /\ checkForWinDraft boardVerticalTop 1 3 = Returns 0
  /\ checkForWin boardVerticalTop 1 3 = Returns (cellAt boardVerticalTop 1 3).
Proof.
  split; [reflexivity |]. split; [reflexivity |]. split; [reflexivity |].
  exact (proj2 (proj2 (proj2 (proj2 (checkForWinDraft_against_final boardVerticalTop 1 3)
                                eq_refl)))
           eq_refl eq_refl).
Defined.

(** The upper end of four in the column is enough for the earlier variant:
    with five of side 1 in column 3, it reports side 1 on the two upper
    cells and 0 on the three below, while the final one reports side 1 on
    all five. *)

Example checkForWinDraft_vertical_five :
  map (fun row => checkForWinDraft boardVerticalFive row 3) [1; 2; 3; 4; 5]
  = [Returns 1; Returns 1; Returns 0; Returns 0; Returns 0]
  /\ map (fun row => checkForWin boardVerticalFive row 3) [1; 2; 3; 4; 5]
     = [Returns 1; Returns 1; Returns 1; Returns 1; Returns 1].
Proof. split; vm_compute; reflexivity. Qed.

(** ** The page script *)

(** X15.  The page shows each cell of the board in the cell that plays its
    column: the 42 cells made by [initializeBoard] are filled by
    [renderBoard] from the 42 positions of the board, each once, and the cell
    filled from [board[row][col]] is the one whose click sends [col]. *)
Theorem page_cell_plays_its_column :
  List.length clickColumns = 42%nat
  /\ (forall index, 0 <= index < 42 ->
        inRange (renderedRow index) (renderedCol index) = true
        /\ nth_error clickColumns (Z.to_nat index) = Some (renderedCol index))
  /\ (forall row col, inRange row col = true ->
        0 <= row * 7 + col < 42
        /\ renderedRow (row * 7 + col) = row /\ renderedCol (row * 7 + col) = col).
Proof.
  split; [reflexivity |]. split.
  - assert (forallb (fun index =>
              inRange (renderedRow index) (renderedCol index)
              && match nth_error clickColumns (Z.to_nat index) with
                 | Some c => c =? renderedCol index
                 | None => false
                 end) (upto 42) = true) as Hall by (vm_compute; reflexivity).
    rewrite forallb_forall in Hall. intros index Hindex.
    specialize (Hall index ltac:(apply In_upto; assumption)).
    apply andb_true_iff in Hall. destruct Hall as [Hin Hnth]. split; [exact Hin |].
    destruct (nth_error clickColumns (Z.to_nat index)) as [c |]; [| discriminate].
    apply Z.eqb_eq in Hnth. now subst c.
  - intros row col Hin. apply inRange_iff in Hin. unfold BOARD_ROWS, BOARD_COLS in Hin.
    unfold renderedRow, renderedCol. split; [lia |]. split.
    + symmetry. apply (Z.div_unique_pos (row * 7 + col) 7 row col); lia.
    + rewrite Z.rem_mod_nonneg by lia.
      symmetry. apply (Z.mod_unique_pos (row * 7 + col) 7 row col); lia.
Qed.

Lemma page_cell_plays_its_column_witness :
  0 <= 38 < 42 /\ inRange 5 3 = true
  /\ nth_error clickColumns 38 = Some 3
  /\ renderedRow (5 * 7 + 3) = 5 /\ renderedCol (5 * 7 + 3) = 3.
Proof.
  assert (0 <= 38 < 42) as Hindex by lia.
  split; [exact Hindex |]. split; [reflexivity |]. split.
  - exact (proj2 (proj1 (proj2 page_cell_plays_its_column) 38 Hindex)).
  - exact (proj2 (proj2 (proj2 page_cell_plays_its_column) 5 3 eq_refl)).
Defined.

(** ** The two move handlers in a game of two players *)

(** X16.  Outside ai mode the form handler and the JSON handler make the
    same move: for a column of the board, when [handleMoveAPI] accepts,
    [handleMove] leaves the very same state; when it refuses (the column is
    full), [handleMove] leaves the state as it was, with the message of the
    full column. *)
Theorem handleMove_as_handleMoveAPI (rand_Intn : Z -> Z) (gs : GameState) (col : Z) :
  Mode gs <> GAME_MODE_AI -> 0 <= col < BOARD_COLS ->
  exists gs' resp,
    handleMoveAPI gs MethodPost col = Returns (gs', Json resp)
    /\ handleMove rand_Intn gs MethodPost (Some col)
       = Returns (if Success resp then gs' else withStatusMessage gs "❌ Colonne pleine !")
    /\ (Success resp = false -> gs' = gs).
Proof.
  intros Hmode Hcol.
  destruct (placePiece_scan (Board gs) col (CurrentPlayer gs) Hcol) as [row [Hres Hplace]].
  unfold handleMove, handleMoveAPI. cbn [MethodPost String.eqb Ascii.eqb Bool.eqb negb].
  destruct (Z.ltb_spec col 0) as [Hneg | _]; [lia |].
  destruct (Z.geb_spec col BOARD_COLS) as [Hbig | _]; [lia |]. cbn [orb].
  rewrite Hplace, !bind_Returns.
  destruct (Z.eqb_spec row (-1)) as [-> | Hrow].
  - rewrite withBoard_same. do 2 eexists. split; [reflexivity |]. cbn [Success].
    split; reflexivity.
  - destruct (scanResult_empty_cell _ _ _ _ Hres Hrow) as [Hr _].
    destruct (checkGameEnd_outcome
                (withBoard gs (setCell (Board gs) row col (CurrentPlayer gs))) row col)
      as [_ [gs1 [_ [Hend [_ [Hm _]]]]]]; [apply inRange_iff; auto |].
    rewrite Hend, !bind_Returns. cbn [withBoard Mode] in Hm.
    destruct (String.eqb_spec (Mode gs1) GAME_MODE_AI) as [Hai | _]; [congruence |].
    rewrite andb_false_r. cbn [andb].
    destruct (GameOver gs1); do 2 eexists; (split; [reflexivity |]); cbn [Success];
      split; try reflexivity; discriminate.
Qed.

Lemma handleMove_as_handleMoveAPI_witness :
  Mode (startNewGame GAME_MODE_TWO_PLAYER) <> GAME_MODE_AI /\ 0 <= 3 < BOARD_COLS
  /\ exists gs' resp,
       handleMoveAPI (startNewGame GAME_MODE_TWO_PLAYER) MethodPost 3 = Returns (gs', Json resp)
       /\ handleMove firstIndex (startNewGame GAME_MODE_TWO_PLAYER) MethodPost (Some 3)
          = Returns (if Success resp then gs'
                     else withStatusMessage (startNewGame GAME_MODE_TWO_PLAYER)
                            "❌ Colonne pleine !").
Proof.
  assert (Mode (startNewGame GAME_MODE_TWO_PLAYER) <> GAME_MODE_AI) as Hm by discriminate.
  assert (0 <= 3 < BOARD_COLS) as Hcol by (unfold BOARD_COLS; lia).
  split; [exact Hm |]. split; [exact Hcol |].
  destruct (handleMove_as_handleMoveAPI firstIndex (startNewGame GAME_MODE_TWO_PLAYER) 3
              Hm Hcol) as [gs' [resp [Hapi [Hform _]]]].
  exists gs', resp. split; assumption.
Defined.

(** ** The game is over exactly when the board says so *)

Lemma isBoardFull_setCell (b : BoardT) (row col p : Z) :
  inRange row col = true -> p <> CELL_EMPTY ->
  isBoardFull b = true -> isBoardFull (setCell b row col p) = true.
Proof.
  intros Hin Hp Hfull. rewrite isBoardFull_iff in *. intros c Hc.
  rewrite cellAt_setCell by assumption.
  destruct ((0 =? row) && (c =? col)); [exact Hp | now apply Hfull].
Qed.

Lemma verdictExact_step (gs : GameState) (col p row : Z) (b : BoardT) (gs' : GameState) :
  verdictExact gs -> p = PLAYER_1 \/ p = PLAYER_2 ->
  placePiece (Board gs) col p = Returns (row, b) -> row <> -1 ->
  checkGameEnd (withBoard gs b) row col = Returns gs' ->
  verdictExact gs'.
Proof.
  intros [Hopen Hdrawn] Hp Hplace Hrow Hend.
  assert (p <> CELL_EMPTY) as Hp0 by (destruct Hp as [-> | ->]; discriminate).
  destruct (placePiece_landing _ _ _ _ _ Hplace Hrow) as [Hin [He Hb]].
  destruct (checkGameEnd_outcome (withBoard gs b) row col Hin)
    as [winner [gs1 [Hcheck [Hend' [Hb' [_ [Hw [Hd Hg]]]]]]]].
  rewrite Hend in Hend'. injection Hend' as <-.
  cbn [withBoard Board GameOver Winner] in *.
  rewrite checkForWin_returns in Hcheck by assumption.
  rewrite Hb, cellAt_setCell_same in Hcheck by assumption. rewrite <- Hb in Hcheck.
  injection Hcheck as Hwinner. unfold verdictExact. rewrite Hb'.
  destruct (Z_gt_le_dec winner 0) as [Hpos | Hnon].
  - destruct (Hw Hpos) as [Hov [Hwn _]]. rewrite Hov, Hwn. split; [discriminate |].
    intros Hthree. exfalso. rewrite Hthree in Hwinner.
    destruct (onLineOfFour b p row col); [| discriminate].
    destruct Hp as [-> | ->]; discriminate.
  - destruct (isBoardFull b) eqn:Hfull.
    + destruct (Hd Hnon eq_refl) as [Hov _]. rewrite Hov. split; [discriminate | reflexivity].
    + destruct (Hg Hnon eq_refl) as [Hov [Hwn _]]. rewrite Hov, Hwn.
      split; [reflexivity |]. intros Hthree. specialize (Hdrawn Hthree).
      rewrite Hb, isBoardFull_setCell in Hfull by assumption. discriminate.
Qed.

Lemma reachableState_exact (gs : GameState) :
  reachableState gs -> soundState gs /\ verdictExact gs.
Proof.
  set (P := fun s : GameState => soundState s /\ verdictExact s).
  assert (forall s m, P s -> P (withStatusMessage s m)) as Hmsg.
  { intros s m [[Hr [Hs Hv]] He]. split; [| exact He].
    split; [exact Hr |]. split; [exact Hs |]. now apply (verdictSound_fields s). }
  assert (forall s, P s -> P (withCurrentPlayer s PLAYER_1)) as Hturn.
  { intros s [[Hr [Hs Hv]] He]. split; [| exact He].
    split; [exact Hr |]. split; [now left |]. now apply (verdictSound_fields s). }
  assert (forall s col p row b s',
            P s -> p = PLAYER_1 \/ p = PLAYER_2 ->
            placePiece (Board s) col p = Returns (row, b) -> row <> -1 ->
            checkGameEnd (withBoard s b) row col = Returns s' -> P s') as Hstep.
  { intros s col p row b s' [Hs He] Hp Hplace Hrow Hend. split.
    - exact (soundState_step s col p row b s' Hs Hp Hplace Hrow Hend).
    - exact (verdictExact_step s col p row b s' He Hp Hplace Hrow Hend). }
  assert (forall s col row b s',
            P s -> placePiece (Board s) col (CurrentPlayer s) = Returns (row, b) ->
            row <> -1 -> checkGameEnd (withBoard s b) row col = Returns s' -> P s') as Hhuman.
  { intros s col row b s' HP. apply Hstep; [exact HP |]. apply HP. }
  assert (forall s col row b s',
            P s -> True -> placePiece (Board s) col PLAYER_2 = Returns (row, b) ->
            row <> -1 -> checkGameEnd (withBoard s b) row col = Returns s' -> P s') as Hauto.
  { intros s col row b s' HP _. apply Hstep; [exact HP | now right]. }
  assert (forall mode, P (startNewGame mode)) as Hstart.
  { intros mode. split; [apply soundState_start |]. split; [reflexivity | discriminate]. }
  intros Hreach.
  induction Hreach as [| mode | r s method colForm s' Hr _ IH Hrun
                       | s method reqCol s' reply _ IH Hrun
                       | r s method s' reply Hr _ IH Hrun ].
  - apply (Hstart GAME_MODE_TWO_PLAYER).
  - apply Hstart.
  - exact (handleMove_preserves r Hr P Hmsg Hturn Hhuman
             (fun _ => True) Hauto (fun _ _ => I) s method colForm s' IH Hrun).
  - exact (handleMoveAPI_preserves P Hhuman s method reqCol s' reply IH Hrun).
  - exact (aiMoveAPI_preserves r Hr P (fun _ => True) Hauto
             s method s' reply IH I Hrun).
Qed.

(** X17.  In every state of the server (whatever [rand.Intn] has drawn in
    each call) the game is over exactly when the board decides it:
    [GameOver] is true if and only if side 1 or side 2 has four in a row
    somewhere or the top row is full; and a draw is recorded only on a board
    with all 42 cells occupied. *)
Theorem game_over_iff_decided (gs : GameState) :
  reachableState gs ->
  (GameOver gs = true
   <-> hasFour (Board gs) PLAYER_1 = true \/ hasFour (Board gs) PLAYER_2 = true
       \/ isBoardFull (Board gs) = true)
  /\ (Winner gs = PLAYER_DRAW -> allOccupied (Board gs)).
Proof.
  intros Hreach.
  destruct (reachableState_exact gs Hreach)
    as [[Hboard [_ [Hnot [Hover Hwin]]]] [Hopen Hdrawn]].
  split.
  - split.
    + intros Hov. destruct (Hover Hov) as [Hw | [Hw | Hw]].
      * left. rewrite <- Hw. apply Hwin. now left.
      * right. left. rewrite <- Hw. apply Hwin. now right.
      * right. right. now apply Hdrawn.
    + intros Hdec. destruct (GameOver gs) eqn:Hov; [reflexivity |]. exfalso.
      destruct (Hnot eq_refl) as [_ [H1 H2]]. specialize (Hopen eq_refl).
      destruct Hdec as [H | [H | H]]; congruence.
  - intros Hdraw r c Hin. apply inRange_iff in Hin. destruct Hin as [Hr Hc].
    apply gravity_column_full; try assumption; [now apply reachable_gravity |].
    now apply (proj1 (isBoardFull_iff _) (Hdrawn Hdraw)).
Qed.

Lemma game_over_iff_decided_witness :
  reachableState gsWonByFirst
  /\ hasFour (Board gsWonByFirst) PLAYER_1 = true
  /\ GameOver gsWonByFirst = true.
Proof.
  assert (hasFour (Board gsWonByFirst) PLAYER_1 = true) as Hfour by (vm_compute; reflexivity).
  split; [exact reachableState_gsWonByFirst |]. split; [exact Hfour |].
  apply (proj1 (game_over_iff_decided gsWonByFirst reachableState_gsWonByFirst)).
  left. exact Hfour.
Defined.

(** The new-game handlers lead to states of the server. *)

Lemma new_game_handlers_reachable (gs : GameState) (method mode : string) :
  reachableState gs ->
  reachableState (handleModeChange gs method mode)
  /\ reachableState (handleNewGame gs method mode)
  /\ reachableState (fst (newGameAPI gs method mode)).
Proof.
  intros Hreach. unfold handleModeChange, handleNewGame, newGameAPI.
  destruct (negb (method =? MethodPost)%string); cbn [fst];
    repeat split; try assumption; apply reachableState_new.
Qed.

(** ** Which handlers can panic *)

Section HandlersReturn.

Variable rand_Intn : Z -> Z.
Hypothesis rand_Intn_range : forall n, 0 < n -> 0 <= rand_Intn n < n.

(** X18.  [handleMove] and [aiMoveAPI] return for every state and every
    request: no index leaves the board and every loop ends.  [handleMoveAPI]
    returns for every request but a POST with a column outside the board,
    which ends in the index panic of [placePiece]. *)
Theorem handlers_return (gs : GameState) (method : string) :
  (forall colForm, exists gs', handleMove rand_Intn gs method colForm = Returns gs')
  /\ (exists gs' reply, aiMoveAPI rand_Intn gs method = Returns (gs', reply))
  /\ (forall reqCol,
        (method = MethodPost /\ ~ (0 <= reqCol < BOARD_COLS) ->
           handleMoveAPI gs method reqCol = IndexPanic)
        /\ (~ (method = MethodPost /\ ~ (0 <= reqCol < BOARD_COLS)) ->
              exists gs' reply, handleMoveAPI gs method reqCol = Returns (gs', reply))).
Proof.
  split; [| split].
  - intros colForm. apply handleMove_returns. exact rand_Intn_range.
  - destruct (String.eqb_spec method MethodPost) as [-> | Hne].
    + destruct (automated_move_shape rand_Intn rand_Intn_range gs)
        as [c [row [_ [_ [_ [_ [[_ [_ Hapi]] | [_ [gs1 [_ [_ Hapi]]]]]]]]]]]; eauto.
    + unfold aiMoveAPI. apply String.eqb_neq in Hne. rewrite Hne. cbn [negb]. eauto.
  - intros reqCol. split.
    + intros [-> Hout]. unfold handleMoveAPI.
      cbn [MethodPost String.eqb Ascii.eqb Bool.eqb negb].
      now rewrite placePiece_outside.
    + intros Hok. unfold handleMoveAPI.
      destruct (String.eqb_spec method MethodPost) as [-> | Hne]; cbn [negb]; [| eauto].
      assert (0 <= reqCol < BOARD_COLS) as Hcol.
      { destruct (Z_le_dec 0 reqCol); [destruct (Z_lt_dec reqCol BOARD_COLS) |];
          try lia; exfalso; apply Hok; split; try reflexivity; lia. }
      destruct (placePiece_scan (Board gs) reqCol (CurrentPlayer gs) Hcol)
        as [row [Hres ->]].
      rewrite bind_Returns.
      destruct (Z.eqb_spec row (-1)) as [-> | Hrow]; [eauto |].
      destruct (scanResult_empty_cell _ _ _ _ Hres Hrow) as [Hr _].
      destruct (checkGameEnd_outcome
                  (withBoard gs (setCell (Board gs) row reqCol (CurrentPlayer gs))) row reqCol)
        as [_ [gs1 [_ [-> _]]]]; [apply inRange_iff; auto |].
      rewrite bind_Returns. destruct (GameOver gs1); eauto.
Qed.

End HandlersReturn.

Lemma handlers_return_witness :
  (MethodPost = MethodPost /\ ~ (0 <= 9 < BOARD_COLS))
  /\ handleMoveAPI gsWonByFirst MethodPost 9 = IndexPanic
  /\ exists gs', handleMove firstIndex gsWonByFirst MethodPost (Some 9) = Returns gs'.
Proof.
  assert (MethodPost = MethodPost /\ ~ (0 <= 9 < BOARD_COLS)) as Hbad
    by (split; [reflexivity | unfold BOARD_COLS; lia]).
  pose proof (handlers_return firstIndex firstIndex_in_range gsWonByFirst MethodPost)
    as [Hform [_ Hapi]].
  split; [exact Hbad |]. split.
  - exact (proj1 (Hapi 9) Hbad).
  - exact (Hform (Some 9)).
Defined.
